(** * structuresmith: template resolution and file materialization

    A shallow embedding of [cmd/action/main.go].  The program reads a YAML
    configuration, validates it and, for every repository, clears the
    repository's output directory and materializes its files from inline
    content, a URL or a local template file.

    The Go functions are embedded as functions over an explicit world (a file
    tree and the trace of the system calls made so far).  What the program
    takes from libraries is modelled as follows:
    - [path/filepath] ([Clean], [Join], [Dir], [Base]) on Unix strings;
    - package [os] on a file tree, for a process whose working directory is
      the root directory of the file system (so relative and absolute paths
      name the same nodes, and the parent of the root is the root), without
      permissions or symbolic links, and with nothing else changing the
      tree during a call;
    - [text/template], [net/http], [net/url], [yaml.v3] and the iteration
      order of Go maps are parameters of the development. *)

From Stdlib Require Import ZArith Ascii String.
From stdpp Require Import gmap strings list fin_maps.

#[local] Set Warnings "-register-all".
#[local] Open Scope string_scope.
#[local] Open Scope list_scope.

(** ** Paths: the part of [path/filepath] the program uses *)

Module filepath.

Definition is_sep (c : ascii) : bool := bool_decide (c = "/"%char).

(** [split_at_sep "" s] cuts [s] at every separator; [acc] is the element
    being read. *)
Fixpoint split_at_sep (acc : string) (s : string) : list string :=
  match s with
  | EmptyString => [acc]
  | String c s' =>
      if is_sep c then acc :: split_at_sep "" s'
      else split_at_sep (acc +:+ String c "") s'
  end.

Definition elements (s : string) : list string := split_at_sep "" s.

Definition rooted (s : string) : bool :=
  match s with String c _ => is_sep c | EmptyString => false end.

(** One element of the lexical clean-up, on the reversed list of the
    elements kept so far. *)
Definition clean_step (root : bool) (kept : list string) (e : string) : list string :=
  if bool_decide (e = "") then kept
  else if bool_decide (e = ".") then kept
  else if bool_decide (e = "..") then
    match kept with
    | top :: rest => if bool_decide (top = "..") then e :: kept else rest
    | [] => if root then [] else [e]
    end
  else e :: kept.

Definition join_sep (l : list string) : string := String.concat "/" l.

Definition Clean (p : string) : string :=
  let kept := rev (fold_left (clean_step (rooted p)) (elements p) []) in
  let out := (if rooted p then "/" else "") +:+ join_sep kept in
  if bool_decide (out = "") then "." else out.

(** [Join] ignores leading empty elements and cleans the rest. *)
Fixpoint Join (elem : list string) : string :=
  match elem with
  | [] => ""
  | e :: rest => if bool_decide (e = "") then Join rest else Clean (join_sep elem)
  end.

(** Everything up to and including the last separator, cleaned. *)
Definition Dir (p : string) : string :=
  match rev (elements p) with
  | _ :: (_ :: _) as front => Clean (join_sep (rev front) +:+ "/")
  | _ => Clean ""
  end.

Fixpoint drop_empty (l : list string) : list string :=
  match l with
  | e :: rest => if bool_decide (e = "") then drop_empty rest else l
  | [] => []
  end.

Definition Base (p : string) : string :=
  if bool_decide (p = "") then "."
  else match drop_empty (rev (elements p)) with
       | last :: _ => last
       | [] => "/"
       end.

End filepath.

Arguments filepath.Join : simpl never.
Arguments filepath.Dir : simpl never.
Arguments filepath.Base : simpl never.
Arguments filepath.Clean : simpl never.

(** ** The file tree and package [os] *)

Inductive node :=
  | File (content : string)
  | Dir (entries : gmap string node).

Inductive errno := ENOENT | ENOTDIR | EISDIR | EINVAL | ENOTEMPTY | EBUSY.

#[global] Instance errno_eq_dec : EqDecision errno.
Proof. solve_decision. Defined.

Module os.

(** Name resolution: the elements of a path, with [.] dropped and [..]
    going up (the parent of the root is the root). *)
Definition resolve_step (kept : list string) (e : string) : list string :=
  if bool_decide (e = "") then kept
  else if bool_decide (e = ".") then kept
  else if bool_decide (e = "..") then tail kept
  else e :: kept.

Definition resolve (p : string) : list string :=
  rev (fold_left resolve_step (filepath.elements p) []).

Fixpoint walk (p : list string) (n : node) : errno + node :=
  match p with
  | [] => inr n
  | s :: r =>
      match n with
      | File _ => inl ENOTDIR
      | Dir es =>
          match es !! s with
          | Some c => walk r c
          | None => inl ENOENT
          end
      end
  end.

Definition rebuild (es : gmap string node) (s : string) (r : errno + node) : errno + node :=
  match r with
  | inr c => inr (Dir (<[s:=c]> es))
  | inl e => inl e
  end.

(** Creates the directory and the missing parents; fails on a regular file
    on the way, before anything is created. *)
Fixpoint mkdir_all (p : list string) (n : node) : errno + node :=
  match p with
  | [] => match n with Dir _ => inr n | File _ => inl ENOTDIR end
  | s :: r =>
      match n with
      | File _ => inl ENOTDIR
      | Dir es => rebuild es s (mkdir_all r (default (Dir ∅) (es !! s)))
      end
  end.

(** Open with [O_CREATE|O_TRUNC] and leave [c] as the content. *)
Fixpoint put_file (p : list string) (c : string) (n : node) : errno + node :=
  match p with
  | [] => match n with File _ => inr (File c) | Dir _ => inl EISDIR end
  | s :: r =>
      match n with
      | File _ => inl ENOTDIR
      | Dir es =>
          match es !! s with
          | Some ch => rebuild es s (put_file r c ch)
          | None =>
              match r with
              | [] => inr (Dir (<[s:=File c]> es))
              | _ :: _ => inl ENOENT
              end
          end
      end
  end.

(** Removes the entry at [s :: r] with everything below it. *)
Fixpoint remove_all (s : string) (r : list string) (n : node) : node :=
  match n with
  | File _ => n
  | Dir es =>
      match es !! s with
      | None => n
      | Some ch =>
          match r with
          | [] => Dir (delete s es)
          | s' :: r' => Dir (<[s := remove_all s' r' ch]> es)
          end
      end
  end.

(** Empties the directory at [p]: what a recursive removal leaves of a
    directory that cannot be removed itself. *)
Fixpoint clear_all (p : list string) (n : node) : node :=
  match n with
  | File _ => n
  | Dir es =>
      match p with
      | [] => Dir ∅
      | s :: r =>
          match es !! s with
          | None => n
          | Some ch => Dir (<[s := clear_all r ch]> es)
          end
      end
  end.

(** [endsWithDot] of [removeall_at.go]: the path is [.] or ends in [/.]. *)
Definition endsWithDot (path : string) : bool :=
  match rev (list_ascii_of_string path) with
  | ["."%char] => true
  | "."%char :: c :: _ => filepath.is_sep c
  | _ => false
  end.

Fixpoint trim_leading_seps (path : string) : string :=
  match path with
  | String c (String c' _ as rest) =>
      if filepath.is_sep c && filepath.is_sep c' then trim_leading_seps rest else path
  | _ => path
  end.

(** On the reversed path: drops the trailing separators, but not the first
    character of the path. *)
Fixpoint trim_trailing_seps (reversed : list ascii) : list ascii :=
  match reversed with
  | c :: (_ :: _) as rest => if filepath.is_sep c then trim_trailing_seps rest else reversed
  | _ => reversed
  end.

(** On a reversed text: what follows the last separator (still reversed) and
    what precedes it. *)
Fixpoint break_at_sep (reversed : list ascii) : option (list ascii * list ascii) :=
  match reversed with
  | [] => None
  | c :: rest =>
      if filepath.is_sep c then Some ([], rest)
      else match break_at_sep rest with
           | Some (b, d) => Some (c :: b, d)
           | None => None
           end
  end.

(** [splitPath] of [removeall_at.go]: the directory and the last element of
    a path, cut at the last separator before the last character. *)
Definition splitPath (path : string) : string * string :=
  match trim_trailing_seps (rev (list_ascii_of_string (trim_leading_seps path))) with
  | [] => (".", "")
  | last :: before =>
      match break_at_sep before with
      | Some (b, d) =>
          (match d with [] => "/" | _ :: _ => string_of_list_ascii (rev d) end,
           string_of_list_ascii (rev (last :: b)))
      | None => (".", string_of_list_ascii (rev (last :: before)))
      end
  end.

(** The error of [unlinkat(AT_REMOVEDIR)] on a last element that is no name
    of an entry. *)
Definition rmdir_refusal (base : string) : option errno :=
  if bool_decide (base = "..") then Some ENOTEMPTY
  else if bool_decide (base = ".") then Some EINVAL
  else if bool_decide (base = "/") then Some EBUSY
  else None.

(** The empty path names nothing. *)
Definition at_path {A} (p : string) (f : list string -> errno + A) : errno + A :=
  if bool_decide (p = "") then inl ENOENT else f (resolve p).

Definition Stat (p : string) (root : node) : errno + node :=
  at_path p (fun k => walk k root).

Definition ReadFile (p : string) (root : node) : errno + string :=
  at_path p (fun k =>
    match walk k root with
    | inr (File c) => inr c
    | inr (Dir _) => inl EISDIR
    | inl e => inl e
    end).

Definition MkdirAll (p : string) (root : node) : errno + node :=
  at_path p (fun k => mkdir_all k root).

Definition WriteFile (p : string) (c : string) (root : node) : errno + node :=
  at_path p (fun k => put_file k c root).

Definition Create (p : string) (root : node) : errno + node :=
  WriteFile p "" root.

Definition IsNotExist (e : errno) : bool := bool_decide (e = ENOENT).

(** [RemoveAll]: the operation, path and error of the [*PathError] it
    returns, if any, and the tree it leaves.  The empty path is no error; a
    path that ends in a dot is refused; a path that is not there is no
    error; a regular file on the way fails in [Open] of the parent or in
    [unlinkat] (the parent cannot be missing then: [Remove] would have
    reported that).  Otherwise everything below the path is removed, and
    then the entry itself, unless it is the root or is named by [.], [..]
    or [/]: that directory is left empty and the error of its removal is
    returned (on a regular file such a name is [ENOTDIR]). *)
Definition RemoveAll (path : string) (root : node)
    : option (string * string * errno) * node :=
  if bool_decide (path = "") then (None, root)
  else if endsWithDot path then (Some ("RemoveAll", path, EINVAL), root)
  else
    let '(parentDir, base) := splitPath path in
    let name := parentDir +:+ "/" +:+ base in
    match walk (resolve path) root with
    | inl e =>
        if IsNotExist e then (None, root)
        else match walk (resolve parentDir) root with
             | inl e' => (Some ("open", parentDir, e'), root)
             | inr _ => (Some ("unlinkat", name, e), root)
             end
    | inr target =>
        match rmdir_refusal base, resolve path, target with
        | None, s :: r, _ => (None, remove_all s r root)
        | _, _, File _ => (Some ("unlinkat", name, ENOTDIR), root)
        | refusal, k, Dir _ =>
            (Some ("unlinkat", name, default EBUSY refusal), clear_all k root)
        end
    end.

(** The content of the regular file at [k], if there is one. *)
Definition file_at (k : list string) (n : node) : option string :=
  match walk k n with
  | inr (File c) => Some c
  | _ => None
  end.

End os.

(** ** The data model of the configuration *)

(** What [yaml.v3] decodes into an [interface{}]; the program never looks
    inside a value, it hands them to the template engine. *)
Inductive value :=
  | VNull
  | VBool (b : bool)
  | VInt (i : Z)
  | VFloat (bits : Z)
  | VString (s : string)
  | VList (l : list value)
  | VMap (m : gmap string value).

(** A Go [map[string]interface{}]; [None] is the nil map. *)
Abbreviation values := (option (gmap string value)).

(** Indexing a map; the nil map has no keys. *)
Definition lookupValues (m : values) (k : string) : option value :=
  m ≫= fun g => g !! k.

Record FileStructure := {
  Filename : string;
  SourceFile : string;
  SourceURL : string;
  Content : string;
  Values : values
}.

Module TemplateGroupRef.
Record t := { GroupName : string; Values : values }.
End TemplateGroupRef.

Module Template.
Record t := { Files : list FileStructure }.
End Template.

(** [RepositoryConfig] and [Repository] have the same fields; the conversion
    [Repository(rc)] of [main] is the identity. *)
Record Repository := {
  Name : string;
  Files : list FileStructure;
  Groups : list TemplateGroupRef.t
}.

Abbreviation RepositoryConfig := Repository (only parsing).

Record Config := {
  TemplateGroups : gmap string (list FileStructure);
  Repositories : list RepositoryConfig
}.

Record CLIArgs := {
  ConfigFile : string;
  OutputPath : string;
  TemplatesDir : string;
  Repo : string;
  MaxParallel : Z
}.

Definition withSourceFile (p : string) (f : FileStructure) : FileStructure :=
  {| Filename := Filename f; SourceFile := p; SourceURL := SourceURL f;
     Content := Content f; Values := Values f |}.

(** What [readConfig] makes of a file of a template group. *)
Definition joinedFile (templatesDir : string) (f : FileStructure) : FileStructure :=
  if bool_decide (SourceFile f ≠ "")
  then withSourceFile (filepath.Join [templatesDir; SourceFile f]) f
  else f.

Definition joinedGroup (templatesDir : string) (group : list FileStructure)
    : list FileStructure :=
  joinedFile templatesDir <$> group.

(** The sources of a file other than the inline content, and other than
    content and URL, blanked. *)
Definition inlineOnly (f : FileStructure) : FileStructure :=
  {| Filename := Filename f; SourceFile := ""; SourceURL := "";
     Content := Content f; Values := Values f |}.

Definition withoutSourceFile (f : FileStructure) : FileStructure := withSourceFile "" f.

Definition withValues (v : values) (f : FileStructure) : FileStructure :=
  {| Filename := Filename f; SourceFile := SourceFile f; SourceURL := SourceURL f;
     Content := Content f; Values := v |}.

(** ** Errors, system calls and the world *)

Inductive error :=
  | PathError (op path : string) (e : errno)
  | TransportError (url : string)
  | BodyReadError
  | BadStatus (code : Z) (status : string)
  | ParseError
  | ExecError
  | YamlError
  | Errorf (msg : string)
  | Errorf_w (msg : string) (cause : error).

Inductive result (A : Type) :=
  | Ok (a : A)
  | Err (e : error).
Arguments Ok {A} a.
Arguments Err {A} e.

(** The kinds of validation error of the specification, by their message. *)
Definition DuplicateName (e : error) : Prop :=
  exists n, e = Errorf ("duplicate repository name: " +:+ n)
            \/ e = Errorf ("duplicate template group: " +:+ n).

Definition ConflictingSource (e : error) : Prop :=
  exists name, e = Errorf ("both SourceFile and Content set for file: " +:+ name).

Definition MissingSourceFile (e : error) : Prop :=
  exists p, e = Errorf ("template file not found: " +:+ p).


Inductive event :=
  | EvStat (path : string)
  | EvReadFile (path : string)
  | EvMkdirAll (path : string)
  | EvCreate (path : string)
  | EvWrite (path : string) (data : string)
  | EvWriteFile (path : string) (data : string)
  | EvRemoveAll (path : string)
  | EvHttpGet (url : string).

Record world := { root : node; trace : list event }.

Definition logged (ev : event) (r : node) (w : world) : world :=
  {| root := r; trace := trace w ++ [ev] |}.

(** A Go function that returns [(A, error)] and may touch the file system.
    An error does not undo what was done before it. *)
Definition M (A : Type) : Type := world -> result A * world.

Definition ret {A} (a : A) : M A := fun w => (Ok a, w).
Definition fail {A} (e : error) : M A := fun w => (Err e, w).

Definition bind {A B} (m : M A) (k : A -> M B) : M B :=
  fun w => match m w with
           | (Ok a, w') => k a w'
           | (Err e, w') => (Err e, w')
           end.

Notation "'do' x <- m ; k" := (bind m (fun x => k))
  (at level 10, x name, m at level 100, k at level 200).
Notation "'run' m ; k" := (bind m (fun _ => k))
  (at level 10, m at level 100, k at level 200).

(** [fmt.Errorf("msg: %w", err)] on the error path. *)
Definition wrap {A} (msg : string) (m : M A) : M A :=
  fun w => match m w with
           | (Err e, w') => (Err (Errorf_w msg e), w')
           | r => r
           end.

(** [if err := m; err != nil { return h }]. *)
Definition orElse {A} (m : M A) (h : M A) : M A :=
  fun w => match m w with
           | (Err _, w') => h w'
           | r => r
           end.

Definition lift {A} (o : option error) (a : A) : M A :=
  match o with Some e => fail e | None => ret a end.

(** [for _, x := range l { if err := body(x); err != nil { return err } }] *)
Fixpoint forEach {A} (l : list A) (body : A -> M unit) : M unit :=
  match l with
  | [] => ret tt
  | x :: rest => run body x; forEach rest body
  end.

(** [m] only makes steps related by [R], whatever it returns. *)
Definition preserves {A} (R : world -> world -> Prop) (m : M A) : Prop :=
  forall w, R w (m w).2.

(** The regular file at [k] is the same before and after. *)
Definition same_file_at (k : list string) (w w' : world) : Prop :=
  os.file_at k (root w') = os.file_at k (root w).

(** A regular file at [k] is not removed (its content may change). *)
Definition keeps_file_at (k : list string) (w w' : world) : Prop :=
  is_Some (os.file_at k (root w)) -> is_Some (os.file_at k (root w')).

(** [m] returns an error from every world. *)
Definition fails {A} (m : M A) : Prop :=
  forall w, exists e w', m w = (Err e, w').

(** Nothing happened: no change and no system call. *)
Definition same_world (w w' : world) : Prop := w' = w.

(** The file tree is the same before and after. *)
Definition same_root (w w' : world) : Prop := root w' = root w.

(** The system calls made between [w] and [w'] all satisfy [P]. *)
Definition only_calls (P : event -> Prop) (w w' : world) : Prop :=
  exists evs, trace w' = trace w ++ evs /\ Forall P evs.

Definition isFetch (ev : event) : Prop := exists u, ev = EvHttpGet u.
Definition isRead (ev : event) : Prop := exists p, ev = EvReadFile p.
Definition isRemove (ev : event) : Prop := exists p, ev = EvRemoveAll p.

(** [k] is at or below the directory named [d]. *)
Definition inSubtree (d : string) (k : list string) : Prop :=
  os.resolve d `prefix_of` k.

Module sys.

Definition query {A} (ev : event) (f : node -> errno + A) : world -> (errno + A) * world :=
  fun w => (f (root w), logged ev (root w) w).

Definition update (ev : event) (f : node -> errno + node) : world -> (errno + unit) * world :=
  fun w => match f (root w) with
           | inr r => (inr tt, logged ev r w)
           | inl e => (inl e, logged ev (root w) w)
           end.

(** The [*PathError] of a failed call; [path] is the argument of the call. *)
Definition checked {A} (op path : string) (c : world -> (errno + A) * world) : M A :=
  fun w => match c w with
           | (inr a, w') => (Ok a, w')
           | (inl e, w') => (Err (PathError op path e), w')
           end.

Definition Stat (p : string) : world -> (errno + node) * world :=
  query (EvStat p) (os.Stat p).

Definition ReadFile (p : string) : M string :=
  checked "open" p (query (EvReadFile p) (os.ReadFile p)).

Definition MkdirAll (p : string) : M unit :=
  checked "mkdir" p (update (EvMkdirAll p) (os.MkdirAll p)).

Definition Create (p : string) : M unit :=
  checked "open" p (update (EvCreate p) (os.Create p)).

Definition WriteFile (p : string) (c : string) : M unit :=
  checked "open" p (update (EvWriteFile p c) (os.WriteFile p c)).

(** [RemoveAll] may have removed a part of the tree when it fails. *)
Definition RemoveAll (p : string) : M unit :=
  fun w => match os.RemoveAll p (root w) with
           | (None, r) => (Ok tt, logged (EvRemoveAll p) r w)
           | (Some (op, path, e), r) =>
               (Err (PathError op path e), logged (EvRemoveAll p) r w)
           end.

(** Bytes sent to the file opened by [Create p]: they become its content. *)
Definition Write (p : string) (data : string) : M unit :=
  fun w => (Ok tt, logged (EvWrite p data)
                     (match os.WriteFile p data (root w) with
                      | inr r => r
                      | inl _ => root w
                      end) w).

End sys.

Inductive http_response :=
  | NoResponse
  | Response (code : Z) (status : string) (body : option string).

(** ** Stand-ins for the libraries, used to run the program on examples *)

Module Demo.

(** A text parses unless it opens an action it never closes. *)
Definition Parse (s : string) : option string :=
  match index 0 "{{" s, index 0 "}}" s with
  | Some _, None => None
  | _, _ => Some s
  end.

(** An engine that knows no action: it copies the text up to the first
    action and stops there with an error. *)
Definition Execute (t : string) (_ : values) : string * bool :=
  match index 0 "{{" t with
  | Some n => (substring 0 n t, false)
  | None => (t, true)
  end.

Definition httpGet (url : string) : http_response :=
  if bool_decide (url = "https://example.com/logo.bin")
  then Response 200 "200 OK" (Some "{{ raw bytes")
  else NoResponse.

Definition ParseRequestURI (s : string) : bool :=
  String.prefix "https://" s || String.prefix "http://" s || String.prefix "/" s.

Definition range {V : Type} (m : gmap string V) : list (string * V) := map_to_list m.

Definition emptyFile (name : string) : FileStructure :=
  {| Filename := name; SourceFile := ""; SourceURL := ""; Content := ""; Values := None |}.

Definition inline (name content : string) : FileStructure :=
  {| Filename := name; SourceFile := ""; SourceURL := ""; Content := content; Values := None |}.

Definition fromURL (name url : string) : FileStructure :=
  {| Filename := name; SourceFile := ""; SourceURL := url; Content := ""; Values := None |}.

Definition fromFile (name src : string) : FileStructure :=
  {| Filename := name; SourceFile := src; SourceURL := ""; Content := ""; Values := None |}.

Definition allSources : FileStructure :=
  {| Filename := "x.txt"; SourceFile := "x.tmpl"; SourceURL := "not a url";
     Content := "text"; Values := None |}.

Definition svc (files : list FileStructure) (groups : list string) : Repository :=
  {| Name := "svc"; Files := files;
     Groups := (fun g => {| TemplateGroupRef.GroupName := g;
                            TemplateGroupRef.Values := None |}) <$> groups |}.

(** The configuration as written: a group with a local template, and a
    repository that uses the same template in a direct file. *)
Definition config : Config :=
  {| TemplateGroups := {[ "base" := [fromFile "README.md" "raw.tmpl"; inline "LICENSE" "MIT"] ]};
     Repositories := [svc [fromFile "x.txt" "raw.tmpl"] ["base"]] |}.

Definition Unmarshal (_ : string) : option Config := Some config.

(** A configuration that validation accepts: a group file with inline
    content and a URL, and a direct file with all three sources, the URL of
    which is no URL. *)
Definition conflicting : Config :=
  {| TemplateGroups :=
       {[ "base" := [ {| Filename := "logo.bin"; SourceFile := "";
                         SourceURL := "https://example.com/logo.bin";
                         Content := "text"; Values := None |} ] ]};
     Repositories := [svc [allSources] ["base"]] |}.

(** [config] after [readConfig] with the templates directory [templates]. *)
Definition loaded : Config :=
  {| TemplateGroups :=
       {[ "base" := [fromFile "README.md" "templates/raw.tmpl"; inline "LICENSE" "MIT"] ]};
     Repositories := [svc [fromFile "x.txt" "raw.tmpl"] ["base"]] |}.

(** A group file with a local template and inline content, and one with a
    URL that is none. *)
Definition rejected : Config :=
  {| TemplateGroups :=
       {[ "base" := [ {| Filename := "README.md"; SourceFile := "templates/raw.tmpl";
                         SourceURL := ""; Content := "text"; Values := None |} ];
          "assets" := [fromURL "logo.bin" "not a url"] ]};
     Repositories := [svc [] ["base"]] |}.

Definition emptyWorld : world := {| root := Dir ∅; trace := [] |}.

(** A tree with the template [templates/raw.tmpl], a stale output file
    [out/svc/old.txt], a regular file [blocked] and the configuration file. *)
Definition tree : node :=
  Dir {[ "templates" := Dir {[ "raw.tmpl" := File "{{ unclosed" ]};
         "out" := Dir {[ "svc" := Dir {[ "old.txt" := File "stale" ]} ]};
           "blocked" := File "a regular file";
         "config.yaml" := File "templateGroups: ..." ]}.

Definition w0 : world := {| root := tree; trace := [] |}.

End Demo.

(** ** More stand-ins: an engine that uses the values *)

Module Sample.

(** A template is its text; executing it appends the string bound to
    [Name], and fails after the text when there is none. *)
Definition Parse (s : string) : option string := Some s.

Definition Execute (t : string) (vals : values) : string * bool :=
  match lookupValues vals "Name" with
  | Some (VString s) => (t +:+ s, true)
  | _ => (t, false)
  end.

Definition httpGet (url : string) : http_response :=
  if bool_decide (url = "https://example.com/title")
  then Response 200 "200 OK" (Some "fetched for ")
  else if bool_decide (url = "https://example.com/gone")
  then Response 404 "404 Not Found" (Some "not found")
  else NoResponse.

Definition named (name : string) : values := Some {[ "Name" := VString name ]}.

(** The file of the group [base]: a title with a default name. *)
Definition readme : FileStructure :=
  {| Filename := "README.md"; SourceFile := ""; SourceURL := "";
     Content := "# "; Values := named "default" |}.

Definition groups : gmap string (list FileStructure) := {[ "base" := [readme] ]}.

Definition base (name : string) : TemplateGroupRef.t :=
  {| TemplateGroupRef.GroupName := "base"; TemplateGroupRef.Values := named name |}.

Definition unknown : TemplateGroupRef.t :=
  {| TemplateGroupRef.GroupName := "missing"; TemplateGroupRef.Values := None |}.

Definition config : Config :=
  {| TemplateGroups := groups;
     Repositories := [ {| Name := "svc-a"; Files := []; Groups := [base "svc-a"] |} ] |}.

(** A tree in which [out/svc/docs] is a directory. *)
Definition tree : node :=
  Dir {[ "templates" := Dir {[ "page.tmpl" := File "page of " ]};
         "out" := Dir {[ "svc" := Dir {[ "docs" := Dir ∅ ]} ]};
         "notes.txt" := File "keep" ]}.

Definition w0 : world := {| root := tree; trace := [] |}.

End Sample.

(** ** The program *)

Section Program.

(** [text/template]: parsing a text, and executing a parsed template on
    the values.  [Execute] writes as it goes: it returns what reached the
    file and whether it ran to the end. *)
Variable template : Type.
Variable Parse : string -> option template.
Variable Execute : template -> values -> string * bool.

(** [http.Get], [url.ParseRequestURI] and [yaml.Unmarshal]. *)
Variable httpGet : string -> http_response.
Variable ParseRequestURI : string -> bool.
Variable Unmarshal : string -> option Config.

(** The order in which a [range] statement visits a map: any order (one
    per map here; nothing below depends on which). *)
Variable range : forall {V : Type}, gmap string V -> list (string * V).
Hypothesis range_perm : forall V (m : gmap string V), range m ≡ₚ map_to_list m.

Definition rangeValues (m : values) : list (string * value) :=
  match m with
  | Some g => range g
  | None => []
  end.

(** *** readConfig *)

(** The inner loop of [readConfig]: [group[i].SourceFile = ...] in place. *)
Definition joinSourceFiles (templatesDir : string) (group : list FileStructure)
    : list FileStructure :=
  foldl (fun (g : list FileStructure) (i : nat) =>
           match g !! i with
           | Some file =>
               if bool_decide (SourceFile file ≠ "") then
                 alter (withSourceFile (filepath.Join [templatesDir; SourceFile file])) i g
               else g
           | None => g
           end)
        group (seq 0 (length group)).

(** The slices are shared with the map: the loop over the map leaves every
    visited group updated in it. *)
Definition joinTemplateGroups (templatesDir : string)
    (groups : gmap string (list FileStructure)) : gmap string (list FileStructure) :=
  foldl (fun m '(name, group) => <[name := joinSourceFiles templatesDir group]> m)
        groups (range groups).

Definition readConfig (filename templatesDir : string) : M Config :=
  do data <- wrap "failed to read file" (sys.ReadFile filename);
  match Unmarshal data with
  | None => fail (Errorf_w "failed to unmarshal YAML" YamlError)
  | Some config =>
      ret {| TemplateGroups := joinTemplateGroups templatesDir (TemplateGroups config);
             Repositories := Repositories config |}
  end.

(** *** Validation *)

(** The loop of the two duplicate checks, with its map of the names seen. *)
Fixpoint duplicateName (what : string) (seen : gmap string bool) (names : list string)
    : option error :=
  match names with
  | [] => None
  | n :: rest =>
      match seen !! n with
      | Some _ => Some (Errorf (what +:+ n))
      | None => duplicateName what (<[n := true]> seen) rest
      end
  end.

Definition validateDuplicateRepoNames (repos : list RepositoryConfig) : option error :=
  duplicateName "duplicate repository name: " ∅ (Name <$> repos).

Definition validateDuplicateTemplateGroups (groups : gmap string (list FileStructure))
    : option error :=
  duplicateName "duplicate template group: " ∅ ((range groups).*1).

(** The body of the loops of [validateFileStructures]. *)
Definition checkFileStructure (file : FileStructure) : M unit :=
  if bool_decide (SourceFile file ≠ "") && bool_decide (Content file ≠ "") then
    fail (Errorf ("both SourceFile and Content set for file: " +:+ Filename file))
  else if bool_decide (SourceFile file ≠ "") then
    fun w => match sys.Stat (SourceFile file) w with
             | (inl e, w') =>
                 if os.IsNotExist e then
                   (Err (Errorf ("template file not found: " +:+ SourceFile file)), w')
                 else (Ok tt, w')
             | (inr _, w') => (Ok tt, w')
             end
  else ret tt.

Definition validateFileStructures (groups : gmap string (list FileStructure)) : M unit :=
  forEach (range groups) (fun '(_, files) => forEach files checkFileStructure).

Definition validateRepoGroupReferences (repos : list RepositoryConfig)
    (groups : gmap string (list FileStructure)) : M unit :=
  forEach repos (fun repo =>
    forEach (Groups repo) (fun groupRef =>
      match groups !! TemplateGroupRef.GroupName groupRef with
      | Some _ => ret tt
      | None => fail (Errorf ("repository " +:+ Name repo +:+ " refers to non-existent group: "
                                +:+ TemplateGroupRef.GroupName groupRef))
      end)).

(** The body of the loops of [validateURLSchemes]. *)
Definition checkURLScheme (file : FileStructure) : M unit :=
  if bool_decide (SourceURL file ≠ "") then
    if ParseRequestURI (SourceURL file) then ret tt
    else fail (Errorf ("invalid SourceURL: " +:+ SourceURL file))
  else ret tt.

Definition validateURLSchemes (groups : gmap string (list FileStructure)) : M unit :=
  forEach (range groups) (fun '(_, files) => forEach files checkURLScheme).

Definition validateConfig (config : Config) : M unit :=
  run lift (validateDuplicateRepoNames (Repositories config)) tt;
  run lift (validateDuplicateTemplateGroups (TemplateGroups config)) tt;
  run validateFileStructures (TemplateGroups config);
  run validateRepoGroupReferences (Repositories config) (TemplateGroups config);
  validateURLSchemes (TemplateGroups config).

(** [main] up to the dispatch of the repositories: [log.Fatalf] ends the
    process with the error. *)
Definition startup (args : CLIArgs) : M Config :=
  if bool_decide (MaxParallel args ≤ 0)%Z then
    fail (Errorf "Invalid max-parallel value. It must be greater than 0.")
  else
    do config <- wrap "Error reading config" (readConfig (ConfigFile args) (TemplatesDir args));
    run wrap "Configuration validation error" (validateConfig config);
    ret config.

(** *** Generation *)

Definition deleteExistingDir (dirPath : string) : M unit :=
  fun w =>
    let '(st, w1) := sys.Stat dirPath w in
    if match st with inl e => os.IsNotExist e | inr _ => false end then (Ok tt, w1)
    else wrap ("failed to delete existing directory '" +:+ dirPath +:+ "'")
              (sys.RemoveAll dirPath) w1.

Definition mergeValues (groupValues fileValues : values) : gmap string value :=
  let merged : gmap string value := ∅ in
  let merged := foldl (fun m '(k, v) => <[k := v]> m) merged (rangeValues fileValues) in
  let merged := foldl (fun m '(k, v) => <[k := v]> m) merged (rangeValues groupValues) in
  merged.

Definition createTemplatedFile (path content : string) (vals : values) : M unit :=
  run wrap "creating file" (sys.Create path);
  match Parse content with
  | None => fail (Errorf_w "parsing template" ParseError)
  | Some tmpl =>
      let '(out, finished) := Execute tmpl vals in
      run sys.Write path out;
      if finished then ret tt else fail ExecError
  end.

Definition copyFile (src dst : string) : M unit :=
  do input <- wrap "reading source file for copy" (sys.ReadFile src);
  wrap "writing copied file" (sys.WriteFile dst input).

Definition copyContentToFile (content filePath : string) : M unit :=
  sys.WriteFile filePath content.

Definition downloadFileContent (fileURL : string) : M string :=
  fun w =>
    let w1 := logged (EvHttpGet fileURL) (root w) w in
    match httpGet fileURL with
    | NoResponse => (Err (Errorf_w "error making request" (TransportError fileURL)), w1)
    | Response code status body =>
        if bool_decide (code >= 400)%Z then (Err (BadStatus code status), w1)
        else match body with
             | None => (Err (Errorf_w "error reading response body" BodyReadError), w1)
             | Some b => (Ok b, w1)
             end
    end.

Definition outputDir (repoName : string) (file : FileStructure) (outputPath : string) : string :=
  filepath.Join [outputPath; repoName; filepath.Dir (Filename file)].

Definition fullPath (repoName : string) (file : FileStructure) (outputPath : string) : string :=
  filepath.Join [outputDir repoName file outputPath; filepath.Base (Filename file)].

Definition createFileFromTemplate (repoName : string) (file : FileStructure)
    (outputPath : string) : M unit :=
  let outputPath := outputDir repoName file outputPath in
  run wrap "creating directory" (sys.MkdirAll outputPath);
  let fullPath := filepath.Join [outputPath; filepath.Base (Filename file)] in
  if bool_decide (Content file ≠ "") then
    createTemplatedFile fullPath (Content file) (Values file)
  else if bool_decide (SourceURL file ≠ "") then
    do content <- wrap "downloading file from URL" (downloadFileContent (SourceURL file));
    orElse (createTemplatedFile fullPath content (Values file))
           (copyContentToFile content fullPath)
  else if bool_decide (SourceFile file ≠ "") then
    do content <- wrap "reading source file" (sys.ReadFile (SourceFile file));
    orElse (createTemplatedFile fullPath content (Values file))
           (copyFile (SourceFile file) fullPath)
  else ret tt.

Definition generateFilesFromTemplate (repoName : string) (t : Template.t)
    (outputPath : string) : M unit :=
  forEach (Template.Files t) (fun file =>
    wrap "error creating file from template" (createFileFromTemplate repoName file outputPath)).

(** The files of a group with the merged values attached to the copies. *)
Definition expandGroup (groupRef : TemplateGroupRef.t) (group : list FileStructure)
    : Template.t :=
  {| Template.Files :=
       (fun file => withValues (Some (mergeValues (TemplateGroupRef.Values groupRef)
                                                  (Values file))) file) <$> group |}.

(** The body of the loop of [processRepository] over [repo.Groups]. *)
Definition processGroup (repoName : string) (globalGroups : gmap string (list FileStructure))
    (outputPath : string) (groupRef : TemplateGroupRef.t) : M unit :=
  match globalGroups !! TemplateGroupRef.GroupName groupRef with
  | None => fail (Errorf ("template group " +:+ TemplateGroupRef.GroupName groupRef
                            +:+ " not found in configuration"))
  | Some group =>
      wrap ("error generating template for repo " +:+ repoName)
           (generateFilesFromTemplate repoName (expandGroup groupRef group) outputPath)
  end.

Definition processRepository (repo : Repository)
    (globalGroups : gmap string (list FileStructure)) (outputPath : string) : M unit :=
  let repoOutputPath := filepath.Join [outputPath; Name repo] in
  run wrap ("error clearing output directory for repo " +:+ Name repo)
           (deleteExistingDir repoOutputPath);
  run forEach (Files repo) (fun file =>
        wrap "error creating file from template"
             (createFileFromTemplate (Name repo) file outputPath));
  forEach (Groups repo) (processGroup (Name repo) globalGroups outputPath).

(** [processRepository] after the reset: the two loops. *)
Definition materialize (repo : Repository) (globalGroups : gmap string (list FileStructure))
    (outputPath : string) : M unit :=
  run forEach (Files repo) (fun file =>
        wrap "error creating file from template"
             (createFileFromTemplate (Name repo) file outputPath));
  forEach (Groups repo) (processGroup (Name repo) globalGroups outputPath).

(** The file specifications a run works through, in order: the direct
    files, then the files of every referenced group. *)
Definition planned (repo : Repository) (globalGroups : gmap string (list FileStructure))
    : list FileStructure :=
  Files repo ++
  (Groups repo ≫= fun groupRef =>
     default [] (globalGroups !! TemplateGroupRef.GroupName groupRef)).

(** Where they go in the file tree. *)
Definition targets (repoName outputPath : string) (files : list FileStructure)
    : list (list string) :=
  (fun file => os.resolve (fullPath repoName file outputPath)) <$> files.

(** [file] is a direct file of [repo] or a file of a group it refers to. *)
Definition fileOf (repo : Repository) (globalGroups : gmap string (list FileStructure))
    (file : FileStructure) : Prop :=
  file ∈ Files repo
  \/ exists groupRef group,
       groupRef ∈ Groups repo
       /\ globalGroups !! TemplateGroupRef.GroupName groupRef = Some group
       /\ file ∈ group.

Definition populated (file : FileStructure) : Prop :=
  Content file ≠ "" \/ SourceURL file ≠ "" \/ SourceFile file ≠ "".

(** *** The dispatch of [main] *)

(** The test of the loop of [main] that skips a repository. *)
Definition skipped (args : CLIArgs) (repoConfig : RepositoryConfig) : bool :=
  bool_decide (Repo args ≠ "") && bool_decide (Name repoConfig ≠ Repo args).

(** The repositories [main] starts a goroutine for, in the order of the
    loop. *)
Definition selected (args : CLIArgs) (config : Config) : list RepositoryConfig :=
  List.filter (fun repoConfig => negb (skipped args repoConfig)) (Repositories config).

(** The loop of [main] when max-parallel is 1: the semaphore has one slot,
    taken before a goroutine starts and released when it ends, so the
    repositories are processed one after the other.  An error is logged with
    the name of the repository and the loop goes on; the result is the list
    of what was logged. *)
Fixpoint dispatch (repos : list RepositoryConfig)
    (globalGroups : gmap string (list FileStructure)) (outputPath : string)
    : world -> list (string * error) * world :=
  match repos with
  | [] => fun w => ([], w)
  | rc :: rest =>
      fun w =>
        let '(r, w1) := processRepository rc globalGroups outputPath w in
        let '(logs, w2) := dispatch rest globalGroups outputPath w1 in
        (match r with Err e => (Name rc, e) :: logs | Ok _ => logs end, w2)
  end.

(** An error made by [fmt.Errorf] with [%w]. *)
Definition isWrapped (e : error) : Prop := exists msg cause, e = Errorf_w msg cause.

(** The system calls a call of [createFileFromTemplate] may make. *)
Definition ownCall (repoName : string) (file : FileStructure) (outputPath : string)
    (ev : event) : Prop :=
  ev = EvMkdirAll (outputDir repoName file outputPath)
  \/ ev = EvCreate (fullPath repoName file outputPath)
  \/ (exists data, ev = EvWrite (fullPath repoName file outputPath) data)
  \/ (exists data, ev = EvWriteFile (fullPath repoName file outputPath) data)
  \/ ev = EvReadFile (SourceFile file)
  \/ ev = EvHttpGet (SourceURL file).

(** What the response to a fetch makes of it: the body, when there is a
    response with a status below 400 and a body that can be read. *)
Definition fetched (r : http_response) (b : string) : Prop :=
  exists code status, r = Response code status (Some b) /\ (code < 400)%Z.

(** ** Facts about the file tree *)

Lemma file_at_cons s k n :
  os.file_at (s :: k) n =
    match n with
    | File _ => None
    | Dir es => match es !! s with Some ch => os.file_at k ch | None => None end
    end.
Proof. unfold os.file_at. simpl. destruct n as [|es]; [done|]. by destruct (es !! s). Qed.

Lemma file_at_no_entries k : os.file_at k (Dir ∅) = None.
Proof. destruct k; [done|]. by rewrite file_at_cons, lookup_empty. Qed.

Lemma walk_app p q n :
  os.walk (p ++ q) n = match os.walk p n with inr m => os.walk q m | inl e => inl e end.
Proof.
  revert n. induction p as [|s p IH]; intros n; simpl; [done|].
  destruct n as [|es]; [done|]. destruct (es !! s); [apply IH|done].
Qed.

Lemma file_at_below_missing p q n e : os.walk p n = inl e -> os.file_at (p ++ q) n = None.
Proof. intros H. unfold os.file_at. by rewrite walk_app, H. Qed.

Lemma rebuild_inr es s r n' :
  os.rebuild es s r = inr n' -> exists c, r = inr c /\ n' = Dir (<[s:=c]> es).
Proof. destruct r as [e|c]; simpl; [done|]. intros [= <-]. eauto. Qed.

Lemma remove_all_gone s r q n : os.file_at ((s :: r) ++ q) (os.remove_all s r n) = None.
Proof.
  revert s n. induction r as [|s' r' IH]; intros s n; destruct n as [c|es]; simpl;
    try (by rewrite file_at_cons);
    rewrite file_at_cons; destruct (es !! s) as [ch|] eqn:Hs; simpl;
    rewrite ?Hs, ?lookup_delete_eq, ?lookup_insert_eq; try done.
  apply IH.
Qed.

Lemma remove_all_absent s r n m :
  os.walk (s :: r) n = inr m -> os.walk (s :: r) (os.remove_all s r n) = inl ENOENT.
Proof.
  revert s n. induction r as [|s' r' IH]; intros s n; destruct n as [c|es]; simpl;
    try done; destruct (es !! s) as [ch|] eqn:Hs; simpl; try done.
  - intros _. by rewrite lookup_delete_eq.
  - intros Hw. rewrite lookup_insert_eq. by apply IH.
Qed.

Lemma remove_all_other s r n k :
  ¬ (s :: r) `prefix_of` k -> os.file_at k (os.remove_all s r n) = os.file_at k n.
Proof.
  revert s n k. induction r as [|s' r' IH]; intros s n k Hpre; destruct n as [c|es];
    simpl; try done; destruct (es !! s) as [ch|] eqn:Hs; simpl; try done;
    (destruct k as [|s0 k0]; [done|]); rewrite !file_at_cons;
    (destruct (decide (s = s0)) as [<-|Hne];
      [|by rewrite ?lookup_delete_ne, ?lookup_insert_ne by done]).
  - destruct Hpre. by exists k0.
  - rewrite lookup_insert_eq, Hs. apply IH. intros [q Hq]. apply Hpre. exists q.
    by rewrite Hq.
Qed.

Lemma remove_all_sub s r n k c :
  os.file_at k (os.remove_all s r n) = Some c -> os.file_at k n = Some c.
Proof.
  revert s n k. induction r as [|s' r' IH]; intros s n k; destruct n as [c0|es];
    simpl; try done; destruct (es !! s) as [ch|] eqn:Hs; simpl; try done;
    (destruct k as [|s0 k0]; [done|]); rewrite !file_at_cons;
    (destruct (decide (s = s0)) as [<-|Hne];
      [|by rewrite ?lookup_delete_ne, ?lookup_insert_ne by done]).
  - by rewrite lookup_delete_eq.
  - rewrite lookup_insert_eq, Hs. apply IH.
Qed.

Lemma clear_all_other p n k :
  ¬ p `prefix_of` k -> os.file_at k (os.clear_all p n) = os.file_at k n.
Proof.
  revert n k. induction p as [|s r IH]; intros n k Hpre.
  { destruct Hpre. by exists k. }
  destruct n as [c|es]; simpl; [done|]. destruct (es !! s) as [ch|] eqn:Hs; [|done].
  destruct k as [|s0 k0]; [done|]. rewrite !file_at_cons.
  destruct (decide (s = s0)) as [<-|Hne]; [|by rewrite lookup_insert_ne].
  rewrite lookup_insert_eq, Hs. apply IH. intros [q Hq]. apply Hpre. exists q.
  by rewrite Hq.
Qed.

Lemma clear_all_sub p n k c :
  os.file_at k (os.clear_all p n) = Some c -> os.file_at k n = Some c.
Proof.
  revert n k. induction p as [|s r IH]; intros n k; destruct n as [c0|es]; simpl;
    try done.
  - by rewrite file_at_no_entries.
  - destruct (es !! s) as [ch|] eqn:Hs; [|done].
    destruct k as [|s0 k0]; [done|]. rewrite !file_at_cons.
    destruct (decide (s = s0)) as [<-|Hne]; [|by rewrite lookup_insert_ne].
    rewrite lookup_insert_eq, Hs. apply IH.
Qed.

(** *** What [RemoveAll] does to the tree *)

Lemma walk_error p n e : os.walk p n = inl e -> e = ENOENT \/ e = ENOTDIR.
Proof.
  revert n. induction p as [|s r IH]; intros n; simpl; [done|].
  destruct n as [c|es]; [intros [= <-]; by right|].
  destruct (es !! s); [apply IH|intros [= <-]; by left].
Qed.

Lemma clear_all_gone p q n es :
  os.walk p n = inr (Dir es) -> os.file_at (p ++ q) (os.clear_all p n) = None.
Proof.
  revert n. induction p as [|s r IH]; intros n; simpl.
  - intros [= ->]. apply file_at_no_entries.
  - destruct n as [c|es0]; [done|]. destruct (es0 !! s) as [ch|] eqn:Hs; [|done].
    intros Hw. rewrite file_at_cons, lookup_insert_eq. by apply IH.
Qed.

(** Whatever it returns, [RemoveAll] changes nothing outside the path. *)
Lemma RemoveAll_other p n k :
  ¬ os.resolve p `prefix_of` k ->
  os.file_at k (os.RemoveAll p n).2 = os.file_at k n.
Proof.
  intros Hk. unfold os.RemoveAll. case_bool_decide; [done|].
  destruct (os.endsWithDot p); [done|]. destruct (os.splitPath p) as [parentDir base].
  destruct (os.walk (os.resolve p) n) as [e|m].
  { destruct (os.IsNotExist e); [done|]. by destruct (os.walk (os.resolve parentDir) n). }
  revert Hk.
  destruct (os.rmdir_refusal base), (os.resolve p) as [|s r], m; cbn [snd]; intros Hk;
    first [ done | by apply clear_all_other | by apply remove_all_other ].
Qed.

(** Whatever it returns, [RemoveAll] creates and changes no regular file. *)
Lemma RemoveAll_sub p n k c :
  os.file_at k (os.RemoveAll p n).2 = Some c -> os.file_at k n = Some c.
Proof.
  unfold os.RemoveAll. case_bool_decide; [done|].
  destruct (os.endsWithDot p); [done|]. destruct (os.splitPath p) as [parentDir base].
  destruct (os.walk (os.resolve p) n) as [e|m].
  { destruct (os.IsNotExist e); [done|]. by destruct (os.walk (os.resolve parentDir) n). }
  destruct (os.rmdir_refusal base), (os.resolve p) as [|s r], m; cbn [snd];
    first [ done | apply clear_all_sub | apply remove_all_sub ].
Qed.

(** When [RemoveAll] succeeds on a path, nothing is left at or below it. *)
Lemma RemoveAll_Ok_inv p n r :
  os.RemoveAll p n = (None, r) -> p ≠ "" ->
  os.Stat p r = inl ENOENT /\ forall q, os.file_at (os.resolve p ++ q) r = None.
Proof.
  intros Hrm Hp. unfold os.Stat, os.at_path. rewrite bool_decide_eq_false_2 by done.
  revert Hrm. unfold os.RemoveAll. rewrite bool_decide_eq_false_2 by done.
  destruct (os.endsWithDot p); [done|]. destruct (os.splitPath p) as [parentDir base].
  destruct (os.walk (os.resolve p) n) as [e|m] eqn:Hwalk.
  - unfold os.IsNotExist. case_bool_decide as He.
    + intros [= <-]. subst e. split; [done|]. intros q. by eapply file_at_below_missing.
    + by destruct (os.walk (os.resolve parentDir) n).
  - destruct (os.rmdir_refusal base), (os.resolve p) as [|s k], m; try done;
      intros [= <-]; (split; [by eapply remove_all_absent|]); intros q;
      apply remove_all_gone.
Qed.

(** When [RemoveAll] fails, either nothing was removed - the path ends in a
    dot, or a regular file is on the way or at the path - or the directory
    at the path is one that cannot be removed and has been emptied. *)
Lemma RemoveAll_Err_inv p n op path en r :
  os.RemoveAll p n = (Some (op, path, en), r) ->
  (r = n
   /\ (os.endsWithDot p = true /\ op = "RemoveAll" /\ path = p /\ en = EINVAL
       \/ os.Stat p n = inl ENOTDIR
       \/ exists c, os.Stat p n = inr (File c)))
  \/ (exists es, os.Stat p n = inr (Dir es) /\ op = "unlinkat"
                 /\ r = os.clear_all (os.resolve p) n
                 /\ forall q, os.file_at (os.resolve p ++ q) r = None).
Proof.
  unfold os.RemoveAll, os.Stat, os.at_path. case_bool_decide as Hp; [done|].
  destruct (os.endsWithDot p).
  { intros [= <- <- <- <-]. left. split; [done|]. by left. }
  destruct (os.splitPath p) as [parentDir base].
  destruct (os.walk (os.resolve p) n) as [e|m] eqn:Hwalk.
  - unfold os.IsNotExist. case_bool_decide as He; [done|].
    assert (e = ENOTDIR) as -> by (by destruct (walk_error _ _ _ Hwalk)).
    destruct (os.walk (os.resolve parentDir) n); intros [= <- <- <- <-];
      left; (split; [done|]); right; by left.
  - destruct m as [c|es].
    + destruct (os.rmdir_refusal base), (os.resolve p) as [|s k]; try done;
        intros [= <- <- <- <-]; left; (split; [done|]); right; right; by exists c.
    + destruct (os.rmdir_refusal base) as [en'|], (os.resolve p) as [|s k] eqn:Hk;
        try done; intros Heq;
        pose proof (f_equal fst Heq) as Hfst; pose proof (f_equal snd Heq) as Hsnd;
        cbn [fst snd] in Hfst, Hsnd; subst r; injection Hfst as <- <- <-;
        right; exists es;
        (split; [done|]); (split; [done|]); (split; [done|]); intros q;
        by eapply clear_all_gone.
Qed.

Lemma mkdir_all_files p n n' k :
  os.mkdir_all p n = inr n' -> os.file_at k n' = os.file_at k n.
Proof.
  revert n n' k. induction p as [|s r IH]; intros n n' k; simpl.
  - destruct n; [done|]. by intros [= <-].
  - destruct n as [|es]; [done|].
    intros (c & Hc & ->)%rebuild_inr.
    destruct k as [|s' k']; [done|].
    rewrite !file_at_cons. destruct (decide (s = s')) as [<-|Hne].
    + rewrite lookup_insert_eq, (IH _ _ k' Hc).
      destruct (es !! s); simpl; [done|apply file_at_no_entries].
    + by rewrite lookup_insert_ne.
Qed.

Lemma put_file_read p c n n' :
  os.put_file p c n = inr n' -> os.file_at p n' = Some c.
Proof.
  revert n n'. induction p as [|s r IH]; intros n n'; simpl.
  - destruct n; [|done]. by intros [= <-].
  - destruct n as [|es]; [done|].
    destruct (es !! s) as [ch|] eqn:Hs.
    + intros (c' & Hc & ->)%rebuild_inr.
      rewrite file_at_cons, lookup_insert_eq. by apply (IH ch).
    + destruct r; [|done]. intros [= <-].
      by rewrite file_at_cons, lookup_insert_eq.
Qed.

Lemma put_file_other p c n n' k :
  os.put_file p c n = inr n' -> k ≠ p -> os.file_at k n' = os.file_at k n.
Proof.
  revert n n' k. induction p as [|s r IH]; intros n n' k; simpl.
  - destruct n; [|done]. intros [= <-] Hk.
    destruct k; [done|]. by rewrite !file_at_cons.
  - destruct n as [|es]; [done|].
    destruct (es !! s) as [ch|] eqn:Hs.
    + intros (c' & Hc & ->)%rebuild_inr Hk.
      destruct k as [|s' k']; [done|].
      rewrite !file_at_cons. destruct (decide (s = s')) as [<-|Hne].
      * rewrite lookup_insert_eq, Hs. apply (IH ch); [done|]. congruence.
      * by rewrite lookup_insert_ne.
    + destruct r; [|done]. intros [= <-] Hk.
      destruct k as [|s' k']; [done|].
      rewrite !file_at_cons. destruct (decide (s = s')) as [<-|Hne].
      * rewrite lookup_insert_eq, Hs.
        destruct k'; [congruence|]. by rewrite file_at_cons.
      * by rewrite lookup_insert_ne.
Qed.

(** Writing again where a file was just written cannot fail. *)
Lemma put_file_again p c c' n n' :
  os.put_file p c n = inr n' -> exists n'', os.put_file p c' n' = inr n''.
Proof.
  revert n n'. induction p as [|s r IH]; intros n n'; simpl.
  - destruct n; [|done]. intros [= <-]. eauto.
  - destruct n as [|es]; [done|].
    destruct (es !! s) as [ch|] eqn:Hs.
    + intros (c0 & Hc & ->)%rebuild_inr. rewrite lookup_insert_eq.
      destruct (IH _ _ Hc) as [n'' ->]. simpl. eauto.
    + destruct r; [|done]. intros [= <-]. rewrite lookup_insert_eq. simpl. eauto.
Qed.

Lemma ReadFile_file_at p n c :
  os.ReadFile p n = inr c <-> p ≠ "" /\ os.file_at (os.resolve p) n = Some c.
Proof.
  unfold os.ReadFile, os.at_path, os.file_at. case_bool_decide as Hp.
  - split; [done|]. by intros [? _].
  - destruct (os.walk (os.resolve p) n) as [e|[c'|es]]; split;
      try done; try (by intros [_ ?]); try (by intros [= ->]).
    intros [_ [= ->]]. done.
Qed.

Lemma WriteFile_put p c n n' :
  os.WriteFile p c n = inr n' <-> p ≠ "" /\ os.put_file (os.resolve p) c n = inr n'.
Proof.
  unfold os.WriteFile, os.at_path. case_bool_decide as Hp; split; try done.
  - by intros [? _].
  - by intros [_ ?].
Qed.

Lemma MkdirAll_files p n n' k : os.MkdirAll p n = inr n' -> os.file_at k n' = os.file_at k n.
Proof.
  unfold os.MkdirAll, os.at_path. case_bool_decide; [done|]. apply mkdir_all_files.
Qed.

(** ** Facts about the combinators *)

Section Preserves.
Context (R : world -> world -> Prop) `{!PreOrder R}.

Lemma preserves_ret {A} (a : A) : preserves R (ret a).
Proof. intros w. simpl. reflexivity. Qed.

Lemma preserves_fail {A} e : preserves R (@fail A e).
Proof. intros w. simpl. reflexivity. Qed.

Lemma preserves_lift {A} o (a : A) : preserves R (lift o a).
Proof. destruct o; [apply preserves_fail|apply preserves_ret]. Qed.

Lemma preserves_bind {A B} (m : M A) (k : A -> M B) :
  preserves R m -> (forall a, preserves R (k a)) -> preserves R (bind m k).
Proof.
  intros Hm Hk w. unfold bind. specialize (Hm w).
  destruct (m w) as [[a|e] w1]; simpl in *; [|done].
  etrans; [exact Hm|apply Hk].
Qed.

Lemma preserves_wrap {A} msg (m : M A) : preserves R m -> preserves R (wrap msg m).
Proof.
  intros Hm w. unfold wrap. specialize (Hm w). by destruct (m w) as [[a|e] w1].
Qed.

Lemma preserves_orElse {A} (m h : M A) :
  preserves R m -> preserves R h -> preserves R (orElse m h).
Proof.
  intros Hm Hh w. unfold orElse. specialize (Hm w).
  destruct (m w) as [[a|e] w1]; simpl in *; [done|].
  etrans; [exact Hm|apply Hh].
Qed.

Lemma preserves_forEach {A} (l : list A) (body : A -> M unit) :
  (forall x, x ∈ l -> preserves R (body x)) -> preserves R (forEach l body).
Proof.
  induction l as [|x l IH]; intros Hb; simpl; [apply preserves_ret|].
  apply preserves_bind; [apply Hb; left|].
  intros _. apply IH. intros y Hy. apply Hb. by right.
Qed.

Lemma preserves_createTemplatedFile path content vals :
  preserves R (sys.Create path) -> (forall o, preserves R (sys.Write path o)) ->
  preserves R (createTemplatedFile path content vals).
Proof.
  intros Hc Hw. unfold createTemplatedFile.
  apply preserves_bind; [by apply preserves_wrap|]. intros _.
  destruct (Parse content) as [t|]; [|apply preserves_fail].
  destruct (Execute t vals) as [o fin].
  apply preserves_bind; [apply Hw|]. intros _.
  destruct fin; [apply preserves_ret|apply preserves_fail].
Qed.

Lemma preserves_createFileFromTemplate repoName file outputPath :
  preserves R (sys.MkdirAll (outputDir repoName file outputPath)) ->
  preserves R (sys.Create (fullPath repoName file outputPath)) ->
  (forall o, preserves R (sys.Write (fullPath repoName file outputPath) o)) ->
  (forall c, preserves R (sys.WriteFile (fullPath repoName file outputPath) c)) ->
  preserves R (sys.ReadFile (SourceFile file)) ->
  preserves R (downloadFileContent (SourceURL file)) ->
  preserves R (createFileFromTemplate repoName file outputPath).
Proof.
  intros Hmk Hcr Hwr Hwf Hrd Hdl. unfold createFileFromTemplate.
  fold (fullPath repoName file outputPath).
  apply preserves_bind; [by apply preserves_wrap|]. intros _.
  repeat case_bool_decide.
  - by apply preserves_createTemplatedFile.
  - apply preserves_bind; [by apply preserves_wrap|]. intros c.
    apply preserves_orElse; [by apply preserves_createTemplatedFile|apply Hwf].
  - apply preserves_bind; [by apply preserves_wrap|]. intros c.
    apply preserves_orElse; [by apply preserves_createTemplatedFile|].
    unfold copyFile. apply preserves_bind; [by apply preserves_wrap|].
    intros c'. by apply preserves_wrap.
  - apply preserves_ret.
Qed.

End Preserves.

(** ** Facts about the system calls *)

#[local] Instance same_file_at_preorder k : PreOrder (same_file_at k).
Proof.
  split; [by intros w|]. unfold same_file_at. intros w1 w2 w3 H1 H2. by rewrite H2.
Qed.

#[local] Instance keeps_file_at_preorder k : PreOrder (keeps_file_at k).
Proof. split; [by intros w ?|]. unfold keeps_file_at. intros w1 w2 w3 H1 H2. auto. Qed.

#[local] Instance only_calls_preorder P : PreOrder (only_calls P).
Proof.
  split.
  - intros w. exists []. by rewrite app_nil_r.
  - intros w1 w2 w3 (e1 & H1 & F1) (e2 & H2 & F2). exists (e1 ++ e2).
    rewrite H2, H1, app_assoc. split; [done|]. by apply Forall_app.
Qed.

Lemma update_world op p ev f w :
  (sys.checked op p (sys.update ev f) w).2
  = logged ev (match f (root w) with inr r => r | inl _ => root w end) w.
Proof. unfold sys.checked, sys.update. by destruct (f (root w)). Qed.

Lemma update_Ok op p ev f w w' :
  sys.checked op p (sys.update ev f) w = (Ok tt, w') ->
  exists r, f (root w) = inr r /\ w' = logged ev r w.
Proof.
  unfold sys.checked, sys.update. destruct (f (root w)) as [e|r]; [done|].
  intros [= <-]. eauto.
Qed.

Lemma query_world {A} op p ev (f : node -> errno + A) w :
  (sys.checked op p (sys.query ev f) w).2 = logged ev (root w) w.
Proof. unfold sys.checked, sys.query. by destruct (f (root w)). Qed.

Lemma download_world url w :
  (downloadFileContent url w).2 = logged (EvHttpGet url) (root w) w.
Proof.
  unfold downloadFileContent. destruct (httpGet url) as [|code st [b|]]; [done|..];
    by case_bool_decide.
Qed.

Lemma same_file_update k op p ev f :
  (forall n n', f n = inr n' -> os.file_at k n' = os.file_at k n) ->
  preserves (same_file_at k) (sys.checked op p (sys.update ev f)).
Proof.
  intros Hf w. rewrite update_world. unfold same_file_at. simpl.
  destruct (f (root w)) eqn:H; [done|]. by apply Hf.
Qed.

Lemma WriteFile_other k p c n n' :
  k ≠ os.resolve p -> os.WriteFile p c n = inr n' -> os.file_at k n' = os.file_at k n.
Proof. intros Hk [_ H]%WriteFile_put. by eapply put_file_other. Qed.

Lemma same_file_MkdirAll k p : preserves (same_file_at k) (sys.MkdirAll p).
Proof. apply same_file_update. intros n n'. apply MkdirAll_files. Qed.

Lemma same_file_WriteFile k p c :
  k ≠ os.resolve p -> preserves (same_file_at k) (sys.WriteFile p c).
Proof. intros Hk. apply same_file_update. intros n n'. by apply WriteFile_other. Qed.

Lemma same_file_Create k p : k ≠ os.resolve p -> preserves (same_file_at k) (sys.Create p).
Proof. intros Hk. apply same_file_update. intros n n'. by apply WriteFile_other. Qed.

Lemma same_file_Write k p o : k ≠ os.resolve p -> preserves (same_file_at k) (sys.Write p o).
Proof.
  intros Hk w. unfold sys.Write, same_file_at. simpl.
  destruct (os.WriteFile p o (root w)) eqn:H; [done|]. by eapply WriteFile_other.
Qed.

Lemma same_file_ReadFile k p : preserves (same_file_at k) (sys.ReadFile p).
Proof. intros w. unfold sys.ReadFile. by rewrite query_world. Qed.

Lemma same_file_download k url : preserves (same_file_at k) (downloadFileContent url).
Proof. intros w. by rewrite download_world. Qed.

Lemma keeps_file_put k p c n n' :
  os.WriteFile p c n = inr n' -> is_Some (os.file_at k n) -> is_Some (os.file_at k n').
Proof.
  intros [_ H]%WriteFile_put Hk. destruct (decide (k = os.resolve p)) as [->|Hne].
  - rewrite (put_file_read _ _ _ _ H). eauto.
  - by rewrite (put_file_other _ _ _ _ _ H Hne).
Qed.

Lemma keeps_file_update k op p ev f :
  (forall n n', f n = inr n' -> is_Some (os.file_at k n) -> is_Some (os.file_at k n')) ->
  preserves (keeps_file_at k) (sys.checked op p (sys.update ev f)).
Proof.
  intros Hf w. rewrite update_world. unfold keeps_file_at. simpl.
  destruct (f (root w)) eqn:H; [done|]. by apply Hf.
Qed.

Lemma keeps_file_WriteFile k p c : preserves (keeps_file_at k) (sys.WriteFile p c).
Proof. apply keeps_file_update. intros n n'. apply keeps_file_put. Qed.

Lemma keeps_file_Create k p : preserves (keeps_file_at k) (sys.Create p).
Proof. apply keeps_file_update. intros n n'. apply keeps_file_put. Qed.

Lemma keeps_file_Write k p o : preserves (keeps_file_at k) (sys.Write p o).
Proof.
  intros w. unfold sys.Write, keeps_file_at. simpl.
  destruct (os.WriteFile p o (root w)) eqn:H; [done|]. by eapply keeps_file_put.
Qed.

Lemma same_keeps k {A} (m : M A) : preserves (same_file_at k) m -> preserves (keeps_file_at k) m.
Proof. intros H w. unfold keeps_file_at. by rewrite (H w). Qed.

(** A call of [createFileFromTemplate] changes no regular file other than
    its destination, and removes none. *)
Lemma createFile_frame repoName file outputPath k :
  k ≠ os.resolve (fullPath repoName file outputPath) ->
  preserves (same_file_at k) (createFileFromTemplate repoName file outputPath).
Proof.
  intros Hk. apply preserves_createFileFromTemplate; try apply _; intros;
    auto using same_file_MkdirAll, same_file_Create, same_file_Write, same_file_WriteFile,
               same_file_ReadFile, same_file_download.
Qed.

Lemma createFile_keeps repoName file outputPath k :
  preserves (keeps_file_at k) (createFileFromTemplate repoName file outputPath).
Proof.
  apply preserves_createFileFromTemplate; try apply _; intros;
    auto using keeps_file_Write, keeps_file_WriteFile, keeps_file_Create, same_keeps,
               same_file_MkdirAll, same_file_ReadFile, same_file_download.
Qed.

(** ** The value merger *)

Lemma range_NoDup {V} (m : gmap string V) : NoDup (range m).*1.
Proof. rewrite (range_perm V m). apply NoDup_fst_map_to_list. Qed.

Lemma range_list_to_map {V} (m : gmap string V) : list_to_map (range m) = m.
Proof.
  rewrite <- (list_to_map_to_list m) at 2.
  apply list_to_map_proper; [apply range_NoDup|apply range_perm].
Qed.

Lemma range_elem_of {V} (m : gmap string V) k v : (k, v) ∈ range m <-> m !! k = Some v.
Proof. rewrite (range_perm V m). apply elem_of_map_to_list. Qed.

Lemma foldl_insert_union {V} (l : list (string * V)) (m0 : gmap string V) :
  NoDup l.*1 ->
  foldl (fun m '(k, v) => <[k := v]> m) m0 l = list_to_map l ∪ m0.
Proof.
  revert m0. induction l as [|[k v] l IH]; intros m0 Hnd; simpl.
  - by rewrite (left_id_L ∅ (∪)).
  - rewrite fmap_cons in Hnd. apply NoDup_cons in Hnd as [Hk Hnd]. rewrite IH by done.
    rewrite <- insert_union_l. simpl in Hk. symmetry. apply insert_union_r.
    by apply not_elem_of_list_to_map_1.
Qed.

Lemma mergeValues_union g f : mergeValues g f = default ∅ g ∪ default ∅ f.
Proof.
  unfold mergeValues.
  assert (forall (v : values) m0,
            foldl (fun m '(k, x) => <[k := x]> m) m0 (rangeValues v) = default ∅ v ∪ m0) as Hfold.
  { intros [m|] m0; simpl; [|by rewrite (left_id_L ∅ (∪))].
    rewrite foldl_insert_union by apply range_NoDup. by rewrite range_list_to_map. }
  rewrite !Hfold. by rewrite (right_id_L ∅ (∪)).
Qed.

(** C2. The merged map gives every key of the group values its group-level
    value and every other key what the file values give it (so it has no
    key of its own); a nil map counts as the empty map; the example of the
    specification. *)
Theorem mergeValues_precedence :
  (forall g f k v, lookupValues g k = Some v -> mergeValues g f !! k = Some v)
  /\ (forall g f k, lookupValues g k = None -> mergeValues g f !! k = lookupValues f k)
  /\ (forall f, mergeValues None f = mergeValues (Some ∅) f)
  /\ (forall g, mergeValues g None = mergeValues g (Some ∅))
  /\ mergeValues (Some {[ "a" := VInt 1; "b" := VInt 2 ]})
                 (Some {[ "b" := VInt 3; "c" := VInt 4 ]})
     = {[ "a" := VInt 1; "b" := VInt 2; "c" := VInt 4 ]}.
Proof.
  assert (forall (v : values) k, default ∅ v !! k = lookupValues v k) as Hlk.
  { intros [m|] k; [done|apply lookup_empty]. }
  repeat split.
  - intros g f k v Hg. rewrite mergeValues_union.
    apply lookup_union_Some_l. by rewrite Hlk.
  - intros g f k Hg. rewrite mergeValues_union, lookup_union_r; by rewrite Hlk.
  - intros f. by rewrite !mergeValues_union.
  - intros g. by rewrite !mergeValues_union.
  - rewrite mergeValues_union. vm_compute. reflexivity.
Qed.

(** ** Loops *)

Lemma forEach_Err_inv {A} (l : list A) (body : A -> M unit) w e w' :
  forEach l body w = (Err e, w') -> exists x w1, x ∈ l /\ body x w1 = (Err e, w').
Proof.
  revert w. induction l as [|x l IH]; intros w; simpl; [done|].
  unfold bind. destruct (body x w) as [[[]|e0] w1] eqn:Hx.
  - intros (y & w2 & Hy & Hb)%IH. exists y, w2. split; [by right|done].
  - intros [= <- <-]. exists x, w. split; [left|done].
Qed.

Lemma forEach_fails {A} (l : list A) (body : A -> M unit) x w :
  x ∈ l -> (forall w1, exists e w2, body x w1 = (Err e, w2)) ->
  exists e w', forEach l body w = (Err e, w').
Proof.
  intros Hx Hfail. revert w. induction l as [|y l IH]; intros w; [by apply elem_of_nil in Hx|].
  simpl. unfold bind. apply elem_of_cons in Hx as [<-|Hx].
  - destruct (Hfail w) as (e & w2 & ->). by exists e, w2.
  - destruct (body y w) as [[[]|e0] w1]; [by apply IH|by exists e0, w1].
Qed.

Lemma forEach_app_fail {A} (pre post : list A) x (body : A -> M unit) w w1 w2 e :
  forEach pre body w = (Ok tt, w1) -> body x w1 = (Err e, w2) ->
  forEach (pre ++ x :: post) body w = (Err e, w2).
Proof.
  revert w. induction pre as [|y pre IH]; intros w; simpl; unfold bind.
  - intros [= <-] ->. done.
  - destruct (body y w) as [[[]|e0] w0]; [|done]. apply IH.
Qed.

Lemma forEach_Ok_elem {A} R `{!PreOrder R} (l : list A) (body : A -> M unit) x w w' :
  (forall y, preserves R (body y)) -> forEach l body w = (Ok tt, w') -> x ∈ l ->
  exists w1 w2, body x w1 = (Ok tt, w2) /\ R w2 w'.
Proof.
  intros Hb Hok Hx. revert w Hok.
  induction l as [|y l IH]; intros w; [by apply elem_of_nil in Hx|].
  simpl. unfold bind. apply elem_of_cons in Hx as [<-|Hx].
  - destruct (body x w) as [[[]|e0] w1] eqn:Hbx; [|done]. intros Hl.
    exists w, w1. split; [done|].
    assert (preserves R (forEach l body)) as Hp by (by apply preserves_forEach).
    specialize (Hp w1). by rewrite Hl in Hp.
  - destruct (body y w) as [[[]|e0] w1]; [|done]. by apply IH.
Qed.

(** ** Loading the configuration *)

Lemma joinSourceFiles_lookup templatesDir (group : list FileStructure) (n j : nat) :
  (n ≤ length group)%nat ->
  foldl (fun (g : list FileStructure) (i : nat) =>
           match g !! i with
           | Some file =>
               if bool_decide (SourceFile file ≠ "") then
                 alter (withSourceFile (filepath.Join [templatesDir; SourceFile file])) i g
               else g
           | None => g
           end) group (seq 0 n) !! j
  = if decide (j < n)%nat then joinedFile templatesDir <$> group !! j else group !! j.
Proof.
  revert j. induction n as [|n IH]; intros j Hn; [done|].
  rewrite seq_S, foldl_app. simpl.
  set (g := foldl _ group (seq 0 n)) in *.
  assert (g !! n = group !! n) as Hgn.
  { rewrite IH by lia. case_decide; [lia|done]. }
  destruct (lookup_lt_is_Some_2 group n) as [file Hfile]; [lia|].
  rewrite Hgn, Hfile. unfold joinedFile at 1.
  destruct (decide (j = n)) as [->|Hne].
  - rewrite decide_True by lia. rewrite Hfile. simpl. unfold joinedFile.
    case_bool_decide; [|by rewrite Hgn].
    by rewrite list_lookup_alter_eq, Hgn, Hfile.
  - assert ((if bool_decide (SourceFile file ≠ "")
             then alter (withSourceFile (filepath.Join [templatesDir; SourceFile file])) n g
             else g) !! j = g !! j) as ->.
    { case_bool_decide; [|done]. by rewrite list_lookup_alter_ne. }
    rewrite IH by lia. repeat case_decide; try done; lia.
Qed.

Lemma joinSourceFiles_fmap templatesDir group :
  joinSourceFiles templatesDir group = joinedFile templatesDir <$> group.
Proof.
  apply list_eq. intros j. unfold joinSourceFiles.
  rewrite joinSourceFiles_lookup by done. rewrite list_lookup_fmap.
  case_decide as Hj; [done|]. rewrite lookup_ge_None_2 by lia. done.
Qed.

Lemma foldl_insert_fmap {V W} (F : V -> W) (l : list (string * V)) (m0 : gmap string W) :
  NoDup l.*1 ->
  foldl (fun m '(k, v) => <[k := F v]> m) m0 l = (F <$> list_to_map l) ∪ m0.
Proof.
  revert m0. induction l as [|[k v] l IH]; intros m0 Hnd; simpl.
  - by rewrite fmap_empty, (left_id_L ∅ (∪)).
  - rewrite fmap_cons in Hnd. apply NoDup_cons in Hnd as [Hk Hnd]. rewrite IH by done.
    rewrite fmap_insert, <- insert_union_l. simpl in Hk. symmetry. apply insert_union_r.
    rewrite lookup_fmap. by rewrite (not_elem_of_list_to_map_1 _ _ Hk).
Qed.

Lemma joinTemplateGroups_fmap templatesDir groups :
  joinTemplateGroups templatesDir groups = joinedGroup templatesDir <$> groups.
Proof.
  unfold joinTemplateGroups.
  rewrite (foldl_insert_fmap (joinSourceFiles templatesDir)) by apply range_NoDup.
  rewrite range_list_to_map. apply map_eq. intros k.
  rewrite lookup_union, !lookup_fmap.
  destruct (groups !! k) as [g|]; simpl; [|done]. by rewrite joinSourceFiles_fmap.
Qed.

#[local] Instance same_root_preorder : PreOrder same_root.
Proof. split; [by intros w|]. unfold same_root. intros w1 w2 w3 H1 H2. by rewrite H2. Qed.

Lemma only_calls_update P op p ev f :
  P ev -> preserves (only_calls P) (sys.checked op p (sys.update ev f)).
Proof. intros HP w. rewrite update_world. exists [ev]. split; [done|]. by apply Forall_singleton. Qed.

Lemma only_calls_query {A} P op p ev (f : node -> errno + A) :
  P ev -> preserves (only_calls P) (sys.checked op p (sys.query ev f)).
Proof. intros HP w. rewrite query_world. exists [ev]. split; [done|]. by apply Forall_singleton. Qed.

Lemma only_calls_Write P p o : P (EvWrite p o) -> preserves (only_calls P) (sys.Write p o).
Proof. intros HP w. exists [EvWrite p o]. split; [done|]. by apply Forall_singleton. Qed.

Lemma only_calls_download P url :
  P (EvHttpGet url) -> preserves (only_calls P) (downloadFileContent url).
Proof.
  intros HP w. rewrite download_world. exists [EvHttpGet url].
  split; [done|]. by apply Forall_singleton.
Qed.

(** ** Validation *)

Lemma fails_bind_l {A B} (m : M A) (k : A -> M B) : fails m -> fails (bind m k).
Proof. intros Hm w. unfold bind. destruct (Hm w) as (e & w' & ->). eauto. Qed.

Lemma fails_bind_r {A B} (m : M A) (k : A -> M B) : (forall a, fails (k a)) -> fails (bind m k).
Proof. intros Hk w. unfold bind. destruct (m w) as [[a|e] w1]; [apply Hk|eauto]. Qed.

Lemma fails_forEach {A} (l : list A) (body : A -> M unit) x :
  x ∈ l -> fails (body x) -> fails (forEach l body).
Proof. intros Hx Hb w. by eapply forEach_fails. Qed.

#[local] Instance same_world_preorder : PreOrder same_world.
Proof. split; [by intros w|]. unfold same_world. intros w1 w2 w3 H1 H2. by rewrite H2. Qed.

Lemma same_world_root {A} (m : M A) : preserves same_world m -> preserves same_root m.
Proof. intros H w. unfold same_root. by rewrite (H w). Qed.

Lemma duplicateName_Some what seen names e :
  duplicateName what seen names = Some e -> exists n, e = Errorf (what +:+ n).
Proof.
  revert seen. induction names as [|n names IH]; intros seen; simpl; [done|].
  destruct (seen !! n); [|apply IH]. intros [= <-]. eauto.
Qed.

Lemma duplicateName_NoDup what seen names :
  NoDup names -> (forall n, n ∈ names -> seen !! n = None) ->
  duplicateName what seen names = None.
Proof.
  intros Hnd. revert seen. induction Hnd as [|n names Hn Hnd IH]; intros seen Hseen; simpl; [done|].
  rewrite Hseen by left. apply IH. intros n' Hn'.
  rewrite lookup_insert_ne; [apply Hseen; by right|]. by intros ->.
Qed.

Lemma validateDuplicateTemplateGroups_None groups :
  validateDuplicateTemplateGroups groups = None.
Proof.
  unfold validateDuplicateTemplateGroups.
  apply duplicateName_NoDup; [apply range_NoDup|]. intros n _. apply lookup_empty.
Qed.

Lemma checkFileStructure_Err file w e w' :
  checkFileStructure file w = (Err e, w') -> ConflictingSource e \/ MissingSourceFile e.
Proof.
  unfold checkFileStructure.
  destruct (bool_decide (SourceFile file ≠ "")); simpl; [|done].
  destruct (bool_decide (Content file ≠ "")); simpl.
  - intros [= <- _]. left. by eexists.
  - unfold sys.Stat, sys.query. destruct (os.Stat _ _) as [en|]; [|done].
    destruct (os.IsNotExist en); [|done]. intros [= <- _]. right. by eexists.
Qed.

Lemma checkFileStructure_root file : preserves same_root (checkFileStructure file).
Proof.
  intros w. unfold checkFileStructure.
  destruct (bool_decide (SourceFile file ≠ "")); simpl; [|done].
  destruct (bool_decide (Content file ≠ "")); simpl; [done|].
  unfold sys.Stat, sys.query. destruct (os.Stat _ _) as [en|]; [|done].
  by destruct (os.IsNotExist en).
Qed.

Lemma checkURLScheme_world file : preserves same_world (checkURLScheme file).
Proof.
  intros w. unfold checkURLScheme. case_bool_decide; [|done].
  by destruct (ParseRequestURI (SourceURL file)).
Qed.

Lemma validateURLSchemes_world groups : preserves same_world (validateURLSchemes groups).
Proof.
  apply preserves_forEach; [apply _|]. intros [n files] _.
  apply preserves_forEach; [apply _|]. intros file _. apply checkURLScheme_world.
Qed.

Lemma validateFileStructures_root groups : preserves same_root (validateFileStructures groups).
Proof.
  apply preserves_forEach; [apply _|]. intros [n files] _.
  apply preserves_forEach; [apply _|]. intros file _. apply checkFileStructure_root.
Qed.

Lemma validateRepoGroupReferences_world repos groups :
  preserves same_world (validateRepoGroupReferences repos groups).
Proof.
  apply preserves_forEach; [apply _|]. intros repo _.
  apply preserves_forEach; [apply _|]. intros ref _.
  destruct (_ !! _); [apply preserves_ret|apply preserves_fail]; apply _.
Qed.

Lemma validateConfig_root config : preserves same_root (validateConfig config).
Proof.
  unfold validateConfig.
  apply preserves_bind; [apply _|apply preserves_lift, _|]. intros _.
  apply preserves_bind; [apply _|apply preserves_lift, _|]. intros _.
  apply preserves_bind; [apply _|apply validateFileStructures_root|]. intros _.
  apply preserves_bind; [apply _| |]; [|intros _].
  - apply same_world_root, validateRepoGroupReferences_world.
  - apply same_world_root, validateURLSchemes_world.
Qed.

Lemma validateFileStructures_Err groups w e w' :
  validateFileStructures groups w = (Err e, w') -> ConflictingSource e \/ MissingSourceFile e.
Proof.
  intros ([n files] & w1 & _ & Hin)%forEach_Err_inv.
  apply forEach_Err_inv in Hin as (file & w2 & _ & Hfile).
  by eapply checkFileStructure_Err.
Qed.


Lemma forEach_Err_between {A} R `{!PreOrder R} (l : list A) (body : A -> M unit) w e w' :
  (forall y, preserves R (body y)) -> forEach l body w = (Err e, w') ->
  exists x w1, x ∈ l /\ R w w1 /\ body x w1 = (Err e, w').
Proof.
  intros Hb. revert w. induction l as [|y l IH]; intros w; simpl; [done|].
  unfold bind. pose proof (Hb y w) as Hy.
  destruct (body y w) as [[[]|e0] w1] eqn:Hbody.
  - intros (x & w2 & Hx & HR & Hrun)%IH. exists x, w2. split; [by right|].
    split; [|done]. etrans; [exact Hy|exact HR].
  - intros [= <- <-]. exists y, w. split; [left|]. split; [reflexivity|done].
Qed.

(** The error of [validateFileStructures] is the conflict of a file of a
    group, or the absence of the source file of one without inline content. *)
Lemma validateFileStructures_Err_inv groups w e w' :
  validateFileStructures groups w = (Err e, w') ->
  exists n files file,
    groups !! n = Some files /\ file ∈ files /\ SourceFile file ≠ ""
    /\ (Content file ≠ ""
        /\ e = Errorf ("both SourceFile and Content set for file: " +:+ Filename file)
        \/ Content file = "" /\ os.Stat (SourceFile file) (root w) = inl ENOENT
           /\ e = Errorf ("template file not found: " +:+ SourceFile file)).
Proof.
  unfold validateFileStructures. intros Hfs.
  apply (forEach_Err_between same_root) in Hfs as ([n files] & w1 & Hin & Hw1 & Hfiles).
  2:{ intros [n files]. apply preserves_forEach; [apply _|].
      intros file _. apply checkFileStructure_root. }
  apply (forEach_Err_between same_root) in Hfiles as (file & w2 & Hfile & Hw2 & Hcheck).
  2:{ intros file. apply checkFileStructure_root. }
  exists n, files, file. split; [by apply range_elem_of|]. split; [done|].
  revert Hcheck. unfold checkFileStructure.
  destruct (decide (SourceFile file = "")) as [Hs|Hs].
  { by rewrite !(bool_decide_eq_false_2 (SourceFile file ≠ "")) by (by intros []). }
  rewrite !(bool_decide_eq_true_2 (SourceFile file ≠ "")) by done.
  destruct (decide (Content file = "")) as [Hc|Hc].
  - rewrite bool_decide_eq_false_2 by (by intros []). simpl.
    unfold sys.Stat, sys.query. unfold same_root in *. rewrite Hw2, Hw1.
    destruct (os.Stat (SourceFile file) (root w)) as [en|]; [|done].
    unfold os.IsNotExist. case_bool_decide as Hen; [|done]. subst en.
    intros [= <- _]. split; [done|]. by right.
  - rewrite bool_decide_eq_true_2 by done. simpl.
    intros [= <- _]. split; [done|]. by left.
Qed.

(** C3, as the code has it. When a file of a template group has both a local
    source file and inline content, validation fails and leaves the file
    tree as it was.  The error is the conflict of a file of a group that
    has both, unless a duplicate repository name or a missing template file
    is met first: with distinct repository names and no source file of a
    group missing, it is the conflict. *)
Theorem validateConfig_rejects_file_and_content config name files file w :
  TemplateGroups config !! name = Some files -> file ∈ files ->
  SourceFile file ≠ "" -> Content file ≠ "" ->
  exists e w', validateConfig config w = (Err e, w') /\ root w' = root w
               /\ (DuplicateName e \/ ConflictingSource e \/ MissingSourceFile e)
               /\ (NoDup (Name <$> Repositories config) ->
                   (forall n fs f, TemplateGroups config !! n = Some fs -> f ∈ fs ->
                                   SourceFile f ≠ "" -> Content f = "" ->
                                   os.Stat (SourceFile f) (root w) ≠ inl ENOENT) ->
                   ConflictingSource e
                   /\ exists n fs f,
                        TemplateGroups config !! n = Some fs /\ f ∈ fs
                        /\ SourceFile f ≠ "" /\ Content f ≠ ""
                        /\ e = Errorf ("both SourceFile and Content set for file: "
                                         +:+ Filename f)).
Proof.
  intros Hgroup Hfile Hsrc Hcontent.
  assert (fails (validateFileStructures (TemplateGroups config))) as Hfails.
  { apply (fails_forEach _ _ (name, files)); [by apply range_elem_of|].
    apply (fails_forEach _ _ file); [done|]. intros w1. unfold checkFileStructure.
    rewrite !bool_decide_eq_true_2 by done. simpl. by eexists _, _. }
  pose proof (validateConfig_root config w) as Hroot. revert Hroot.
  unfold validateConfig, bind.
  destruct (validateDuplicateRepoNames (Repositories config)) as [e0|] eqn:Hdup; simpl.
  - intros Hroot. exists e0, w. split; [done|split; [done|]]. split.
    + left. apply duplicateName_Some in Hdup as [n ->]. exists n. by left.
    + intros Hnd _. unfold validateDuplicateRepoNames in Hdup.
      rewrite duplicateName_NoDup in Hdup; [done|done|]. intros n _. apply lookup_empty.
  - rewrite validateDuplicateTemplateGroups_None. simpl.
    destruct (Hfails w) as (e & w' & Hfs). rewrite Hfs. simpl.
    intros Hroot. exists e, w'. split; [done|split; [done|]]. split.
    + right. by eapply validateFileStructures_Err.
    + intros _ Hthere.
      apply validateFileStructures_Err_inv in Hfs
        as (n & fs & f & Hn & Hf & Hs & [[Hc ->]|(Hc & Hstat & _)]).
      * split; [by eexists|]. by exists n, fs, f.
      * by destruct (Hthere n fs f).
Qed.


(** [main] ends with the validation error before it starts on the
    repositories, and the file tree is as it was. *)
Lemma startup_validation_error args w config w1 e w2 :
  (0 < MaxParallel args)%Z ->
  readConfig (ConfigFile args) (TemplatesDir args) w = (Ok config, w1) ->
  validateConfig config w1 = (Err e, w2) ->
  startup args w = (Err (Errorf_w "Configuration validation error" e), w2)
  /\ root w2 = root w.
Proof.
  intros Hp Hread Hval. split.
  - unfold startup. rewrite bool_decide_eq_false_2 by lia.
    unfold bind, wrap. by rewrite Hread, Hval.
  - pose proof (validateConfig_root config w1) as H1. rewrite Hval in H1.
    unfold same_root in H1. simpl in H1. rewrite H1. revert Hread. unfold readConfig, bind, wrap.
    pose proof (query_world "open" (ConfigFile args) (EvReadFile (ConfigFile args))
                  (os.ReadFile (ConfigFile args)) w) as Hq.
    fold (sys.ReadFile (ConfigFile args)) in Hq.
    destruct (sys.ReadFile (ConfigFile args) w) as [[data|e0] w0]; [|done].
    simpl in Hq. destruct (Unmarshal data); [|done]. intros [= _ <-]. by rewrite Hq.
Qed.

(** ** Materializing one file *)

Lemma createFile_inline repoName file outputPath :
  Content file ≠ "" ->
  createFileFromTemplate repoName file outputPath
  = (run wrap "creating directory" (sys.MkdirAll (outputDir repoName file outputPath));
     createTemplatedFile (fullPath repoName file outputPath) (Content file) (Values file)).
Proof. intros H. unfold createFileFromTemplate. by rewrite bool_decide_eq_true_2. Qed.

Lemma createFile_url repoName file outputPath :
  Content file = "" -> SourceURL file ≠ "" ->
  createFileFromTemplate repoName file outputPath
  = (run wrap "creating directory" (sys.MkdirAll (outputDir repoName file outputPath));
     do content <- wrap "downloading file from URL" (downloadFileContent (SourceURL file));
     orElse (createTemplatedFile (fullPath repoName file outputPath) content (Values file))
            (copyContentToFile content (fullPath repoName file outputPath))).
Proof.
  intros H1 H2. unfold createFileFromTemplate.
  rewrite bool_decide_eq_false_2 by (by intros []). by rewrite bool_decide_eq_true_2.
Qed.

Lemma createFile_local repoName file outputPath :
  Content file = "" -> SourceURL file = "" -> SourceFile file ≠ "" ->
  createFileFromTemplate repoName file outputPath
  = (run wrap "creating directory" (sys.MkdirAll (outputDir repoName file outputPath));
     do content <- wrap "reading source file" (sys.ReadFile (SourceFile file));
     orElse (createTemplatedFile (fullPath repoName file outputPath) content (Values file))
            (copyFile (SourceFile file) (fullPath repoName file outputPath))).
Proof.
  intros H1 H2 H3. unfold createFileFromTemplate.
  rewrite !bool_decide_eq_false_2 by (by intros []). by rewrite bool_decide_eq_true_2.
Qed.

Lemma createFile_none repoName file outputPath :
  Content file = "" -> SourceURL file = "" -> SourceFile file = "" ->
  createFileFromTemplate repoName file outputPath
  = (run wrap "creating directory" (sys.MkdirAll (outputDir repoName file outputPath));
     ret tt).
Proof.
  intros H1 H2 H3. unfold createFileFromTemplate.
  by rewrite !bool_decide_eq_false_2 by (by intros []).
Qed.

Lemma MkdirAll_run p w :
  sys.MkdirAll p w
  = match os.MkdirAll p (root w) with
    | inr r => (Ok tt, logged (EvMkdirAll p) r w)
    | inl e => (Err (PathError "mkdir" p e), logged (EvMkdirAll p) (root w) w)
    end.
Proof. unfold sys.MkdirAll, sys.checked, sys.update. by destruct (os.MkdirAll p (root w)). Qed.

(** What [createTemplatedFile] does once the file could be opened. *)
Lemma createTemplatedFile_opened path content vals w r :
  os.Create path (root w) = inr r ->
  createTemplatedFile path content vals w
  = match Parse content with
    | None => (Err (Errorf_w "parsing template" ParseError), logged (EvCreate path) r w)
    | Some tmpl =>
        let '(out, finished) := Execute tmpl vals in
        (if finished then Ok tt else Err ExecError,
         logged (EvWrite path out)
                (match os.WriteFile path out r with inr r' => r' | inl _ => r end)
                (logged (EvCreate path) r w))
    end.
Proof.
  intros Hc. unfold createTemplatedFile, bind, wrap, sys.Create, sys.checked, sys.update.
  rewrite Hc. destruct (Parse content) as [t|]; [|done].
  destruct (Execute t vals) as [out fin]. unfold sys.Write. simpl. by destruct fin.
Qed.

Lemma Create_then_WriteFile path c n r :
  os.Create path n = inr r ->
  exists r', os.WriteFile path c r = inr r' /\ os.ReadFile path r' = inr c.
Proof.
  unfold os.Create. intros [Hp Hput]%WriteFile_put.
  destruct (put_file_again _ _ c _ _ Hput) as [r' Hr']. exists r'.
  split; [by apply WriteFile_put|].
  apply ReadFile_file_at. split; [done|]. by eapply put_file_read.
Qed.

Lemma Create_read_empty path n r : os.Create path n = inr r -> os.ReadFile path r = inr "".
Proof.
  unfold os.Create. intros [Hp Hput]%WriteFile_put.
  apply ReadFile_file_at. split; [done|]. by eapply put_file_read.
Qed.

(** C8, as the code has it. With no source populated, materialization only
    makes the [MkdirAll] call for the destination directory: if that fails
    it returns the error, otherwise it returns success with the directory
    (and its missing parents) created; no regular file is created or
    changed. *)
Theorem createFileFromTemplate_no_source repoName file outputPath w :
  Content file = "" -> SourceURL file = "" -> SourceFile file = "" ->
  let dir := outputDir repoName file outputPath in
  let res := createFileFromTemplate repoName file outputPath w in
  res = match os.MkdirAll dir (root w) with
        | inr r => (Ok tt, logged (EvMkdirAll dir) r w)
        | inl e => (Err (Errorf_w "creating directory" (PathError "mkdir" dir e)),
                    logged (EvMkdirAll dir) (root w) w)
        end
  /\ trace res.2 = trace w ++ [EvMkdirAll dir]
  /\ forall k, os.file_at k (root res.2) = os.file_at k (root w).
Proof.
  intros H1 H2 H3 dir res.
  assert (res = match os.MkdirAll dir (root w) with
                | inr r => (Ok tt, logged (EvMkdirAll dir) r w)
                | inl e => (Err (Errorf_w "creating directory" (PathError "mkdir" dir e)),
                            logged (EvMkdirAll dir) (root w) w)
                end) as Hres.
  { unfold res. rewrite createFile_none by done. unfold bind, wrap.
    rewrite MkdirAll_run. fold dir. by destruct (os.MkdirAll dir (root w)). }
  split; [done|]. rewrite Hres.
  destruct (os.MkdirAll dir (root w)) as [e|r] eqn:Hmk; simpl; split; try done.
  intros k. by eapply MkdirAll_files.
Qed.

Lemma root_logged ev r w : root (logged ev r w) = r.
Proof. done. Qed.

Lemma bind_Ok {A B} (m : M A) (k : A -> M B) w a w1 :
  m w = (Ok a, w1) -> bind m k w = k a w1.
Proof. intros H. unfold bind. by rewrite H. Qed.

Lemma wrap_Ok {A} msg (m : M A) w a w1 : m w = (Ok a, w1) -> wrap msg m w = (Ok a, w1).
Proof. intros H. unfold wrap. by rewrite H. Qed.

Lemma wrap_Err {A} msg (m : M A) w e w1 :
  m w = (Err e, w1) -> wrap msg m w = (Err (Errorf_w msg e), w1).
Proof. intros H. unfold wrap. by rewrite H. Qed.

Lemma createFile_inline_run repoName file outputPath w :
  Content file ≠ "" ->
  createFileFromTemplate repoName file outputPath w
  = match os.MkdirAll (outputDir repoName file outputPath) (root w) with
    | inr r =>
        createTemplatedFile (fullPath repoName file outputPath) (Content file) (Values file)
          (logged (EvMkdirAll (outputDir repoName file outputPath)) r w)
    | inl e =>
        (Err (Errorf_w "creating directory"
                (PathError "mkdir" (outputDir repoName file outputPath) e)),
         logged (EvMkdirAll (outputDir repoName file outputPath)) (root w) w)
    end.
Proof.
  intros Hc. rewrite createFile_inline by done. unfold bind, wrap. rewrite MkdirAll_run.
  by destruct (os.MkdirAll _ (root w)).
Qed.

(** C10. When the materialization of an inline file returns a template
    error, the destination has been opened and truncated before: after a
    parse error it is an empty file, after an execution error it holds what
    [Execute] had written, whatever was at that path before. *)
Theorem inline_failure_truncates repoName file outputPath w w' :
  Content file ≠ "" ->
  (createFileFromTemplate repoName file outputPath w
   = (Err (Errorf_w "parsing template" ParseError), w') ->
   Parse (Content file) = None
   /\ os.ReadFile (fullPath repoName file outputPath) (root w') = inr "")
  /\ (createFileFromTemplate repoName file outputPath w = (Err ExecError, w') ->
      exists tmpl out,
        Parse (Content file) = Some tmpl /\ Execute tmpl (Values file) = (out, false)
        /\ os.ReadFile (fullPath repoName file outputPath) (root w') = inr out).
Proof.
  intros Hc. rewrite createFile_inline_run by done.
  destruct (os.MkdirAll _ (root w)) as [e|r1]; [by split|].
  set (w1 := logged _ r1 w).
  destruct (os.Create (fullPath repoName file outputPath) (root w1)) as [e|r] eqn:Hcreate.
  { unfold createTemplatedFile, bind, wrap, sys.Create, sys.checked, sys.update.
    rewrite Hcreate. by split. }
  rewrite (createTemplatedFile_opened _ _ _ _ _ Hcreate).
  destruct (Parse (Content file)) as [tmpl|].
  - destruct (Execute tmpl (Values file)) as [out fin] eqn:Hexec.
    destruct fin; [by split|]. split; [done|]. intros [= <-]. exists tmpl, out.
    rewrite root_logged.
    destruct (Create_then_WriteFile _ out _ _ Hcreate) as (r' & -> & Hread). done.
  - split; [|done]. intros [= <-]. split; [done|]. rewrite root_logged.
    by eapply Create_read_empty.
Qed.

Lemma createTemplatedFile_parse_fails path content vals :
  Parse content = None -> fails (createTemplatedFile path content vals).
Proof.
  intros Hp w. unfold createTemplatedFile, bind, wrap.
  destruct (sys.Create path w) as [[[]|e] w1]; [|by eexists _, _].
  rewrite Hp. by eexists _, _.
Qed.

Lemma fails_wrap {A} msg (m : M A) : fails m -> fails (wrap msg m).
Proof. intros Hm w. unfold wrap. destruct (Hm w) as (e & w' & ->). by eexists _, _. Qed.

Lemma createFile_inline_fails repoName file outputPath :
  Content file ≠ "" -> Parse (Content file) = None ->
  fails (createFileFromTemplate repoName file outputPath).
Proof.
  intros Hc Hp. rewrite createFile_inline by done.
  apply fails_bind_r. intros _. by apply createTemplatedFile_parse_fails.
Qed.

Lemma processGroup_fails repoName globalGroups outputPath groupRef group file :
  globalGroups !! TemplateGroupRef.GroupName groupRef = Some group -> file ∈ group ->
  (forall v, fails (createFileFromTemplate repoName (withValues v file) outputPath)) ->
  fails (processGroup repoName globalGroups outputPath groupRef).
Proof.
  intros Hg Hf Hfail. unfold processGroup. rewrite Hg.
  apply fails_wrap. unfold generateFilesFromTemplate, expandGroup. simpl.
  eapply fails_forEach; [by apply list_elem_of_fmap_2|]. apply fails_wrap, Hfail.
Qed.

Lemma processRepository_fails repo globalGroups outputPath file :
  fileOf repo globalGroups file ->
  (forall v, fails (createFileFromTemplate (Name repo) (withValues v file) outputPath)) ->
  fails (createFileFromTemplate (Name repo) file outputPath) ->
  fails (processRepository repo globalGroups outputPath).
Proof.
  intros [Hf|(ref & group & Href & Hg & Hf)] Hv Hfail; unfold processRepository;
    apply fails_bind_r; intros _.
  - apply fails_bind_l. eapply fails_forEach; [done|]. by apply fails_wrap.
  - apply fails_bind_r; intros _. eapply fails_forEach; [done|].
    by eapply processGroup_fails.
Qed.

(** The fallback in the regular case.  With the destination directory made
    and the destination opened: a URL source whose body does not parse as a
    template is written as fetched, and so is a local source file other than
    the destination itself, and the call succeeds.  Inline content that does
    not parse makes the call fail, and with it the processing of every
    repository the file belongs to. *)
Lemma fallback_law repoName file outputPath :
  (forall w w1 r code status c,
      sys.MkdirAll (outputDir repoName file outputPath) w = (Ok tt, w1) ->
      os.Create (fullPath repoName file outputPath) (root w1) = inr r ->
      Content file = "" -> SourceURL file ≠ "" ->
      httpGet (SourceURL file) = Response code status (Some c) -> (code < 400)%Z ->
      Parse c = None ->
      exists w', createFileFromTemplate repoName file outputPath w = (Ok tt, w')
                 /\ os.ReadFile (fullPath repoName file outputPath) (root w') = inr c)
  /\ (forall w w1 r c,
        sys.MkdirAll (outputDir repoName file outputPath) w = (Ok tt, w1) ->
        os.Create (fullPath repoName file outputPath) (root w1) = inr r ->
        Content file = "" -> SourceURL file = "" -> SourceFile file ≠ "" ->
        os.ReadFile (SourceFile file) (root w1) = inr c ->
        os.resolve (SourceFile file) ≠ os.resolve (fullPath repoName file outputPath) ->
        Parse c = None ->
        exists w', createFileFromTemplate repoName file outputPath w = (Ok tt, w')
                   /\ os.ReadFile (fullPath repoName file outputPath) (root w') = inr c
                   /\ os.ReadFile (SourceFile file) (root w') = inr c)
  /\ (Content file ≠ "" -> Parse (Content file) = None ->
        fails (createFileFromTemplate repoName file outputPath)
        /\ forall repo globalGroups,
             Name repo = repoName -> fileOf repo globalGroups file ->
             fails (processRepository repo globalGroups outputPath)).
Proof.
  split; [|split].
  - intros w w1 r code status c Hmk Hcreate Hc Hu Hget Hcode Hparse.
    rewrite createFile_url by done.
    erewrite bind_Ok by (apply wrap_Ok, Hmk).
    unfold bind, wrap, downloadFileContent. rewrite Hget.
    rewrite bool_decide_eq_false_2 by lia. unfold orElse.
    rewrite (createTemplatedFile_opened _ _ _ _ r) by done. rewrite Hparse.
    unfold copyContentToFile, sys.WriteFile, sys.checked, sys.update. simpl.
    destruct (Create_then_WriteFile _ c _ _ Hcreate) as (r' & -> & Hread).
    eexists. split; [done|]. done.
  - intros w w1 r c Hmk Hcreate Hc Hu Hs Hread Hne Hparse.
    rewrite createFile_local by done.
    erewrite bind_Ok by (apply wrap_Ok, Hmk).
    unfold bind, wrap at 1, sys.ReadFile, sys.checked, sys.query. rewrite Hread.
    unfold orElse. rewrite (createTemplatedFile_opened _ _ _ _ r) by done. rewrite Hparse.
    assert (os.ReadFile (SourceFile file) r = inr c) as Hsrc.
    { apply ReadFile_file_at in Hread as [Hp Hat]. apply ReadFile_file_at. split; [done|].
      rewrite <- Hat. by eapply WriteFile_other. }
    unfold copyFile, bind, wrap, sys.ReadFile, sys.WriteFile, sys.checked, sys.query,
      sys.update. simpl. rewrite Hsrc.
    destruct (Create_then_WriteFile _ c _ _ Hcreate) as (r' & Hw & Hdst).
    rewrite !root_logged, Hw.
    eexists. split; [done|]. simpl. split; [done|].
    apply ReadFile_file_at in Hsrc as [Hp Hat]. apply ReadFile_file_at. split; [done|].
    rewrite <- Hat. by eapply WriteFile_other.
  - intros Hc Hparse. split; [by apply createFile_inline_fails|].
    intros repo globalGroups <- Hof.
    eapply processRepository_fails; [done| |]; intros; by apply createFile_inline_fails.
Qed.

(** ** Processing a repository *)

Lemma bind_Ok_inv {A B} (m : M A) (k : A -> M B) w b w' :
  bind m k w = (Ok b, w') -> exists a w1, m w = (Ok a, w1) /\ k a w1 = (Ok b, w').
Proof. unfold bind. destruct (m w) as [[a|e] w1]; [|done]. eauto. Qed.

Lemma wrap_Ok_inv {A} msg (m : M A) w a w' : wrap msg m w = (Ok a, w') -> m w = (Ok a, w').
Proof. unfold wrap. by destruct (m w) as [[a'|e] w1]. Qed.

Lemma orElse_Ok_inv {A} (m h : M A) w a w' :
  orElse m h w = (Ok a, w') ->
  m w = (Ok a, w') \/ exists e w1, m w = (Err e, w1) /\ h w1 = (Ok a, w').
Proof. unfold orElse. destruct (m w) as [[a'|e] w1]; [by left|]. right. eauto. Qed.

Lemma forEach_wrap_Ok {A} msg (l : list A) (body : A -> M unit) w w' :
  forEach l body w = (Ok tt, w') ->
  forEach l (fun x => wrap msg (body x)) w = (Ok tt, w').
Proof.
  revert w. induction l as [|x l IH]; intros w; simpl; [done|].
  unfold bind, wrap. destruct (body x w) as [[[]|e] w1]; [apply IH|done].
Qed.

Lemma processRepository_materialize repo globalGroups outputPath :
  processRepository repo globalGroups outputPath
  = (run wrap ("error clearing output directory for repo " +:+ Name repo)
             (deleteExistingDir (filepath.Join [outputPath; Name repo]));
     materialize repo globalGroups outputPath).
Proof. done. Qed.

Lemma fullPath_Filename repoName f f' outputPath :
  Filename f = Filename f' -> fullPath repoName f outputPath = fullPath repoName f' outputPath.
Proof. intros H. unfold fullPath, outputDir. by rewrite H. Qed.

Lemma planned_elem repo globalGroups file :
  file ∈ planned repo globalGroups <-> fileOf repo globalGroups file.
Proof.
  unfold planned, fileOf. rewrite elem_of_app, list_elem_of_bind. split.
  - intros [?|(ref & Hf & Href)]; [by left|]. right.
    destruct (globalGroups !! TemplateGroupRef.GroupName ref) as [group|] eqn:Hg;
      simpl in Hf; [|by apply elem_of_nil in Hf]. by exists ref, group.
  - intros [?|(ref & group & Href & Hg & Hf)]; [by left|]. right.
    exists ref. by rewrite Hg.
Qed.

(** The loops only call [createFileFromTemplate], on the planned files with
    their values replaced. *)
Lemma preserves_materialize R `{!PreOrder R} repo globalGroups outputPath :
  (forall file file', file' ∈ planned repo globalGroups -> Filename file = Filename file' ->
                      preserves R (createFileFromTemplate (Name repo) file outputPath)) ->
  preserves R (materialize repo globalGroups outputPath).
Proof.
  intros Hfile. unfold materialize. apply preserves_bind; [apply _| |intros _].
  - apply preserves_forEach; [apply _|]. intros file Hf. apply preserves_wrap.
    apply (Hfile file file); [|done]. apply planned_elem. by left.
  - apply preserves_forEach; [apply _|]. intros ref Href. unfold processGroup.
    destruct (globalGroups !! TemplateGroupRef.GroupName ref) as [group|] eqn:Hg;
      [|apply preserves_fail, _].
    apply preserves_wrap, preserves_forEach; [apply _|]. intros file' Hf'.
    apply preserves_wrap. simpl in Hf'.
    apply list_elem_of_fmap in Hf' as (file & -> & Hf).
    apply (Hfile _ file); [|done]. apply planned_elem. right. by exists ref, group.
Qed.

Lemma only_calls_createFile P repoName file outputPath :
  (forall ev, ¬ isRemove ev -> P ev) ->
  preserves (only_calls P) (createFileFromTemplate repoName file outputPath).
Proof.
  intros HP. apply preserves_createFileFromTemplate; try apply _; intros;
    first [ apply only_calls_update | apply only_calls_query
          | apply only_calls_Write | apply only_calls_download ];
    apply HP; by intros [? [=]].
Qed.

(** C6. After the reset, the direct files are materialized in order and the
    first failure is returned, wrapped, from the world that file left: the
    files after it and the groups are not attempted.  The same holds for
    the first failure in a group.  Nothing is rolled back: no
    materialization removes a regular file, so what the reset left is still
    there at the end, and no [RemoveAll] follows the reset. *)
Theorem processRepository_first_failure repo globalGroups outputPath w w0 :
  deleteExistingDir (filepath.Join [outputPath; Name repo]) w = (Ok tt, w0) ->
  (forall pre f post w1 e w2,
      Files repo = pre ++ f :: post ->
      forEach pre (fun file => createFileFromTemplate (Name repo) file outputPath) w0
      = (Ok tt, w1) ->
      createFileFromTemplate (Name repo) f outputPath w1 = (Err e, w2) ->
      processRepository repo globalGroups outputPath w
      = (Err (Errorf_w "error creating file from template" e), w2))
  /\ (forall w1 gpre groupRef gpost group fpre f fpost w2 w3 e w4,
        forEach (Files repo) (fun file => createFileFromTemplate (Name repo) file outputPath) w0
        = (Ok tt, w1) ->
        Groups repo = gpre ++ groupRef :: gpost ->
        forEach gpre (processGroup (Name repo) globalGroups outputPath) w1 = (Ok tt, w2) ->
        globalGroups !! TemplateGroupRef.GroupName groupRef = Some group ->
        Template.Files (expandGroup groupRef group) = fpre ++ f :: fpost ->
        forEach fpre (fun file => createFileFromTemplate (Name repo) file outputPath) w2
        = (Ok tt, w3) ->
        createFileFromTemplate (Name repo) f outputPath w3 = (Err e, w4) ->
        processRepository repo globalGroups outputPath w
        = (Err (Errorf_w ("error generating template for repo " +:+ Name repo)
                  (Errorf_w "error creating file from template" e)), w4))
  /\ (forall file k,
        preserves (keeps_file_at k) (createFileFromTemplate (Name repo) file outputPath))
  /\ (forall k, keeps_file_at k w0 (processRepository repo globalGroups outputPath w).2)
  /\ only_calls (fun ev => ¬ isRemove ev) w0 (processRepository repo globalGroups outputPath w).2.
Proof.
  intros Hreset.
  assert (processRepository repo globalGroups outputPath w
          = materialize repo globalGroups outputPath w0) as ->.
  { rewrite processRepository_materialize. by erewrite bind_Ok by (apply wrap_Ok, Hreset). }
  split; [|split; [|split; [|split]]].
  - intros pre f post w1 e w2 Hfiles Hpre Hf. unfold materialize, bind.
    rewrite Hfiles.
    erewrite forEach_app_fail; [done|by apply forEach_wrap_Ok|by apply wrap_Err].
  - intros w1 gpre ref gpost group fpre f fpost w2 w3 e w4 Hfiles Hgroups Hgpre Hg Hexp Hfpre Hf.
    unfold materialize. erewrite bind_Ok by (by apply forEach_wrap_Ok).
    rewrite Hgroups. eapply forEach_app_fail; [done|].
    unfold processGroup. rewrite Hg. apply wrap_Err.
    unfold generateFilesFromTemplate. rewrite Hexp.
    eapply forEach_app_fail; [by apply forEach_wrap_Ok|by apply wrap_Err].
  - intros file k. apply createFile_keeps.
  - intros k. apply preserves_materialize; [apply _|]. intros file file' _ _.
    apply createFile_keeps.
  - apply preserves_materialize; [apply _|]. intros file file' _ _.
    by apply only_calls_createFile.
Qed.

(** ** The reset of the output directory *)

Lemma Clean_named p : filepath.Clean p ≠ "".
Proof. unfold filepath.Clean. by case_bool_decide. Qed.

(** [Join] gives the empty path only for empty elements. *)
Lemma Join_named a b : a ≠ "" \/ b ≠ "" -> filepath.Join [a; b] ≠ "".
Proof.
  intros Hab. unfold filepath.Join. repeat case_bool_decide; try apply Clean_named.
  by destruct Hab.
Qed.

Lemma deleteExistingDir_absent dirPath w :
  os.Stat dirPath (root w) = inl ENOENT ->
  deleteExistingDir dirPath w = (Ok tt, logged (EvStat dirPath) (root w) w).
Proof. intros H. unfold deleteExistingDir, sys.Stat, sys.query. by rewrite H. Qed.

Lemma deleteExistingDir_run dirPath w :
  deleteExistingDir dirPath w
  = match os.Stat dirPath (root w) with
    | inl ENOENT => (Ok tt, logged (EvStat dirPath) (root w) w)
    | _ =>
        match os.RemoveAll dirPath (root w) with
        | (None, r) =>
            (Ok tt, logged (EvRemoveAll dirPath) r (logged (EvStat dirPath) (root w) w))
        | (Some (op, path, en), r) =>
            (Err (Errorf_w ("failed to delete existing directory '" +:+ dirPath +:+ "'")
                    (PathError op path en)),
             logged (EvRemoveAll dirPath) r (logged (EvStat dirPath) (root w) w))
        end
    end.
Proof.
  unfold deleteExistingDir, sys.Stat, sys.query, wrap, sys.RemoveAll.
  rewrite !root_logged.
  destruct (os.Stat dirPath (root w)) as [[]|n]; simpl;
    try done; by destruct (os.RemoveAll dirPath (root w)) as [[[[op path] en]|] r].
Qed.

(** After a successful reset of a directory with a name, the directory is
    not there, and no regular file is at or below its path. *)
Lemma deleteExistingDir_Ok_inv dirPath w w0 :
  deleteExistingDir dirPath w = (Ok tt, w0) -> dirPath ≠ "" ->
  os.Stat dirPath (root w0) = inl ENOENT
  /\ forall q, os.file_at (os.resolve dirPath ++ q) (root w0) = None.
Proof.
  intros Hdel Hne. revert Hdel. rewrite deleteExistingDir_run.
  assert (os.Stat dirPath (root w) = inl ENOENT ->
          forall q, os.file_at (os.resolve dirPath ++ q) (root w) = None) as Habsent.
  { unfold os.Stat, os.at_path. rewrite bool_decide_eq_false_2 by done.
    intros Hw q. by eapply file_at_below_missing. }
  destruct (os.Stat dirPath (root w)) as [[]|n] eqn:Hst;
    try (intros [= <-]; split; [done|by apply Habsent]);
    destruct (os.RemoveAll dirPath (root w)) as [[[[op path] en]|] r] eqn:Hr; try done;
    intros [= <-]; by apply (RemoveAll_Ok_inv _ _ _ Hr).
Qed.

Lemma deleteExistingDir_clears dirPath w w0 k :
  deleteExistingDir dirPath w = (Ok tt, w0) -> dirPath ≠ "" -> inSubtree dirPath k ->
  os.file_at k (root w0) = None.
Proof.
  intros Hdel Hne [q ->]. by apply (deleteExistingDir_Ok_inv _ _ _ Hdel Hne).
Qed.

Lemma WriteFile_Ok_creates p c w w' :
  sys.WriteFile p c w = (Ok tt, w') -> is_Some (os.file_at (os.resolve p) (root w')).
Proof.
  intros (r & [_ Hr]%WriteFile_put & ->)%update_Ok. simpl.
  rewrite (put_file_read _ _ _ _ Hr). eauto.
Qed.

Lemma createTemplatedFile_Ok_creates path content vals w w' :
  createTemplatedFile path content vals w = (Ok tt, w') ->
  is_Some (os.file_at (os.resolve path) (root w')).
Proof.
  intros ([] & w1 & Hc%wrap_Ok_inv & Hrest)%bind_Ok_inv.
  apply update_Ok in Hc as (r & Hr & ->). revert Hrest.
  destruct (Parse content) as [t|]; [|done]. destruct (Execute t vals) as [out fin].
  unfold bind, sys.Write. rewrite root_logged.
  destruct (Create_then_WriteFile _ out _ _ Hr) as (r' & -> & [_ Hread]%ReadFile_file_at).
  destruct fin; [|done]. intros [= <-]. simpl. rewrite Hread. eauto.
Qed.

Lemma createFile_Ok_creates repoName file outputPath w w' :
  createFileFromTemplate repoName file outputPath w = (Ok tt, w') -> populated file ->
  is_Some (os.file_at (os.resolve (fullPath repoName file outputPath)) (root w')).
Proof.
  intros Hok Hpop. revert Hok.
  destruct (decide (Content file = "")) as [Hc|Hc];
    [destruct (decide (SourceURL file = "")) as [Hu|Hu]|].
  - assert (SourceFile file ≠ "") as Hs by (by destruct Hpop as [?|[?|?]]).
    rewrite createFile_local by done.
    intros ([] & w1 & _ & (c & w2 & _ & Hor)%bind_Ok_inv)%bind_Ok_inv.
    apply orElse_Ok_inv in Hor as [Ht|(e & w3 & _ & Hcopy)].
    + by eapply createTemplatedFile_Ok_creates.
    + apply bind_Ok_inv in Hcopy as (c' & w4 & _ & Hw%wrap_Ok_inv).
      by eapply WriteFile_Ok_creates.
  - rewrite createFile_url by done.
    intros ([] & w1 & _ & (c & w2 & _ & Hor)%bind_Ok_inv)%bind_Ok_inv.
    apply orElse_Ok_inv in Hor as [Ht|(e & w3 & _ & Hcopy)].
    + by eapply createTemplatedFile_Ok_creates.
    + by eapply WriteFile_Ok_creates.
  - rewrite createFile_inline by done.
    intros ([] & w1 & _ & Ht)%bind_Ok_inv. by eapply createTemplatedFile_Ok_creates.
Qed.

Lemma materialize_frame repo globalGroups outputPath k :
  k ∉ targets (Name repo) outputPath (planned repo globalGroups) ->
  preserves (same_file_at k) (materialize repo globalGroups outputPath).
Proof.
  intros Hk. apply preserves_materialize; [apply _|]. intros file file' Hin Hname.
  apply createFile_frame. intros ->. apply Hk.
  rewrite (fullPath_Filename _ _ _ _ Hname). unfold targets.
  by apply (list_elem_of_fmap_2 (fun f => os.resolve (fullPath (Name repo) f outputPath))).
Qed.

Lemma materialize_Ok_creates repo globalGroups outputPath w w' file :
  materialize repo globalGroups outputPath w = (Ok tt, w') ->
  file ∈ planned repo globalGroups -> populated file ->
  is_Some (os.file_at (os.resolve (fullPath (Name repo) file outputPath)) (root w')).
Proof.
  intros ([] & wm & Hfiles & Hgroups)%bind_Ok_inv Hin Hpop.
  set (k := os.resolve (fullPath (Name repo) file outputPath)).
  assert (forall f, preserves (keeps_file_at k)
                      (wrap "error creating file from template"
                         (createFileFromTemplate (Name repo) f outputPath))) as Hkeep.
  { intros f. apply preserves_wrap, createFile_keeps. }
  assert (preserves (keeps_file_at k)
            (forEach (Groups repo) (processGroup (Name repo) globalGroups outputPath)))
    as Hkeep2.
  { apply preserves_forEach; [apply _|]. intros ref _. unfold processGroup.
    destruct (globalGroups !! TemplateGroupRef.GroupName ref); [|apply preserves_fail, _].
    apply preserves_wrap, preserves_forEach; [apply _|]. intros f _. apply Hkeep. }
  apply planned_elem in Hin as [Hf|(ref & group & Href & Hg & Hf)].
  - destruct (forEach_Ok_elem (keeps_file_at k) _ _ file _ _ Hkeep Hfiles Hf)
      as (wa & wb & Hcreate%wrap_Ok_inv & Hrest).
    specialize (Hkeep2 wm). rewrite Hgroups in Hkeep2. apply Hkeep2, Hrest.
    by eapply createFile_Ok_creates.
  - assert (forall r, preserves (keeps_file_at k)
                        (processGroup (Name repo) globalGroups outputPath r)) as Hkeep3.
    { intros r. unfold processGroup.
      destruct (globalGroups !! TemplateGroupRef.GroupName r); [|apply preserves_fail, _].
      apply preserves_wrap, preserves_forEach; [apply _|]. intros f _. apply Hkeep. }
    destruct (forEach_Ok_elem (keeps_file_at k) _ _ ref _ _ Hkeep3 Hgroups Href)
      as (wa & wb & Hgroup & Hrest).
    apply Hrest. revert Hgroup. unfold processGroup. rewrite Hg.
    intros Hgen%wrap_Ok_inv.
    set (file' := withValues (Some (mergeValues (TemplateGroupRef.Values ref) (Values file)))
                             file).
    assert (file' ∈ Template.Files (expandGroup ref group)) as Hf'.
    { simpl. apply list_elem_of_fmap. by exists file. }
    destruct (forEach_Ok_elem (keeps_file_at k) _ _ file' _ _ Hkeep Hgen Hf')
      as (wc & wd & Hcreate%wrap_Ok_inv & Hrest').
    apply Hrest'. apply createFile_Ok_creates in Hcreate; [done|].
    destruct Hpop as [?|[?|?]]; [by left|right; by left|right; by right].
Qed.

(** C7, as the code has it. Unless the output root and the name of the
    repository are both empty, the reset leaves no regular file in the
    subtree of the repository's output directory, and a directory that is
    not there is no error.  So when a repository is processed a second time
    and the reset does not fail, every regular file in the subtree
    afterwards is the destination of a file of the second run; and when the
    second run succeeds, the destination of each of its files with a source
    is there.  A reset that fails fails the run, with its error wrapped,
    before anything is written. *)
Theorem reset_leaves_no_stale_files repo1 repo2 groups1 groups2 outputPath w :
  Name repo1 = Name repo2 ->
  outputPath ≠ "" \/ Name repo2 ≠ "" ->
  let d := filepath.Join [outputPath; Name repo2] in
  let w1 := (processRepository repo1 groups1 outputPath w).2 in
  let res := processRepository repo2 groups2 outputPath w1 in
  (os.Stat d (root w1) = inl ENOENT ->
     deleteExistingDir d w1 = (Ok tt, logged (EvStat d) (root w1) w1))
  /\ (forall w0 k, deleteExistingDir d w1 = (Ok tt, w0) -> inSubtree d k ->
                   os.file_at k (root w0) = None)
  /\ ((forall e, res.1 ≠ Err (Errorf_w ("error clearing output directory for repo "
                                          +:+ Name repo2) e)) ->
      forall k c, inSubtree d k -> os.file_at k (root res.2) = Some c ->
                  k ∈ targets (Name repo2) outputPath (planned repo2 groups2))
  /\ (res.1 = Ok tt ->
      forall file, file ∈ planned repo2 groups2 -> populated file ->
                   is_Some (os.file_at (os.resolve (fullPath (Name repo2) file outputPath))
                                       (root res.2)))
  /\ (forall e w0, deleteExistingDir d w1 = (Err e, w0) ->
                   res = (Err (Errorf_w ("error clearing output directory for repo "
                                           +:+ Name repo2) e), w0)).
Proof.
  intros _ Hnamed d w1 res.
  assert (d ≠ "") as Hd by (by apply Join_named).
  split; [apply deleteExistingDir_absent|].
  split; [intros w0 k Hreset; by apply (deleteExistingDir_clears _ _ _ _ Hreset)|].
  unfold res. rewrite processRepository_materialize. fold d. unfold bind, wrap.
  destruct (deleteExistingDir d w1) as [[[]|e] w0] eqn:Hreset; simpl.
  - split; [|split; [|done]].
    + intros _ k c Hk Hfile.
      destruct (decide (k ∈ targets (Name repo2) outputPath (planned repo2 groups2)))
        as [|Hnot]; [done|].
      pose proof (materialize_frame repo2 groups2 outputPath k Hnot w0) as Hsame.
      unfold same_file_at in Hsame.
      rewrite Hsame, (deleteExistingDir_clears _ _ _ _ Hreset Hd Hk) in Hfile. done.
    + intros Hok file Hin Hpop.
      destruct (materialize repo2 groups2 outputPath w0) as [r w'] eqn:Hm.
      simpl in *. subst r. by eapply materialize_Ok_creates.
  - split; [|split; [done|]].
    + intros Hno. by destruct (Hno e).
    + by intros e' w0' [= <- <-].
Qed.

(** ** The paths of the local sources *)

Lemma only_calls_impl (P Q : event -> Prop) {A} (m : M A) :
  (forall ev, P ev -> Q ev) -> preserves (only_calls P) m -> preserves (only_calls Q) m.
Proof.
  intros HPQ Hm w. destruct (Hm w) as (evs & Htrace & Hevs). exists evs.
  split; [done|]. eapply Forall_impl; [exact Hevs|exact HPQ].
Qed.

Lemma only_calls_same_world P {A} (m : M A) :
  preserves same_world m -> preserves (only_calls P) m.
Proof. intros Hm w. rewrite (Hm w). exists []. by rewrite app_nil_r. Qed.

Lemma only_calls_deleteExistingDir (P : event -> Prop) dirPath :
  P (EvStat dirPath) -> P (EvRemoveAll dirPath) ->
  preserves (only_calls P) (deleteExistingDir dirPath).
Proof.
  intros Hstat Hrm w. rewrite deleteExistingDir_run.
  destruct (os.Stat dirPath (root w)) as [[]|n];
    try (exists [EvStat dirPath]; split; [done|by apply Forall_singleton]);
    destruct (os.RemoveAll dirPath (root w)) as [[[[op path] en]|] r];
    exists [EvStat dirPath; EvRemoveAll dirPath]; simpl;
    (split; [by rewrite <- app_assoc|by repeat constructor]).
Qed.

(** The one path validation looks for is the stored path of the file. *)
Lemma only_calls_checkFileStructure file :
  preserves (only_calls (fun ev => SourceFile file ≠ "" /\ ev = EvStat (SourceFile file)))
            (checkFileStructure file).
Proof.
  intros w. unfold checkFileStructure.
  destruct (decide (SourceFile file = "")) as [Hs|Hs].
  { rewrite !(bool_decide_eq_false_2 (SourceFile file ≠ "")) by (by intros []).
    exists []. by rewrite app_nil_r. }
  rewrite !(bool_decide_eq_true_2 (SourceFile file ≠ "")) by done.
  destruct (bool_decide (Content file ≠ "")); simpl.
  { exists []. by rewrite app_nil_r. }
  exists [EvStat (SourceFile file)]. split; [|by apply Forall_singleton].
  unfold sys.Stat, sys.query. destruct (os.Stat _ _) as [en|]; [|done].
  by destruct (os.IsNotExist en).
Qed.

Lemma only_calls_validateConfig config :
  preserves (only_calls (fun ev => exists n files file,
                           TemplateGroups config !! n = Some files /\ file ∈ files
                           /\ SourceFile file ≠ "" /\ ev = EvStat (SourceFile file)))
            (validateConfig config).
Proof.
  unfold validateConfig.
  apply preserves_bind; [apply _| |intros _].
  { apply only_calls_same_world, preserves_lift, _. }
  apply preserves_bind; [apply _| |intros _].
  { apply only_calls_same_world, preserves_lift, _. }
  apply preserves_bind; [apply _| |intros _].
  { apply preserves_forEach; [apply _|]. intros [n files] Hn%range_elem_of.
    apply preserves_forEach; [apply _|]. intros file Hfile.
    eapply only_calls_impl; [|apply only_calls_checkFileStructure].
    intros ev [Hs ->]. by exists n, files, file. }
  apply preserves_bind; [apply _| |intros _].
  - apply only_calls_same_world, validateRepoGroupReferences_world.
  - apply only_calls_same_world, validateURLSchemes_world.
Qed.

(** The one path materialization reads is the stored path of the file. *)
Lemma only_calls_createFile_reads repoName file outputPath :
  preserves (only_calls (fun ev => forall p, ev = EvReadFile p ->
                                             p = SourceFile file /\ SourceFile file ≠ ""))
            (createFileFromTemplate repoName file outputPath).
Proof.
  set (P := fun ev => forall p, ev = EvReadFile p ->
                                p = SourceFile file /\ SourceFile file ≠ "").
  assert (preserves (only_calls P)
            (wrap "creating directory" (sys.MkdirAll (outputDir repoName file outputPath))))
    as Hmk.
  { apply preserves_wrap, only_calls_update. by intros p [=]. }
  assert (forall c, preserves (only_calls P)
                      (createTemplatedFile (fullPath repoName file outputPath) c
                         (Values file))) as Htmpl.
  { intros c. apply preserves_createTemplatedFile; [apply _| |].
    - apply only_calls_update. by intros p [=].
    - intros o. apply only_calls_Write. by intros p [=]. }
  destruct (decide (Content file = "")) as [Hc|Hc];
    [destruct (decide (SourceURL file = "")) as [Hu|Hu];
       [destruct (decide (SourceFile file = "")) as [Hs|Hs]|]|].
  - rewrite createFile_none by done.
    apply preserves_bind; [apply _|done|]. intros _. apply preserves_ret, _.
  - rewrite createFile_local by done.
    apply preserves_bind; [apply _|done|]. intros _.
    apply preserves_bind; [apply _| |intros c].
    { apply preserves_wrap, only_calls_query. by intros p [= <-]. }
    apply preserves_orElse; [apply _|done|].
    unfold copyFile. apply preserves_bind; [apply _| |intros c'].
    + apply preserves_wrap, only_calls_query. by intros p [= <-].
    + apply preserves_wrap, only_calls_update. by intros p [=].
  - rewrite createFile_url by done.
    apply preserves_bind; [apply _|done|]. intros _.
    apply preserves_bind; [apply _| |intros c].
    { apply preserves_wrap, only_calls_download. by intros p [=]. }
    apply preserves_orElse; [apply _|done|].
    apply only_calls_update. by intros p [=].
  - rewrite createFile_inline by done.
    apply preserves_bind; [apply _|done|]. intros _. apply Htmpl.
Qed.

Lemma expandGroup_sources groupRef group :
  SourceFile <$> Template.Files (expandGroup groupRef group) = SourceFile <$> group.
Proof.
  unfold expandGroup. simpl. induction group as [|f group IH]; [done|].
  rewrite !fmap_cons. by rewrite IH.
Qed.

(** C5, as the code has it. [readConfig] replaces the path of every local
    source of a template group by its join with the templates directory,
    once, and leaves the repositories, and so their direct files, as they
    were parsed.  No later stage joins again: the paths validation looks for
    are the joined paths of the group files; the expansion of a group keeps
    the stored paths; a materialization reads no path other than the stored
    path of its file; and so the files a repository reads are the local
    sources of its direct files as written and those of its groups joined
    once. *)
Theorem readConfig_joins_group_sources filename templatesDir w config w' :
  readConfig filename templatesDir w = (Ok config, w') ->
  exists data parsed,
    os.ReadFile filename (root w) = inr data /\ Unmarshal data = Some parsed
    /\ TemplateGroups config = joinedGroup templatesDir <$> TemplateGroups parsed
    /\ Repositories config = Repositories parsed
    /\ preserves
         (only_calls (fun ev => exists n files file,
                        TemplateGroups parsed !! n = Some files /\ file ∈ files
                        /\ SourceFile file ≠ ""
                        /\ ev = EvStat (filepath.Join [templatesDir; SourceFile file])))
         (validateConfig config)
    /\ (forall groupRef group,
          SourceFile <$> Template.Files (expandGroup groupRef group) = SourceFile <$> group)
    /\ (forall repoName file outputPath,
          preserves (only_calls (fun ev => forall p, ev = EvReadFile p -> p = SourceFile file))
                    (createFileFromTemplate repoName file outputPath))
    /\ (forall repo outputPath,
          preserves
            (only_calls (fun ev => forall p, ev = EvReadFile p ->
               (exists file, file ∈ Files repo /\ SourceFile file ≠ ""
                             /\ p = SourceFile file)
               \/ (exists groupRef files file,
                     groupRef ∈ Groups repo
                     /\ TemplateGroups parsed !! TemplateGroupRef.GroupName groupRef
                        = Some files
                     /\ file ∈ files /\ SourceFile file ≠ ""
                     /\ p = filepath.Join [templatesDir; SourceFile file])))
            (processRepository repo (TemplateGroups config) outputPath)).
Proof.
  intros Hread.
  assert (exists data parsed,
            os.ReadFile filename (root w) = inr data /\ Unmarshal data = Some parsed
            /\ TemplateGroups config = joinedGroup templatesDir <$> TemplateGroups parsed
            /\ Repositories config = Repositories parsed)
    as (data & parsed & Hdata & Hparsed & Hgroups & Hrepos).
  { revert Hread. unfold readConfig, bind, wrap, sys.ReadFile, sys.checked, sys.query.
    destruct (os.ReadFile filename (root w)) as [e|data] eqn:Hdata; [done|].
    destruct (Unmarshal data) as [parsed|] eqn:Hparsed; [|done].
    intros [= <- <-]. exists data, parsed. simpl.
    by rewrite joinTemplateGroups_fmap. }
  assert (forall n files' file',
            TemplateGroups config !! n = Some files' -> file' ∈ files' ->
            SourceFile file' ≠ "" ->
            exists files file,
              TemplateGroups parsed !! n = Some files /\ file ∈ files
              /\ SourceFile file ≠ "" /\ Filename file' = Filename file
              /\ SourceFile file' = filepath.Join [templatesDir; SourceFile file])
    as Hjoined.
  { intros n files' file'. rewrite Hgroups, lookup_fmap.
    destruct (TemplateGroups parsed !! n) as [files|]; [|done]. intros [= <-].
    intros (file & -> & Hfile)%list_elem_of_fmap. unfold joinedFile.
    case_bool_decide as Hs; [|done]. intros _. by exists files, file. }
  exists data, parsed. do 4 (split; [done|]). split; [|split; [|split]].
  - eapply only_calls_impl; [|apply only_calls_validateConfig].
    intros ev (n & files' & file' & Hn & Hfile & Hs & ->).
    destruct (Hjoined _ _ _ Hn Hfile Hs) as (files & file & Hn' & Hfile' & Hs' & _ & ->).
    by exists n, files, file.
  - apply expandGroup_sources.
  - intros repoName file outputPath.
    eapply only_calls_impl; [|apply only_calls_createFile_reads].
    intros ev Hev p Hp. by destruct (Hev p Hp).
  - intros repo outputPath. rewrite processRepository_materialize.
    apply preserves_bind; [apply _| |intros _].
    { apply preserves_wrap, only_calls_deleteExistingDir; by intros p [=]. }
    unfold materialize. apply preserves_bind; [apply _| |intros _].
    + apply preserves_forEach; [apply _|]. intros file Hfile. apply preserves_wrap.
      eapply only_calls_impl; [|apply only_calls_createFile_reads].
      intros ev Hev p Hp. destruct (Hev p Hp) as [-> Hs]. left. by exists file.
    + apply preserves_forEach; [apply _|]. intros groupRef Href. unfold processGroup.
      destruct (TemplateGroups config !! TemplateGroupRef.GroupName groupRef)
        as [files'|] eqn:Hn; [|apply preserves_fail, _].
      apply preserves_wrap, preserves_forEach; [apply _|]. intros file'' Hfile''.
      apply preserves_wrap. simpl in Hfile''.
      apply list_elem_of_fmap in Hfile'' as (file' & -> & Hfile').
      eapply only_calls_impl; [|apply only_calls_createFile_reads].
      intros ev Hev p Hp. destruct (Hev p Hp) as [-> Hs]. simpl in Hs. right.
      destruct (Hjoined _ _ _ Hn Hfile' Hs) as (files & file & Hn' & Hfile & Hs' & _ & Heq).
      exists groupRef, files, file. simpl. by rewrite Heq.
Qed.

(** ** More about validation *)

Lemma forEach_Ok_between {A} R `{!PreOrder R} (l : list A) (body : A -> M unit) x w w' :
  (forall y, preserves R (body y)) -> forEach l body w = (Ok tt, w') -> x ∈ l ->
  exists w1 w2, R w w1 /\ body x w1 = (Ok tt, w2) /\ R w2 w'.
Proof.
  intros Hb Hok Hx. revert w Hok.
  induction l as [|y l IH]; intros w; [by apply elem_of_nil in Hx|].
  simpl. unfold bind. apply elem_of_cons in Hx as [<-|Hx].
  - destruct (body x w) as [[[]|e0] w1] eqn:Hbx; [|done]. intros Hl.
    exists w, w1. split; [reflexivity|]. split; [done|].
    assert (preserves R (forEach l body)) as Hp by (by apply preserves_forEach).
    specialize (Hp w1). by rewrite Hl in Hp.
  - pose proof (Hb y w) as Hy.
    destruct (body y w) as [[[]|e0] w1]; [|done]. intros Hl.
    destruct (IH Hx _ Hl) as (wa & wb & Ha & Hbody & Hb').
    exists wa, wb. split; [|done]. etrans; [exact Hy|exact Ha].
Qed.

Lemma forEach_pure {A} (l : list A) (body : A -> M unit) w :
  (forall x, x ∈ l -> body x w = (Ok tt, w)) -> forEach l body w = (Ok tt, w).
Proof.
  induction l as [|x l IH]; intros Hb; simpl; [done|]. unfold bind.
  rewrite Hb by left. apply IH. intros y Hy. apply Hb. by right.
Qed.

Lemma duplicateName_None what seen names :
  duplicateName what seen names = None ->
  NoDup names /\ forall n, n ∈ names -> seen !! n = None.
Proof.
  revert seen. induction names as [|n names IH]; intros seen; simpl.
  - intros _. split; [constructor|]. intros n Hn. by apply elem_of_nil in Hn.
  - destruct (seen !! n) eqn:Hn; [done|]. intros [Hnd Hseen]%IH. split.
    + constructor; [|done]. intros Hin. specialize (Hseen n Hin).
      by rewrite lookup_insert_eq in Hseen.
    + intros n' [->|Hin]%elem_of_cons; [done|].
      specialize (Hseen n' Hin).
      destruct (decide (n = n')) as [->|Hne]; [by rewrite lookup_insert_eq in Hseen|].
      by rewrite lookup_insert_ne in Hseen.
Qed.

(** X1. [validateDuplicateRepoNames] accepts the repositories exactly when no
    two of them have the same name, and its error carries the message of
    the duplicate check. *)
Theorem validateDuplicateRepoNames_NoDup repos :
  (validateDuplicateRepoNames repos = None <-> NoDup (Name <$> repos))
  /\ (forall e, validateDuplicateRepoNames repos = Some e ->
                exists n, e = Errorf ("duplicate repository name: " +:+ n)
                          /\ exists repo, repo ∈ repos /\ Name repo = n).
Proof.
  unfold validateDuplicateRepoNames. split; [split|].
  - by intros [Hnd _]%duplicateName_None.
  - intros Hnd. apply duplicateName_NoDup; [done|]. intros n _. apply lookup_empty.
  - generalize (∅ : gmap string bool). induction repos as [|r repos IH]; intros seen e; [done|].
    simpl. destruct (seen !! Name r).
    + intros [= <-]. exists (Name r). split; [done|]. exists r. split; [left|done].
    + intros (n & -> & repo & Hin & Hn)%IH. exists n. split; [done|].
      exists repo. split; [by right|done].
Qed.

(** X2. The duplicate check on the template groups can never fail: the names
    are the keys of a map. *)
Theorem validateDuplicateTemplateGroups_never_fails groups :
  validateDuplicateTemplateGroups groups = None.
Proof. apply validateDuplicateTemplateGroups_None. Qed.

Lemma groupRef_world (groups : gmap string (list FileStructure)) (msg name : string) :
  preserves same_world
    (match groups !! name with Some _ => ret tt | None => fail (Errorf msg) end).
Proof. destruct (groups !! name); [apply preserves_ret|apply preserves_fail]; apply _. Qed.

Lemma validateRepoGroupReferences_iff repos groups w :
  (validateRepoGroupReferences repos groups w).1 = Ok tt <->
  forall repo groupRef, repo ∈ repos -> groupRef ∈ Groups repo ->
                        is_Some (groups !! TemplateGroupRef.GroupName groupRef).
Proof.
  split.
  - intros Hok repo ref Hrepo Href.
    destruct (validateRepoGroupReferences repos groups w) as [r w'] eqn:Hv.
    simpl in Hok. subst r.
    destruct (forEach_Ok_between same_world _ _ repo _ _
                (fun rp => preserves_forEach same_world _ _
                             (fun rf _ => groupRef_world groups _ _)) Hv Hrepo)
      as (w1 & w2 & _ & Hinner & _).
    destruct (forEach_Ok_between same_world _ _ ref _ _
                (fun rf => groupRef_world groups _ _) Hinner Href)
      as (w3 & w4 & _ & Hbody & _).
    by destruct (groups !! TemplateGroupRef.GroupName ref).
  - intros Hall. unfold validateRepoGroupReferences.
    rewrite forEach_pure; [done|]. intros repo Hrepo.
    apply forEach_pure. intros ref Href.
    by destruct (Hall repo ref Hrepo Href) as [g ->].
Qed.

(** X3. [validateRepoGroupReferences] succeeds exactly when every group a
    repository refers to is a key of the template groups; it makes no
    system call either way. *)
Theorem validateRepoGroupReferences_known repos groups w :
  ((validateRepoGroupReferences repos groups w).1 = Ok tt <->
   forall repo groupRef, repo ∈ repos -> groupRef ∈ Groups repo ->
                         is_Some (groups !! TemplateGroupRef.GroupName groupRef))
  /\ (validateRepoGroupReferences repos groups w).2 = w.
Proof.
  split; [apply validateRepoGroupReferences_iff|apply validateRepoGroupReferences_world].
Qed.

Lemma checkFileStructure_Ok file w w' :
  checkFileStructure file w = (Ok tt, w') ->
  ¬ (SourceFile file ≠ "" /\ Content file ≠ "")
  /\ (SourceFile file ≠ "" -> os.Stat (SourceFile file) (root w) ≠ inl ENOENT).
Proof.
  unfold checkFileStructure. repeat case_bool_decide; simpl; try done.
  - unfold sys.Stat, sys.query.
    destruct (os.Stat (SourceFile file) (root w)) as [e|n] eqn:Hst.
    + destruct (os.IsNotExist e) eqn:He; [done|]. intros _. split; [by intros [_ ?]|].
      intros _ [= ->]. done.
    + intros _. split; [by intros [_ ?]|]. done.
  - intros _. split; [by intros [? _]|done].
  - intros _. split; [by intros [? _]|done].
Qed.

Lemma validateConfig_Ok_inv config w w' :
  validateConfig config w = (Ok tt, w') ->
  NoDup (Name <$> Repositories config)
  /\ (forall name files file,
        TemplateGroups config !! name = Some files -> file ∈ files ->
        ¬ (SourceFile file ≠ "" /\ Content file ≠ "")
        /\ (SourceFile file ≠ "" -> os.Stat (SourceFile file) (root w) ≠ inl ENOENT)
        /\ (SourceURL file ≠ "" -> ParseRequestURI (SourceURL file) = true))
  /\ (forall repo groupRef,
        repo ∈ Repositories config -> groupRef ∈ Groups repo ->
        is_Some (TemplateGroups config !! TemplateGroupRef.GroupName groupRef))
  /\ root w' = root w.
Proof.
  intros Hok. pose proof (validateConfig_root config w) as Hroot.
  rewrite Hok in Hroot. revert Hok. unfold validateConfig.
  intros ([] & w1 & Hdup & Hok)%bind_Ok_inv.
  apply bind_Ok_inv in Hok as ([] & w2 & Hdup2 & Hok).
  apply bind_Ok_inv in Hok as ([] & w3 & Hfs & Hok).
  apply bind_Ok_inv in Hok as ([] & w4 & Href & Hurl).
  assert (w1 = w /\ validateDuplicateRepoNames (Repositories config) = None) as [-> Hnodup].
  { revert Hdup. unfold lift. destruct (validateDuplicateRepoNames _); [done|].
    by intros [= <-]. }
  assert (w2 = w) as ->.
  { revert Hdup2. rewrite validateDuplicateTemplateGroups_None. by intros [= <-]. }
  split; [by apply duplicateName_None in Hnodup as [? _]|].
  split; [|split; [|done]].
  - intros name files file Hgroup Hfile.
    assert ((name, files) ∈ range (TemplateGroups config)) as Hin by (by apply range_elem_of).
    assert (forall y : string * list FileStructure,
              preserves same_root ((fun '(_, fs) => forEach fs checkFileStructure) y)) as Hb1.
    { intros [n fs]. apply preserves_forEach; [apply _|]. intros f _.
      apply checkFileStructure_root. }
    assert (forall y : string * list FileStructure,
              preserves same_world ((fun '(_, fs) => forEach fs checkURLScheme) y)) as Hb2.
    { intros [n fs]. apply preserves_forEach; [apply _|]. intros f _.
      apply checkURLScheme_world. }
    destruct (forEach_Ok_between same_root (range (TemplateGroups config)) _ (name, files)
                w w3 Hb1 Hfs Hin) as (wa & wb & Ha & Hinner & _).
    destruct (forEach_Ok_between same_root files _ file wa wb checkFileStructure_root
                Hinner Hfile) as (wc & wd & Hc & Hcheck & _).
    apply checkFileStructure_Ok in Hcheck as [Hboth Hstat].
    unfold same_root in Ha, Hc. rewrite Hc, Ha in Hstat.
    split; [done|]. split; [done|]. intros Hu.
    destruct (forEach_Ok_between same_world (range (TemplateGroups config)) _ (name, files)
                w4 w' Hb2 Hurl Hin) as (we & wf & _ & Hinner' & _).
    destruct (forEach_Ok_between same_world files _ file we wf checkURLScheme_world
                Hinner' Hfile) as (wg & wh & _ & Hcheck' & _).
    revert Hcheck'. unfold checkURLScheme. rewrite bool_decide_eq_true_2 by done.
    by destruct (ParseRequestURI (SourceURL file)).
  - intros repo ref Hrepo Hr.
    pose proof (validateRepoGroupReferences_iff (Repositories config)
                  (TemplateGroups config) w3) as Hknown.
    rewrite Href in Hknown. by apply (proj1 Hknown eq_refl repo ref).
Qed.

(** X4. When [validateConfig] succeeds, the configuration is what the later
    stages rely on: the repository names are distinct, no file of a template
    group has both a source file and inline content, its source file is not
    reported missing, its URL parses, and every group a repository refers
    to exists.  The file tree is as it was. *)
Theorem validateConfig_Ok_sound config w w' :
  validateConfig config w = (Ok tt, w') ->
  NoDup (Name <$> Repositories config)
  /\ (forall name files file,
        TemplateGroups config !! name = Some files -> file ∈ files ->
        ¬ (SourceFile file ≠ "" /\ Content file ≠ "")
        /\ (SourceFile file ≠ "" -> os.Stat (SourceFile file) (root w) ≠ inl ENOENT)
        /\ (SourceURL file ≠ "" -> ParseRequestURI (SourceURL file) = true))
  /\ (forall repo groupRef,
        repo ∈ Repositories config -> groupRef ∈ Groups repo ->
        is_Some (TemplateGroups config !! TemplateGroupRef.GroupName groupRef))
  /\ root w' = root w.
Proof. apply validateConfig_Ok_inv. Qed.

Lemma bind_Err_inv {A B} (m : M A) (k : A -> M B) w e w' :
  bind m k w = (Err e, w') ->
  m w = (Err e, w') \/ exists a w1, m w = (Ok a, w1) /\ k a w1 = (Err e, w').
Proof.
  unfold bind. destruct (m w) as [[a|e0] w1]; intros H.
  - right. by exists a, w1.
  - left. by injection H as -> ->.
Qed.

Lemma wrap_Err_inv {A} msg (m : M A) w e w' :
  wrap msg m w = (Err e, w') -> exists e0, e = Errorf_w msg e0 /\ m w = (Err e0, w').
Proof.
  unfold wrap. destruct (m w) as [[a|e0] w1]; [done|]. intros [= <- <-]. eauto.
Qed.

(** X5. After a successful validation, every error of [processRepository] on a
    repository of the configuration is a wrapped one: the bare error for a
    template group that is not in the configuration cannot occur. *)
Theorem processRepository_validated_errors config w0 w0' repo outputPath w e w' :
  validateConfig config w0 = (Ok tt, w0') -> repo ∈ Repositories config ->
  processRepository repo (TemplateGroups config) outputPath w = (Err e, w') ->
  isWrapped e.
Proof.
  intros (_ & _ & Hrefs & _)%validateConfig_Ok_inv Hrepo.
  unfold processRepository.
  intros [(e0 & -> & _)%wrap_Err_inv|(_ & w1 & _ & Hrest)]%bind_Err_inv; [by eexists _, _|].
  apply bind_Err_inv in Hrest as [Hfiles|(_ & w2 & _ & Hgroups)].
  - apply forEach_Err_inv in Hfiles as (f & w2 & _ & (e0 & -> & _)%wrap_Err_inv).
    by eexists _, _.
  - apply forEach_Err_inv in Hgroups as (ref & w3 & Href & Hg).
    revert Hg. unfold processGroup.
    destruct (Hrefs repo ref Hrepo Href) as [group ->].
    intros (e0 & -> & _)%wrap_Err_inv. by eexists _, _.
Qed.

(** ** More about loading *)

Lemma readConfig_root filename templatesDir : preserves same_root (readConfig filename templatesDir).
Proof.
  unfold readConfig. apply preserves_bind; [apply _| |intros data].
  - apply preserves_wrap. intros w. unfold sys.ReadFile. by rewrite query_world.
  - destruct (Unmarshal data); [apply preserves_ret|apply preserves_fail]; apply _.
Qed.

(** X6. [readConfig] makes one system call, the read of the configuration file,
    and leaves the file tree as it was.  When the file cannot be read, or
    what was read cannot be unmarshalled, it returns the wrapped error. *)
Theorem readConfig_outcomes filename templatesDir w :
  root (readConfig filename templatesDir w).2 = root w
  /\ trace (readConfig filename templatesDir w).2 = trace w ++ [EvReadFile filename]
  /\ (forall en, os.ReadFile filename (root w) = inl en ->
                 (readConfig filename templatesDir w).1
                 = Err (Errorf_w "failed to read file" (PathError "open" filename en)))
  /\ (forall data, os.ReadFile filename (root w) = inr data -> Unmarshal data = None ->
                   (readConfig filename templatesDir w).1
                   = Err (Errorf_w "failed to unmarshal YAML" YamlError)).
Proof.
  split; [apply readConfig_root|].
  unfold readConfig, bind, wrap, sys.ReadFile, sys.checked, sys.query.
  destruct (os.ReadFile filename (root w)) as [en|data]; simpl.
  - split; [done|]. split; [by intros ? [= <-]|done].
  - destruct (Unmarshal data) eqn:Hu; simpl; (split; [done|]); split; try done.
    intros d [= <-] Hd. congruence.
Qed.

(** X7. [main] before the dispatch never changes the file tree.  A max-parallel
    of zero or less ends it before the configuration is read, without a
    system call; when it succeeds, the configuration it returns was read and
    has passed the validation. *)
Theorem startup_reads_only args w :
  ((MaxParallel args ≤ 0)%Z -> exists e, startup args w = (Err e, w))
  /\ root (startup args w).2 = root w
  /\ (forall config w',
        startup args w = (Ok config, w') ->
        (0 < MaxParallel args)%Z
        /\ exists w1, readConfig (ConfigFile args) (TemplatesDir args) w = (Ok config, w1)
                      /\ validateConfig config w1 = (Ok tt, w')).
Proof.
  unfold startup. case_bool_decide as Hp.
  - split; [by eexists|]. split; [done|]. done.
  - split; [lia|]. split.
    + assert (preserves same_root
                (do config <- wrap "Error reading config"
                                (readConfig (ConfigFile args) (TemplatesDir args));
                 run wrap "Configuration validation error" (validateConfig config);
                 ret config)) as Hpres; [|apply Hpres].
      apply preserves_bind; [apply _|apply preserves_wrap, readConfig_root|]. intros config.
      apply preserves_bind; [apply _|apply preserves_wrap, validateConfig_root|]. intros _.
      apply preserves_ret, _.
    + intros config w' (c & w1 & Hread%wrap_Ok_inv & Hrest)%bind_Ok_inv.
      apply bind_Ok_inv in Hrest as ([] & w2 & Hval%wrap_Ok_inv & [= <- <-]).
      split; [lia|]. by exists w1.
Qed.

(** ** More about the sources *)

(** X8. [downloadFileContent] makes the one request and touches no file; it
    returns the body exactly when there is a response with a status below
    400 whose body could be read. *)
Theorem downloadFileContent_outcome fileURL w :
  (downloadFileContent fileURL w).2 = logged (EvHttpGet fileURL) (root w) w
  /\ forall b, (downloadFileContent fileURL w).1 = Ok b <-> fetched (httpGet fileURL) b.
Proof.
  split; [apply download_world|]. intros b. unfold downloadFileContent, fetched.
  destruct (httpGet fileURL) as [|code status [body|]]; simpl.
  - split; [done|]. by intros (? & ? & ? & _).
  - case_bool_decide; simpl.
    + split; [done|]. intros (? & ? & [= <- _ _] & ?). lia.
    + split.
      * intros [= <-]. exists code, status. split; [done|lia].
      * by intros (? & ? & [= _ _ <-] & _).
  - case_bool_decide; simpl; (split; [done|]); by intros (? & ? & ? & _).
Qed.

Lemma download_fails fileURL :
  (forall b, ¬ fetched (httpGet fileURL) b) -> fails (downloadFileContent fileURL).
Proof.
  intros Hno w. unfold downloadFileContent.
  destruct (httpGet fileURL) as [|code status [body|]] eqn:Hget; [by eexists _, _|..].
  - case_bool_decide; [by eexists _, _|]. destruct (Hno body).
    exists code, status. split; [done|lia].
  - case_bool_decide; by eexists _, _.
Qed.

(** X9. When the source of a file cannot be had - the fetch of its URL fails, or
    its source file is not a regular file - materialization returns an
    error, does not open the destination, and creates or changes no regular
    file. *)
Theorem source_unavailable repoName file outputPath w :
  Content file = "" ->
  (SourceURL file ≠ "" /\ forall b, ¬ fetched (httpGet (SourceURL file)) b)
  \/ (SourceURL file = "" /\ SourceFile file ≠ ""
      /\ os.file_at (os.resolve (SourceFile file)) (root w) = None) ->
  let res := createFileFromTemplate repoName file outputPath w in
  (exists e, res.1 = Err e)
  /\ (forall k, os.file_at k (root res.2) = os.file_at k (root w))
  /\ only_calls (fun ev => ev = EvMkdirAll (outputDir repoName file outputPath)
                           \/ ev = EvHttpGet (SourceURL file)
                           \/ ev = EvReadFile (SourceFile file)) w res.2.
Proof.
  intros Hc Hsrc res. unfold res. clear res.
  set (dir := outputDir repoName file outputPath).
  assert (exists m : M unit,
            createFileFromTemplate repoName file outputPath
            = (run wrap "creating directory" (sys.MkdirAll dir); m)
            /\ (forall w1, os.MkdirAll dir (root w) = inr (root w1) ->
                           exists e ev, m w1 = (Err e, logged ev (root w1) w1)
                                        /\ (ev = EvHttpGet (SourceURL file)
                                            \/ ev = EvReadFile (SourceFile file))))
    as (m & -> & Hm).
  { destruct Hsrc as [[Hu Hno]|(Hu & Hs & Hat)].
    - eexists. split; [by apply createFile_url|]. intros w1 _.
      unfold bind, wrap. destruct (download_fails _ Hno w1) as (e & w2 & Hd).
      pose proof (download_world (SourceURL file) w1) as Hw. rewrite Hd in Hw.
      simpl in Hw. subst w2. rewrite Hd. eexists _, _. split; [done|by left].
    - eexists. split; [by apply createFile_local|]. intros w1 Hw1.
      assert (os.file_at (os.resolve (SourceFile file)) (root w1) = None) as Hat1.
      { by rewrite (MkdirAll_files _ _ _ _ Hw1). }
      unfold bind, wrap, sys.ReadFile, sys.checked, sys.query.
      destruct (os.ReadFile (SourceFile file) (root w1)) as [en|c] eqn:Hread.
      + eexists _, _. split; [done|by right].
      + apply ReadFile_file_at in Hread as [_ Hread]. congruence. }
  unfold bind, wrap. rewrite MkdirAll_run.
  destruct (os.MkdirAll dir (root w)) as [en|r] eqn:Hmk.
  - simpl. split; [by eexists|]. split; [done|].
    exists [EvMkdirAll dir]. split; [done|]. apply Forall_singleton. by left.
  - destruct (Hm (logged (EvMkdirAll dir) r w)) as (e & ev & -> & Hev); [done|].
    simpl. split; [by eexists|]. split; [intros k; by eapply MkdirAll_files|].
    exists [EvMkdirAll dir; ev]. split; [simpl; by rewrite <- app_assoc|].
    apply Forall_cons. split; [by left|]. apply Forall_singleton. by right.
Qed.

(** ** More about materializing one file *)

Lemma put_file_error p c c' n e : os.put_file p c n = inl e -> os.put_file p c' n = inl e.
Proof.
  revert n. induction p as [|s r IH]; intros n; simpl.
  - by destruct n.
  - destruct n as [|es]; [done|]. destruct (es !! s) as [ch|]; [|by destruct r].
    destruct (os.put_file r c ch) as [e0|n0] eqn:Hput; simpl; [|done].
    intros [= <-]. by rewrite (IH _ Hput).
Qed.

Lemma WriteFile_error p c c' n e : os.WriteFile p c n = inl e -> os.WriteFile p c' n = inl e.
Proof.
  unfold os.WriteFile, os.at_path. case_bool_decide; [done|]. apply put_file_error.
Qed.

Lemma createTemplatedFile_unopened path content vals w en :
  os.Create path (root w) = inl en ->
  createTemplatedFile path content vals w
  = (Err (Errorf_w "creating file" (PathError "open" path en)),
     logged (EvCreate path) (root w) w).
Proof.
  intros Hc. unfold createTemplatedFile, bind, wrap, sys.Create, sys.checked, sys.update.
  by rewrite Hc.
Qed.

(** X10. [createTemplatedFile] opens the file before it parses: when the file
    cannot be opened, the error is returned with the file tree as it was;
    when the template parses and executes, the file holds the output,
    whatever it held before, and no other regular file has changed. *)
Theorem createTemplatedFile_outcomes path content vals w :
  (forall en, os.Create path (root w) = inl en ->
              createTemplatedFile path content vals w
              = (Err (Errorf_w "creating file" (PathError "open" path en)),
                 logged (EvCreate path) (root w) w))
  /\ (forall r tmpl out,
        os.Create path (root w) = inr r -> Parse content = Some tmpl ->
        Execute tmpl vals = (out, true) ->
        exists w', createTemplatedFile path content vals w = (Ok tt, w')
                   /\ os.ReadFile path (root w') = inr out
                   /\ (forall k, k ≠ os.resolve path ->
                                 os.file_at k (root w') = os.file_at k (root w))
                   /\ trace w' = trace w ++ [EvCreate path; EvWrite path out]).
Proof.
  split; [intros en; apply createTemplatedFile_unopened|].
  intros r tmpl out Hcreate Hparse Hexec.
  rewrite (createTemplatedFile_opened _ _ _ _ _ Hcreate), Hparse, Hexec.
  destruct (Create_then_WriteFile _ out _ _ Hcreate) as (r' & Hw & Hread).
  eexists. split; [done|]. rewrite root_logged, Hw. split; [done|]. split.
  - intros k Hk. simpl. rewrite (WriteFile_other _ _ _ _ _ Hk Hw).
    by apply (WriteFile_other k path "" (root w) r).
  - simpl. by rewrite <- app_assoc.
Qed.

Lemma createFile_url_run repoName file outputPath w w1 c :
  Content file = "" -> SourceURL file ≠ "" ->
  sys.MkdirAll (outputDir repoName file outputPath) w = (Ok tt, w1) ->
  fetched (httpGet (SourceURL file)) c ->
  createFileFromTemplate repoName file outputPath w
  = orElse (createTemplatedFile (fullPath repoName file outputPath) c (Values file))
           (copyContentToFile c (fullPath repoName file outputPath))
           (logged (EvHttpGet (SourceURL file)) (root w1) w1).
Proof.
  intros Hc Hu Hmk (code & status & Hget & Hcode).
  rewrite createFile_url by done. erewrite bind_Ok by (apply wrap_Ok, Hmk).
  unfold bind, wrap, downloadFileContent. rewrite Hget.
  by rewrite bool_decide_eq_false_2 by lia.
Qed.

Lemma createFile_local_run repoName file outputPath w w1 c :
  Content file = "" -> SourceURL file = "" -> SourceFile file ≠ "" ->
  sys.MkdirAll (outputDir repoName file outputPath) w = (Ok tt, w1) ->
  os.ReadFile (SourceFile file) (root w1) = inr c ->
  createFileFromTemplate repoName file outputPath w
  = orElse (createTemplatedFile (fullPath repoName file outputPath) c (Values file))
           (copyFile (SourceFile file) (fullPath repoName file outputPath))
           (logged (EvReadFile (SourceFile file)) (root w1) w1).
Proof.
  intros Hc Hu Hs Hmk Hread.
  rewrite createFile_local by done. erewrite bind_Ok by (apply wrap_Ok, Hmk).
  unfold bind, wrap, sys.ReadFile, sys.checked, sys.query. by rewrite Hread.
Qed.

Lemma createTemplatedFile_rendered path content vals w r tmpl out :
  os.Create path (root w) = inr r -> Parse content = Some tmpl ->
  Execute tmpl vals = (out, true) ->
  exists w', createTemplatedFile path content vals w = (Ok tt, w')
             /\ os.ReadFile path (root w') = inr out
             /\ trace w' = trace w ++ [EvCreate path; EvWrite path out].
Proof.
  intros Hcreate Hparse Hexec.
  rewrite (createTemplatedFile_opened _ _ _ _ _ Hcreate), Hparse, Hexec.
  destruct (Create_then_WriteFile _ out _ _ Hcreate) as (r' & Hw & Hread).
  eexists. split; [done|]. rewrite root_logged, Hw. split; [done|].
  simpl. by rewrite <- app_assoc.
Qed.

(** C9. The source of a file is chosen by a fixed priority, and the chosen
    source is the one that is used.  With a non-empty inline content the
    call is the call on the file with the other two sources blanked, nothing
    is fetched or read, and the content is what is rendered.  With empty
    content and a non-empty URL, the call is the call with the source file
    blanked, no file is read, the URL is fetched and its body is what is
    rendered.  With both empty and a source file, nothing is fetched, the
    file is read and its content is what is rendered.  Rendered: when the
    directory and the destination can be made and the text parses and
    executes, the call succeeds, the destination holds the output of that
    text, and the calls made after [MkdirAll] are the fetch or the read, if
    any, then one [Create] and one [Write]. *)
Theorem source_priority repoName file outputPath :
  let dst := fullPath repoName file outputPath in
  let ready w w1 :=
    sys.MkdirAll (outputDir repoName file outputPath) w = (Ok tt, w1)
    /\ exists r, os.Create dst (root w1) = inr r in
  let runs text out :=
    exists tmpl, Parse text = Some tmpl /\ Execute tmpl (Values file) = (out, true) in
  let rendered w w1 out calls :=
    exists w', createFileFromTemplate repoName file outputPath w = (Ok tt, w')
               /\ os.ReadFile dst (root w') = inr out
               /\ trace w' = trace w1 ++ calls ++ [EvCreate dst; EvWrite dst out] in
  (Content file ≠ "" ->
     createFileFromTemplate repoName file outputPath
     = createFileFromTemplate repoName (inlineOnly file) outputPath
     /\ preserves (only_calls (fun ev => ¬ isFetch ev /\ ¬ isRead ev))
                  (createFileFromTemplate repoName file outputPath)
     /\ forall w w1 out, ready w w1 -> runs (Content file) out -> rendered w w1 out [])
  /\ (Content file = "" -> SourceURL file ≠ "" ->
        createFileFromTemplate repoName file outputPath
        = createFileFromTemplate repoName (withoutSourceFile file) outputPath
        /\ preserves (only_calls (fun ev => ¬ isRead ev))
                     (createFileFromTemplate repoName file outputPath)
        /\ forall w w1 c out,
             ready w w1 -> fetched (httpGet (SourceURL file)) c -> runs c out ->
             rendered w w1 out [EvHttpGet (SourceURL file)])
  /\ (Content file = "" -> SourceURL file = "" -> SourceFile file ≠ "" ->
        preserves (only_calls (fun ev => ¬ isFetch ev))
                  (createFileFromTemplate repoName file outputPath)
        /\ forall w w1 c out,
             ready w w1 -> os.ReadFile (SourceFile file) (root w1) = inr c -> runs c out ->
             rendered w w1 out [EvReadFile (SourceFile file)]).
Proof.
  intros dst ready runs rendered. subst dst ready runs rendered. cbv beta.
  assert (forall P : event -> Prop, (forall p, P (EvMkdirAll p)) ->
            preserves (only_calls P)
              (wrap "creating directory" (sys.MkdirAll (outputDir repoName file outputPath))))
    as Hmk.
  { intros P HP. apply preserves_wrap. by apply only_calls_update. }
  assert (forall (P : event -> Prop) c,
            (forall p, P (EvCreate p)) -> (forall p o, P (EvWrite p o)) ->
            preserves (only_calls P)
              (createTemplatedFile (fullPath repoName file outputPath) c (Values file)))
    as Htmpl.
  { intros P c HC HW. apply preserves_createTemplatedFile; [apply _| |].
    - by apply only_calls_update.
    - intros o. by apply only_calls_Write. }
  split; [|split].
  - intros Hc. split; [|split].
    + rewrite !createFile_inline by done. done.
    + rewrite createFile_inline by done.
      apply preserves_bind; [apply _| |intros _].
      * apply Hmk. intros p. split; by intros [? [=]].
      * apply Htmpl; intros; split; by intros [? [=]].
    + intros w w1 out [Hmkdir [r Hcreate]] (tmpl & Hparse & Hexec).
      rewrite createFile_inline by done. erewrite bind_Ok by (apply wrap_Ok, Hmkdir).
      destruct (createTemplatedFile_rendered _ _ _ _ _ _ _ Hcreate Hparse Hexec)
        as (w' & Hrun & Hread & Htrace).
      exists w'. by rewrite Hrun.
  - intros Hc Hu. split; [|split].
    + rewrite !createFile_url by done. done.
    + rewrite createFile_url by done.
      apply preserves_bind; [apply _| |intros _].
      { apply Hmk. intros p. by intros [? [=]]. }
      apply preserves_bind; [apply _| |intros c].
      { apply preserves_wrap, only_calls_download. by intros [? [=]]. }
      apply preserves_orElse; [apply _| |].
      * apply Htmpl; intros; by intros [? [=]].
      * apply only_calls_update. by intros [? [=]].
    + intros w w1 c out [Hmkdir [r Hcreate]] Hget (tmpl & Hparse & Hexec).
      rewrite (createFile_url_run _ _ _ _ w1 c) by done. unfold orElse.
      destruct (createTemplatedFile_rendered (fullPath repoName file outputPath) c
                  (Values file) (logged (EvHttpGet (SourceURL file)) (root w1) w1)
                  r tmpl out Hcreate Hparse Hexec) as (w' & Hrun & Hread & Htrace).
      exists w'. rewrite Hrun. split; [done|]. split; [done|].
      rewrite Htrace. simpl. by rewrite <- app_assoc.
  - intros Hc Hu Hs. split.
    + rewrite createFile_local by done.
      apply preserves_bind; [apply _| |intros _].
      { apply Hmk. intros p. by intros [? [=]]. }
      apply preserves_bind; [apply _| |intros c].
      { apply preserves_wrap, only_calls_query. by intros [? [=]]. }
      apply preserves_orElse; [apply _| |].
      * apply Htmpl; intros; by intros [? [=]].
      * unfold copyFile. apply preserves_bind; [apply _| |intros c'].
        -- apply preserves_wrap, only_calls_query. by intros [? [=]].
        -- apply preserves_wrap, only_calls_update. by intros [? [=]].
    + intros w w1 c out [Hmkdir [r Hcreate]] Hsrc (tmpl & Hparse & Hexec).
      rewrite (createFile_local_run _ _ _ _ w1 c) by done. unfold orElse.
      destruct (createTemplatedFile_rendered (fullPath repoName file outputPath) c
                  (Values file) (logged (EvReadFile (SourceFile file)) (root w1) w1)
                  r tmpl out Hcreate Hparse Hexec) as (w' & Hrun & Hread & Htrace).
      exists w'. rewrite Hrun. split; [done|]. split; [done|].
      rewrite Htrace. simpl. by rewrite <- app_assoc.
Qed.


(** X11. When the content of a file parses and executes as a template, the
    destination holds the output of the template (for a URL or a source
    file: not the raw content), the call succeeds, and the fallback copy is
    not made: the destination is opened and written once. *)
Theorem createFileFromTemplate_renders repoName file outputPath w w1 r tmpl out :
  sys.MkdirAll (outputDir repoName file outputPath) w = (Ok tt, w1) ->
  os.Create (fullPath repoName file outputPath) (root w1) = inr r ->
  Execute tmpl (Values file) = (out, true) ->
  let dst := fullPath repoName file outputPath in
  let rendered calls :=
    exists w', createFileFromTemplate repoName file outputPath w = (Ok tt, w')
               /\ os.ReadFile dst (root w') = inr out
               /\ trace w' = trace w1 ++ calls ++ [EvCreate dst; EvWrite dst out] in
  (Content file ≠ "" -> Parse (Content file) = Some tmpl -> rendered [])
  /\ (forall c, Content file = "" -> SourceURL file ≠ "" ->
                fetched (httpGet (SourceURL file)) c -> Parse c = Some tmpl ->
                rendered [EvHttpGet (SourceURL file)])
  /\ (forall c, Content file = "" -> SourceURL file = "" -> SourceFile file ≠ "" ->
                os.ReadFile (SourceFile file) (root w1) = inr c -> Parse c = Some tmpl ->
                rendered [EvReadFile (SourceFile file)]).
Proof.
  intros Hmk Hcreate Hexec dst rendered. subst rendered dst. cbv beta.
  destruct (Create_then_WriteFile _ out _ _ Hcreate) as (r' & Hw & Hread).
  split; [|split].
  - intros Hc Hparse. rewrite createFile_inline by done.
    erewrite bind_Ok by (apply wrap_Ok, Hmk).
    rewrite (createTemplatedFile_opened _ _ _ _ r) by done. rewrite Hparse, Hexec.
    eexists. split; [done|]. rewrite root_logged, Hw.
    split; [done|]. simpl. by rewrite <- app_assoc.
  - intros c Hc Hu Hget Hparse. rewrite (createFile_url_run _ _ _ _ w1 c) by done.
    unfold orElse. rewrite (createTemplatedFile_opened _ _ _ _ r) by done.
    rewrite Hparse, Hexec. eexists. split; [done|]. rewrite root_logged. rewrite Hw. split; [done|]. simpl. by rewrite <- !app_assoc.
  - intros c Hc Hu Hs Hsrc Hparse. rewrite (createFile_local_run _ _ _ _ w1 c) by done.
    unfold orElse. rewrite (createTemplatedFile_opened _ _ _ _ r) by done.
    rewrite Hparse, Hexec. eexists. split; [done|]. rewrite root_logged. rewrite Hw. split; [done|]. simpl. by rewrite <- !app_assoc.
Qed.

(** X12. The fallback is also taken when the template parses but its execution
    fails: the raw content of a URL, and of a source file that is not the
    destination itself, replaces what the execution had written, and the
    call succeeds. *)
Theorem fallback_on_execution_error repoName file outputPath w w1 r tmpl out :
  sys.MkdirAll (outputDir repoName file outputPath) w = (Ok tt, w1) ->
  os.Create (fullPath repoName file outputPath) (root w1) = inr r ->
  Execute tmpl (Values file) = (out, false) ->
  (forall c, Content file = "" -> SourceURL file ≠ "" ->
             fetched (httpGet (SourceURL file)) c -> Parse c = Some tmpl ->
             exists w', createFileFromTemplate repoName file outputPath w = (Ok tt, w')
                        /\ os.ReadFile (fullPath repoName file outputPath) (root w') = inr c)
  /\ (forall c, Content file = "" -> SourceURL file = "" -> SourceFile file ≠ "" ->
                os.ReadFile (SourceFile file) (root w1) = inr c -> Parse c = Some tmpl ->
                os.resolve (SourceFile file) ≠ os.resolve (fullPath repoName file outputPath) ->
                exists w', createFileFromTemplate repoName file outputPath w = (Ok tt, w')
                           /\ os.ReadFile (fullPath repoName file outputPath) (root w') = inr c).
Proof.
  intros Hmk Hcreate Hexec.
  destruct (Create_then_WriteFile _ out _ _ Hcreate) as (r1 & Hw1 & _).
  assert (forall c, exists r2, os.WriteFile (fullPath repoName file outputPath) c r1 = inr r2
                               /\ os.ReadFile (fullPath repoName file outputPath) r2 = inr c)
    as Hagain.
  { intros c. apply WriteFile_put in Hw1 as [Hp Hput].
    destruct (put_file_again _ _ c _ _ Hput) as [r2 Hr2]. exists r2.
    split; [by apply WriteFile_put|]. apply ReadFile_file_at. split; [done|].
    by eapply put_file_read. }
  split.
  - intros c Hc Hu Hget Hparse. rewrite (createFile_url_run _ _ _ _ w1 c) by done.
    unfold orElse. rewrite (createTemplatedFile_opened _ _ _ _ r) by done.
    rewrite Hparse, Hexec, Hw1.
    unfold copyContentToFile, sys.WriteFile, sys.checked, sys.update. rewrite root_logged.
    destruct (Hagain c) as (r2 & -> & Hread). eexists. split; [done|]. done.
  - intros c Hc Hu Hs Hsrc Hparse Hne. rewrite (createFile_local_run _ _ _ _ w1 c) by done.
    unfold orElse. rewrite (createTemplatedFile_opened _ _ _ _ r) by done.
    rewrite Hparse, Hexec, Hw1.
    assert (os.ReadFile (SourceFile file) r1 = inr c) as Hsrc1.
    { apply ReadFile_file_at in Hsrc as [Hp Hat]. apply ReadFile_file_at. split; [done|].
      rewrite <- Hat. rewrite (WriteFile_other _ _ out r r1 Hne Hw1).
      exact (WriteFile_other _ _ "" (root w1) r Hne Hcreate). }
    unfold copyFile, bind, wrap, sys.ReadFile, sys.WriteFile, sys.checked, sys.query,
      sys.update. rewrite !root_logged, Hsrc1. rewrite !root_logged.
    destruct (Hagain c) as (r2 & -> & Hread). eexists. split; [done|]. done.
Qed.

(** X13. When the destination cannot be opened, no source helps: the call
    returns the error of the open, or of the fallback write that fails in
    the same way, and the file tree is left as the [MkdirAll] made it. *)
Theorem destination_unwritable repoName file outputPath w w1 en :
  sys.MkdirAll (outputDir repoName file outputPath) w = (Ok tt, w1) ->
  os.Create (fullPath repoName file outputPath) (root w1) = inl en ->
  let dst := fullPath repoName file outputPath in
  let res := createFileFromTemplate repoName file outputPath w in
  (Content file ≠ "" ->
     res.1 = Err (Errorf_w "creating file" (PathError "open" dst en)) /\ root res.2 = root w1)
  /\ (forall c, Content file = "" -> SourceURL file ≠ "" ->
                fetched (httpGet (SourceURL file)) c ->
                res.1 = Err (PathError "open" dst en) /\ root res.2 = root w1)
  /\ (forall c, Content file = "" -> SourceURL file = "" -> SourceFile file ≠ "" ->
                os.ReadFile (SourceFile file) (root w1) = inr c ->
                res.1 = Err (Errorf_w "writing copied file" (PathError "open" dst en))
                /\ root res.2 = root w1).
Proof.
  intros Hmk Hcreate dst res. unfold res. clear res.
  split; [|split].
  - intros Hc. rewrite createFile_inline by done.
    erewrite bind_Ok by (apply wrap_Ok, Hmk).
    by rewrite (createTemplatedFile_unopened _ _ _ _ en).
  - intros c Hc Hu Hget. rewrite (createFile_url_run _ _ _ _ w1 c) by done.
    unfold orElse. rewrite (createTemplatedFile_unopened _ _ _ _ en) by done.
    unfold copyContentToFile, sys.WriteFile, sys.checked, sys.update.
    rewrite !root_logged. by rewrite (WriteFile_error _ "" c _ _ Hcreate).
  - intros c Hc Hu Hs Hsrc. rewrite (createFile_local_run _ _ _ _ w1 c) by done.
    unfold orElse. rewrite (createTemplatedFile_unopened _ _ _ _ en) by done.
    unfold copyFile, bind, wrap, sys.ReadFile, sys.WriteFile, sys.checked, sys.query,
      sys.update. rewrite !root_logged, Hsrc. rewrite !root_logged.
    by rewrite (WriteFile_error _ "" c _ _ Hcreate).
Qed.

(** X14. A call of [createFileFromTemplate] makes no system call but these:
    [MkdirAll] on its directory, opening and writing its destination,
    reading its source file and fetching its URL.  It never removes
    anything and never looks at another path. *)
Theorem createFileFromTemplate_own_calls repoName file outputPath :
  preserves (only_calls (ownCall repoName file outputPath))
            (createFileFromTemplate repoName file outputPath).
Proof.
  apply preserves_createFileFromTemplate; try apply _; intros;
    first [ apply only_calls_update | apply only_calls_query
          | apply only_calls_Write | apply only_calls_download ]; unfold ownCall.
  - by left.
  - right. by left.
  - right. right. left. by eexists.
  - right. right. right. left. by eexists.
  - right. right. right. right. by left.
  - right. right. right. right. by right.
Qed.

(** X15. Whatever it returns, a call of [createFileFromTemplate] leaves every
    regular file other than its destination with the content it had, and
    removes no regular file. *)
Theorem createFileFromTemplate_frame repoName file outputPath w k :
  (k ≠ os.resolve (fullPath repoName file outputPath) ->
   os.file_at k (root (createFileFromTemplate repoName file outputPath w).2)
   = os.file_at k (root w))
  /\ (is_Some (os.file_at k (root w)) ->
      is_Some (os.file_at k (root (createFileFromTemplate repoName file outputPath w).2))).
Proof.
  split.
  - intros Hk. by apply createFile_frame.
  - apply createFile_keeps.
Qed.

(** X16. [copyFile] reads the source before it opens the destination: when the
    source cannot be read the file tree is left as it was; when both calls
    succeed the destination holds the content the source had, and every
    other regular file is as before. *)
Theorem copyFile_outcomes src dst w :
  (forall en, os.ReadFile src (root w) = inl en ->
              (copyFile src dst w).1
              = Err (Errorf_w "reading source file for copy" (PathError "open" src en))
              /\ root (copyFile src dst w).2 = root w)
  /\ (forall c, os.ReadFile src (root w) = inr c -> (copyFile src dst w).1 = Ok tt ->
                os.ReadFile dst (root (copyFile src dst w).2) = inr c
                /\ forall k, k ≠ os.resolve dst ->
                             os.file_at k (root (copyFile src dst w).2) = os.file_at k (root w)).
Proof.
  unfold copyFile, bind, wrap, sys.ReadFile, sys.WriteFile, sys.checked, sys.query, sys.update.
  split.
  - intros en ->. done.
  - intros c ->. rewrite root_logged.
    destruct (os.WriteFile dst c (root w)) as [en|r] eqn:Hw; simpl; [done|].
    intros _. split.
    + apply WriteFile_put in Hw as [Hp Hput]. apply ReadFile_file_at.
      split; [done|]. by eapply put_file_read.
    + intros k Hk. by eapply WriteFile_other.
Qed.

(** ** More about the reset *)

(** X17. The reset removes nothing outside the directory it is given: whatever it
    returns, a regular file that is not at or below that path is as
    before. *)
Theorem deleteExistingDir_frame dirPath w k :
  ¬ os.resolve dirPath `prefix_of` k ->
  os.file_at k (root (deleteExistingDir dirPath w).2) = os.file_at k (root w).
Proof.
  intros Hk. rewrite deleteExistingDir_run.
  pose proof (RemoveAll_other dirPath (root w) k Hk) as Hrm.
  destruct (os.Stat dirPath (root w)) as [[]|n]; try done;
    by destruct (os.RemoveAll dirPath (root w)) as [[[[op path] en]|] r].
Qed.

(** X18. After a successful reset of a directory with a name, the directory does
    not exist, and a second reset finds nothing to do: it makes the [Stat]
    call only. *)
Theorem deleteExistingDir_resets dirPath w w' :
  deleteExistingDir dirPath w = (Ok tt, w') -> dirPath ≠ "" ->
  os.Stat dirPath (root w') = inl ENOENT
  /\ deleteExistingDir dirPath w' = (Ok tt, logged (EvStat dirPath) (root w') w').
Proof.
  intros Hdel Hne. destruct (deleteExistingDir_Ok_inv _ _ _ Hdel Hne) as [Habsent _].
  split; [done|]. by apply deleteExistingDir_absent.
Qed.

(** X19. The reset fails only in [RemoveAll], on a path that [Stat] did not
    report as missing, and its error wraps the one [RemoveAll] returned.  A
    failed reset has created and changed no regular file.  The tree is as
    it was when the path ends in a dot, which [RemoveAll] refuses, or when a
    regular file is on the way or at the path; otherwise the path names a
    directory that cannot be removed, the root or one named by [.], [..] or
    [/] as its last element, and that directory has been emptied before
    the error comes back. *)
Theorem deleteExistingDir_error dirPath w e w' :
  deleteExistingDir dirPath w = (Err e, w') ->
  os.Stat dirPath (root w) ≠ inl ENOENT
  /\ (forall k c, os.file_at k (root w') = Some c -> os.file_at k (root w) = Some c)
  /\ exists op path en,
       os.RemoveAll dirPath (root w) = (Some (op, path, en), root w')
       /\ e = Errorf_w ("failed to delete existing directory '" +:+ dirPath +:+ "'")
                (PathError op path en)
       /\ ((root w' = root w
            /\ (os.endsWithDot dirPath = true /\ op = "RemoveAll" /\ path = dirPath
                  /\ en = EINVAL
                \/ os.Stat dirPath (root w) = inl ENOTDIR
                \/ exists c, os.Stat dirPath (root w) = inr (File c)))
           \/ (exists es, os.Stat dirPath (root w) = inr (Dir es) /\ op = "unlinkat"
                          /\ root w' = os.clear_all (os.resolve dirPath) (root w)
                          /\ forall q, os.file_at (os.resolve dirPath ++ q) (root w')
                                       = None)).
Proof.
  rewrite deleteExistingDir_run. intros Hrun.
  assert (os.Stat dirPath (root w) ≠ inl ENOENT
          /\ exists op path en,
               os.RemoveAll dirPath (root w) = (Some (op, path, en), root w')
               /\ e = Errorf_w ("failed to delete existing directory '" +:+ dirPath +:+ "'")
                        (PathError op path en)) as (Hst & op & path & en & Hr & ->).
  { destruct (os.Stat dirPath (root w)) as [[]|n]; try done;
      destruct (os.RemoveAll dirPath (root w)) as [[[[op path] en]|] r]; try done;
      injection Hrun as <- <-; (split; [done|]); by exists op, path, en. }
  split; [done|]. split.
  - intros k c. pose proof (RemoveAll_sub dirPath (root w) k c) as H. by rewrite Hr in H.
  - exists op, path, en. split; [done|]. split; [done|]. by apply RemoveAll_Err_inv.
Qed.

(** ** More about the value merger *)

(** X20. The keys of the merged map are those of the two maps; merging the same
    group values again changes nothing, and overriding twice is overriding
    with the merged overrides; merging with a nil map copies the other. *)
Theorem mergeValues_algebra :
  (forall g f, dom (mergeValues g f) = dom (default ∅ g) ∪ dom (default ∅ f))
  /\ (forall g f, mergeValues g (Some (mergeValues g f)) = mergeValues g f)
  /\ (forall g1 g2 f, mergeValues g1 (Some (mergeValues g2 f))
                      = mergeValues (Some (mergeValues g1 g2)) f)
  /\ (forall f, mergeValues None (Some f) = f)
  /\ (forall g, mergeValues (Some g) None = g).
Proof.
  repeat split; intros; rewrite ?mergeValues_union; simpl.
  - apply dom_union_L.
  - by rewrite (assoc_L (∪)), (idemp_L (∪)).
  - by rewrite (assoc_L (∪)).
  - by rewrite (left_id_L ∅ (∪)).
  - by rewrite (right_id_L ∅ (∪)).
Qed.

(** ** More about processing a repository *)

(** X21. A reference to a group that is not in the configuration is met only
    when its turn comes: the direct files and the groups before it have
    been written by then and stay; the later groups are not attempted. *)
Theorem processRepository_unknown_group repo globalGroups outputPath
    w w0 w1 gpre groupRef gpost w2 :
  deleteExistingDir (filepath.Join [outputPath; Name repo]) w = (Ok tt, w0) ->
  forEach (Files repo) (fun file => createFileFromTemplate (Name repo) file outputPath) w0
  = (Ok tt, w1) ->
  Groups repo = gpre ++ groupRef :: gpost ->
  forEach gpre (processGroup (Name repo) globalGroups outputPath) w1 = (Ok tt, w2) ->
  globalGroups !! TemplateGroupRef.GroupName groupRef = None ->
  processRepository repo globalGroups outputPath w
  = (Err (Errorf ("template group " +:+ TemplateGroupRef.GroupName groupRef
                    +:+ " not found in configuration")), w2).
Proof.
  intros Hreset Hfiles Hgroups Hgpre Hnone.
  rewrite processRepository_materialize. erewrite bind_Ok by (apply wrap_Ok, Hreset).
  unfold materialize. erewrite bind_Ok by (by apply forEach_wrap_Ok).
  rewrite Hgroups. eapply forEach_app_fail; [done|].
  unfold processGroup. by rewrite Hnone.
Qed.

(** X22. The values of the group reference reach the template engine over the
    file's own: an inline file of a group is executed on the merged values,
    and the destination holds the output of that execution. *)
Theorem processGroup_merged_values repoName globalGroups outputPath groupRef file w w1 r tmpl :
  globalGroups !! TemplateGroupRef.GroupName groupRef = Some [file] ->
  Content file ≠ "" -> Parse (Content file) = Some tmpl ->
  sys.MkdirAll (outputDir repoName file outputPath) w = (Ok tt, w1) ->
  os.Create (fullPath repoName file outputPath) (root w1) = inr r ->
  let merged := Some (mergeValues (TemplateGroupRef.Values groupRef) (Values file)) in
  let res := processGroup repoName globalGroups outputPath groupRef w in
  os.ReadFile (fullPath repoName file outputPath) (root res.2)
  = inr (Execute tmpl merged).1
  /\ (res.1 = Ok tt <-> (Execute tmpl merged).2 = true).
Proof.
  intros Hg Hc Hparse Hmk Hcreate merged res. subst res.
  unfold processGroup. rewrite Hg.
  unfold generateFilesFromTemplate, expandGroup. simpl. fold merged.
  unfold bind, wrap.
  rewrite (createFile_inline_run repoName (withValues merged file)) by done.
  change (outputDir repoName (withValues merged file) outputPath)
    with (outputDir repoName file outputPath).
  change (fullPath repoName (withValues merged file) outputPath)
    with (fullPath repoName file outputPath).
  apply update_Ok in Hmk as (r1 & Hr1 & ->). rewrite Hr1.
  rewrite (createTemplatedFile_opened _ _ _ _ r) by done. simpl.
  rewrite Hparse. destruct (Execute tmpl merged) as [out fin].
  destruct (Create_then_WriteFile _ out _ _ Hcreate) as (r' & -> & Hread).
  destruct fin; simpl; split; done.
Qed.

(** X23. A repository without files and without groups gets no output
    directory: the run is the reset alone, and after it the directory does
    not exist. *)
Theorem processRepository_nothing_to_do repo globalGroups outputPath w :
  Files repo = [] -> Groups repo = [] ->
  let d := filepath.Join [outputPath; Name repo] in
  processRepository repo globalGroups outputPath w
  = wrap ("error clearing output directory for repo " +:+ Name repo) (deleteExistingDir d) w
  /\ ((processRepository repo globalGroups outputPath w).1 = Ok tt -> d ≠ "" ->
      os.Stat d (root (processRepository repo globalGroups outputPath w).2) = inl ENOENT).
Proof.
  intros Hf Hg d.
  assert (processRepository repo globalGroups outputPath w
          = wrap ("error clearing output directory for repo " +:+ Name repo)
                 (deleteExistingDir d) w) as ->.
  { unfold processRepository, bind. rewrite Hf, Hg. fold d. simpl.
    by destruct (wrap _ (deleteExistingDir d) w) as [[[]|e] w1]. }
  split; [done|]. unfold wrap.
  destruct (deleteExistingDir d w) as [[[]|e] w1] eqn:Hdel; [|done].
  intros _ Hd. by eapply deleteExistingDir_Ok_inv.
Qed.

(** ** The dispatch *)

(** X24. Without a repository on the command line every repository is
    processed, in order; with one, exactly those of that name: at most one
    when the names are distinct, and none - without an error - when no
    repository has that name. *)
Theorem selected_repositories args config :
  (Repo args = "" -> selected args config = Repositories config)
  /\ (forall rc, rc ∈ selected args config <->
                 rc ∈ Repositories config /\ (Repo args = "" \/ Name rc = Repo args))
  /\ (Repo args ≠ "" -> NoDup (Name <$> Repositories config) ->
      (length (selected args config) ≤ 1)%nat)
  /\ (Repo args ≠ "" -> (forall rc, rc ∈ Repositories config -> Name rc ≠ Repo args) ->
      selected args config = []).
Proof.
  unfold selected, skipped.
  assert (forall rc,
            negb (bool_decide (Repo args ≠ "") && bool_decide (Name rc ≠ Repo args)) = true
            <-> Repo args = "" \/ Name rc = Repo args) as Hsel.
  { intros rc. rewrite negb_true_iff, andb_false_iff, !bool_decide_eq_false.
    split; intros [H|H].
    - left. by apply dec_stable.
    - right. by apply dec_stable.
    - left. by intros ?.
    - right. by intros ?. }
  split; [|split; [|split]].
  - intros Hr. induction (Repositories config) as [|rc l IH]; [done|]. simpl.
    rewrite (proj2 (Hsel rc)) by (by left). by rewrite IH.
  - intros rc. rewrite list_elem_of_In, filter_In, <- list_elem_of_In. by rewrite Hsel.
  - intros Hr. induction (Repositories config) as [|rc l IH]; intros Hnd; [simpl; lia|].
    rewrite fmap_cons in Hnd. apply NoDup_cons in Hnd as [Hnotin Hnd]. simpl.
    destruct (negb _) eqn:Hrc; [|by apply IH].
    apply Hsel in Hrc as [?|Hname]; [done|].
    assert (List.filter
              (fun r => negb (bool_decide (Repo args ≠ "") && bool_decide (Name r ≠ Repo args)))
              l = []) as ->; [|simpl; lia].
    clear IH Hnd. induction l as [|r l IH]; [done|]. simpl.
    destruct (negb _) eqn:Hr'.
    + apply Hsel in Hr' as [?|Hname']; [done|]. destruct Hnotin.
      rewrite fmap_cons, Hname, <- Hname'. left.
    + apply IH. intros Hin. apply Hnotin. rewrite fmap_cons. by right.
  - intros Hr Hnone. induction (Repositories config) as [|rc l IH]; [done|]. simpl.
    destruct (negb _) eqn:Hrc.
    + apply Hsel in Hrc as [?|Hname]; [done|]. destruct (Hnone rc); [left|done].
    + apply IH. intros r Hin. apply Hnone. by right.
Qed.

Lemma deleteExistingDir_calls dirPath w :
  exists evs, trace (deleteExistingDir dirPath w).2 = trace w ++ EvStat dirPath :: evs.
Proof.
  rewrite deleteExistingDir_run.
  destruct (os.Stat dirPath (root w)) as [[]|n];
    try (by exists []);
    destruct (os.RemoveAll dirPath (root w)) as [[[[op path] en]|] r];
    exists [EvRemoveAll dirPath]; simpl; by rewrite <- app_assoc.
Qed.

Lemma processRepository_calls repo globalGroups outputPath w :
  exists evs, trace (processRepository repo globalGroups outputPath w).2
              = trace w ++ EvStat (filepath.Join [outputPath; Name repo]) :: evs.
Proof.
  rewrite processRepository_materialize. unfold bind, wrap.
  set (d := filepath.Join [outputPath; Name repo]).
  destruct (deleteExistingDir_calls d w) as (evs0 & Hevs0).
  destruct (deleteExistingDir d w) as [[[]|e] w1]; simpl in *; [|by exists evs0].
  destruct (preserves_materialize (only_calls (fun _ => True)) repo globalGroups outputPath
              (fun f _ _ _ => only_calls_createFile _ _ f _ (fun _ _ => I)) w1)
    as (evs & Hevs & _).
  exists (evs0 ++ evs). rewrite Hevs, Hevs0, <- app_assoc. done.
Qed.

(** X25. With one repository at a time, a failure does not stop the loop: the
    reset of every repository is attempted, in whatever state the earlier
    ones ended, and what is logged are errors of repositories of the list,
    at most one for each: the names logged are the names of the
    repositories with some left out, in the order of the list, so with
    distinct repository names no name is logged twice. *)
Theorem dispatch_isolates repos globalGroups outputPath w :
  (forall rc, rc ∈ repos ->
              EvStat (filepath.Join [outputPath; Name rc])
              ∈ trace (dispatch repos globalGroups outputPath w).2)
  /\ (forall name e, (name, e) ∈ (dispatch repos globalGroups outputPath w).1 ->
                     exists rc w1 w2, rc ∈ repos /\ Name rc = name
                                      /\ processRepository rc globalGroups outputPath w1
                                         = (Err e, w2))
  /\ (dispatch repos globalGroups outputPath w).1.*1 `sublist_of` (Name <$> repos)
  /\ (NoDup (Name <$> repos) -> NoDup (dispatch repos globalGroups outputPath w).1.*1).
Proof.
  cut ((forall rc, rc ∈ repos ->
                   EvStat (filepath.Join [outputPath; Name rc])
                   ∈ trace (dispatch repos globalGroups outputPath w).2)
       /\ (forall name e, (name, e) ∈ (dispatch repos globalGroups outputPath w).1 ->
                          exists rc w1 w2, rc ∈ repos /\ Name rc = name
                                           /\ processRepository rc globalGroups outputPath w1
                                              = (Err e, w2))
       /\ (dispatch repos globalGroups outputPath w).1.*1 `sublist_of` (Name <$> repos)).
  { intros (H1 & H2 & H3). split; [done|]. split; [done|]. split; [done|].
    intros Hnd. by eapply sublist_NoDup. }
  assert (forall l w0, exists evs, trace (dispatch l globalGroups outputPath w0).2
                                   = trace w0 ++ evs) as Hgrow.
  { induction l as [|rc l IH]; intros w0; simpl; [exists []; by rewrite app_nil_r|].
    destruct (processRepository_calls rc globalGroups outputPath w0) as (evs & Hevs).
    destruct (processRepository rc globalGroups outputPath w0) as [r w1]. simpl in Hevs.
    destruct (IH w1) as (evs' & Hevs').
    destruct (dispatch l globalGroups outputPath w1) as [logs w2]. simpl in *.
    eexists. rewrite Hevs', Hevs, <- app_assoc. done. }
  revert w. induction repos as [|rc repos IH]; intros w; simpl.
  { split; [intros rc Hrc; by apply elem_of_nil in Hrc|].
    split; [intros n e He; by apply elem_of_nil in He|constructor]. }
  destruct (processRepository_calls rc globalGroups outputPath w) as (evs & Hevs).
  destruct (processRepository rc globalGroups outputPath w) as [r w1] eqn:Hrun.
  simpl in Hevs. destruct (IH w1) as (IH1 & IH2 & IH3).
  destruct (Hgrow repos w1) as (evs' & Hevs').
  destruct (dispatch repos globalGroups outputPath w1) as [logs w2]. simpl in *.
  split; [|split].
  - intros rc' [->|Hin]%elem_of_cons; [|by apply IH1].
    rewrite Hevs', Hevs. rewrite !elem_of_app. left. right. left.
  - intros n e He.
    assert ((n, e) ∈ logs -> exists rc0 wa wb,
               rc0 ∈ rc :: repos /\ Name rc0 = n
               /\ processRepository rc0 globalGroups outputPath wa = (Err e, wb)) as Hlogs.
    { intros (rc0 & wa & wb & Hin & Hn & Hp)%IH2. exists rc0, wa, wb.
      split; [by right|done]. }
    destruct r as [[]|e0]; [by apply Hlogs|].
    apply elem_of_cons in He as [[= -> ->]|He]; [|by apply Hlogs].
    exists rc, w, w1. split; [left|done].
  - destruct r; simpl; [by apply sublist_cons|by apply sublist_skip].
Qed.

End Program.

(** ** The theorems at work on examples *)

Lemma Demo_range_perm V (m : gmap string V) : Demo.range m ≡ₚ map_to_list m.
Proof. reflexivity. Qed.

Lemma mergeValues_precedence_witness :
  (forall V (m : gmap string V), Demo.range m ≡ₚ map_to_list m)
  /\ mergeValues (@Demo.range) (Some {[ "a" := VInt 1; "b" := VInt 2 ]})
                 (Some {[ "b" := VInt 3; "c" := VInt 4 ]})
     = {[ "a" := VInt 1; "b" := VInt 2; "c" := VInt 4 ]}.
Proof.
  split; [intros V m; reflexivity|].
  apply (mergeValues_precedence (@Demo.range)). intros V m; reflexivity.
Defined.

(** C5 on the example: the group's template path is joined once. *)
Lemma readConfig_joins_group_sources_witness :
  readConfig Demo.Unmarshal (@Demo.range) "config.yaml" "templates" Demo.w0
  = (Ok Demo.loaded, logged (EvReadFile "config.yaml") Demo.tree Demo.w0)
  /\ TemplateGroups Demo.loaded = joinedGroup "templates" <$> TemplateGroups Demo.config
  /\ trace (validateConfig Demo.ParseRequestURI (@Demo.range) Demo.loaded Demo.w0).2
     = [EvStat "templates/raw.tmpl"]
  /\ only_calls (fun ev => forall p, ev = EvReadFile p ->
                                     p = "raw.tmpl" \/ p = "templates/raw.tmpl")
       Demo.w0
       (processRepository string Demo.Parse Demo.Execute Demo.httpGet (@Demo.range)
          (Demo.svc [Demo.fromFile "x.txt" "raw.tmpl"] ["base"])
          (TemplateGroups Demo.loaded) "out" Demo.w0).2.
Proof.
  assert (readConfig Demo.Unmarshal (@Demo.range) "config.yaml" "templates" Demo.w0
          = (Ok Demo.loaded, logged (EvReadFile "config.yaml") Demo.tree Demo.w0)) as Hread
    by (vm_compute; reflexivity).
  split; [exact Hread|].
  destruct (readConfig_joins_group_sources string Demo.Parse Demo.Execute Demo.httpGet
              Demo.ParseRequestURI Demo.Unmarshal (@Demo.range) Demo_range_perm
              _ _ _ _ _ Hread)
    as (data & parsed & _ & Hparsed & Hgroups & _ & _ & _ & _ & Hreads).
  injection Hparsed as <-. split; [exact Hgroups|]. split; [vm_compute; reflexivity|].
  destruct (Hreads (Demo.svc [Demo.fromFile "x.txt" "raw.tmpl"] ["base"]) "out" Demo.w0)
    as (evs & Htrace & Hevs).
  exists evs. split; [exact Htrace|].
  eapply Forall_impl; [exact Hevs|]. intros ev Hev p Hp.
  destruct (Hev p Hp) as [(file & Hfile & _ & ->)|(ref & files & file & _ & Hn & Hfile & Hs & ->)].
  - left. apply list_elem_of_singleton in Hfile as ->. reflexivity.
  - right. apply elem_of_map_to_list in Hn. vm_compute in Hn.
    apply list_elem_of_singleton in Hn. injection Hn as _ ->.
    apply elem_of_cons in Hfile as [->|Hfile].
    + vm_compute. reflexivity.
    + apply list_elem_of_singleton in Hfile as ->. by destruct Hs.
Defined.

(** C5 as stated fails: the local source of a direct file of a repository is
    not joined with the templates directory. *)
Lemma readConfig_leaves_direct_files :
  (readConfig Demo.Unmarshal (@Demo.range) "config.yaml" "templates" Demo.w0).1
  = Ok Demo.loaded
  /\ exists repo file,
       repo ∈ Repositories Demo.loaded /\ file ∈ Files repo
       /\ SourceFile file = "raw.tmpl"
       /\ SourceFile file ≠ filepath.Join ["templates"; "raw.tmpl"].
Proof.
  split; [vm_compute; reflexivity|].
  exists (Demo.svc [Demo.fromFile "x.txt" "raw.tmpl"] ["base"]), (Demo.fromFile "x.txt" "raw.tmpl").
  split; [left|]. split; [left|]. split; [reflexivity|]. vm_compute. discriminate.
Qed.

(** C3 on the example: the names are distinct and the template is there, so
    the error is the conflict. *)
Lemma validateConfig_rejects_file_and_content_witness :
  exists e w',
    validateConfig Demo.ParseRequestURI (@Demo.range) Demo.rejected Demo.w0 = (Err e, w')
    /\ root w' = root Demo.w0
    /\ ConflictingSource e
    /\ e = Errorf "both SourceFile and Content set for file: README.md".
Proof.
  assert (TemplateGroups Demo.rejected !! "base"
          = Some [ {| Filename := "README.md"; SourceFile := "templates/raw.tmpl";
                      SourceURL := ""; Content := "text"; Values := None |} ]) as Hgroup
    by (vm_compute; reflexivity).
  assert (SourceFile {| Filename := "README.md"; SourceFile := "templates/raw.tmpl";
                        SourceURL := ""; Content := "text"; Values := None |} ≠ "") as Hsrc
    by (simpl; discriminate).
  assert (Content {| Filename := "README.md"; SourceFile := "templates/raw.tmpl";
                     SourceURL := ""; Content := "text"; Values := None |} ≠ "") as Hcontent
    by (simpl; discriminate).
  destruct (validateConfig_rejects_file_and_content Demo.ParseRequestURI (@Demo.range)
              Demo_range_perm Demo.rejected "base" _ _ Demo.w0 Hgroup
              ltac:(left) Hsrc Hcontent) as (e & w' & Hrun & Hroot & _ & Hconflict).
  exists e, w'. split; [exact Hrun|]. split; [exact Hroot|].
  assert ((validateConfig Demo.ParseRequestURI (@Demo.range) Demo.rejected Demo.w0).1
          = Err (Errorf "both SourceFile and Content set for file: README.md"))
    as Hval by (vm_compute; reflexivity).
  assert (NoDup (Name <$> Repositories Demo.rejected)) as Hnd
    by (apply NoDup_singleton).
  split.
  - apply (Hconflict Hnd). intros n fs f Hn Hf Hs Hc. exfalso.
    apply elem_of_map_to_list in Hn. vm_compute in Hn.
    apply elem_of_cons in Hn as [Hn|Hn]; [|apply elem_of_cons in Hn as [Hn|Hn]].
    + injection Hn as _ ->. apply list_elem_of_singleton in Hf as ->.
      by destruct Hs + (simpl in Hc; discriminate).
    + injection Hn as _ ->. apply list_elem_of_singleton in Hf as ->.
      by destruct Hs + (simpl in Hc; discriminate).
    + by apply elem_of_nil in Hn.
  - pose proof (f_equal fst Hrun) as Hfst. cbn [fst] in Hfst.
    rewrite Hfst in Hval. injection Hval as ->. reflexivity.
Defined.

(** C3 as stated fails: validation accepts a direct file with all three
    sources and a group file with inline content and a URL. *)
Lemma validateConfig_accepts_several_sources :
  (exists repo file,
      repo ∈ Repositories Demo.conflicting /\ file ∈ Files repo
      /\ Content file ≠ "" /\ SourceURL file ≠ "" /\ SourceFile file ≠ "")
  /\ (exists files file,
        TemplateGroups Demo.conflicting !! "base" = Some files /\ file ∈ files
        /\ Content file ≠ "" /\ SourceURL file ≠ "")
  /\ (validateConfig Demo.ParseRequestURI (@Demo.range) Demo.conflicting Demo.w0).1 = Ok tt.
Proof.
  split; [|split].
  - exists (Demo.svc [Demo.allSources] ["base"]), Demo.allSources.
    split; [left|]. split; [left|]. repeat split; simpl; discriminate.
  - eexists _, _. split; [vm_compute; reflexivity|]. split; [left|].
    split; simpl; discriminate.
  - vm_compute. reflexivity.
Qed.



(** C8 on the example: an empty file specification under [out/svc/docs]. *)
Lemma createFileFromTemplate_no_source_witness :
  trace (createFileFromTemplate string Demo.Parse Demo.Execute Demo.httpGet
           "svc" (Demo.emptyFile "docs/x.txt") "out" Demo.w0).2
  = [EvMkdirAll "out/svc/docs"]
  /\ forall k,
       os.file_at k (root (createFileFromTemplate string Demo.Parse Demo.Execute Demo.httpGet
                             "svc" (Demo.emptyFile "docs/x.txt") "out" Demo.w0).2)
       = os.file_at k Demo.tree.
Proof.
  apply (createFileFromTemplate_no_source string Demo.Parse Demo.Execute Demo.httpGet
           "svc" (Demo.emptyFile "docs/x.txt") "out" Demo.w0); reflexivity.
Defined.

(** C8 as stated fails: materializing a file specification without a source
    creates its directory, and returns an error when it cannot. *)
Lemma createFileFromTemplate_no_source_makes_directory :
  (createFileFromTemplate string Demo.Parse Demo.Execute Demo.httpGet
     "svc" (Demo.emptyFile "docs/x.txt") "out" Demo.emptyWorld).1 = Ok tt
  /\ os.Stat "out/svc/docs" (root Demo.emptyWorld) = inl ENOENT
  /\ os.Stat "out/svc/docs"
       (root (createFileFromTemplate string Demo.Parse Demo.Execute Demo.httpGet
                "svc" (Demo.emptyFile "docs/x.txt") "out" Demo.emptyWorld).2)
     = inr (Dir ∅)
  /\ exists e,
       (createFileFromTemplate string Demo.Parse Demo.Execute Demo.httpGet
          "svc" (Demo.emptyFile "x.txt") "blocked" Demo.w0).1
       = Err (Errorf_w "creating directory" e).
Proof. repeat split; try (vm_compute; reflexivity). eexists. vm_compute. reflexivity. Qed.

(** C9 on the example: with all three sources set, the inline content is
    rendered and nothing is fetched or read. *)
Lemma source_priority_witness :
  let both := {| Filename := "t.md"; SourceFile := "templates/page.tmpl";
                 SourceURL := "https://example.com/title"; Content := "";
                 Values := Sample.named "x" |} in
  (Content Demo.allSources ≠ "" /\ SourceURL Demo.allSources ≠ ""
   /\ SourceFile Demo.allSources ≠ ""
   /\ createFileFromTemplate string Demo.Parse Demo.Execute Demo.httpGet
        "svc" Demo.allSources "out"
      = createFileFromTemplate string Demo.Parse Demo.Execute Demo.httpGet
          "svc" (Demo.inline "x.txt" "text") "out"
   /\ exists w',
        createFileFromTemplate string Demo.Parse Demo.Execute Demo.httpGet
          "svc" Demo.allSources "out" Demo.w0 = (Ok tt, w')
        /\ os.ReadFile "out/svc/x.txt" (root w') = inr "text"
        /\ trace w' = [EvMkdirAll "out/svc"; EvCreate "out/svc/x.txt";
                       EvWrite "out/svc/x.txt" "text"])
  /\ (os.ReadFile (SourceFile both) (root Sample.w0) = inr "page of "
      /\ exists w',
           createFileFromTemplate string Sample.Parse Sample.Execute Sample.httpGet
             "svc" both "out" Sample.w0 = (Ok tt, w')
           /\ os.ReadFile "out/svc/t.md" (root w') = inr "fetched for x"
           /\ trace w' = [EvMkdirAll "out/svc"; EvHttpGet "https://example.com/title";
                          EvCreate "out/svc/t.md"; EvWrite "out/svc/t.md" "fetched for x"]).
Proof.
  intros both. split.
  - assert (Content Demo.allSources ≠ "") as Hc by (simpl; discriminate).
    split; [exact Hc|]. split; [simpl; discriminate|]. split; [simpl; discriminate|].
    destruct (proj1 (source_priority string Demo.Parse Demo.Execute Demo.httpGet
                       "svc" Demo.allSources "out") Hc) as (Hsame & _ & Hrendered).
    split; [exact Hsame|].
    assert (sys.MkdirAll (outputDir "svc" Demo.allSources "out") Demo.w0
            = (Ok tt, (sys.MkdirAll (outputDir "svc" Demo.allSources "out") Demo.w0).2))
      as Hmk by (vm_compute; reflexivity).
    eassert (os.Create (fullPath "svc" Demo.allSources "out")
               (root (sys.MkdirAll (outputDir "svc" Demo.allSources "out") Demo.w0).2)
             = inr _) as Hcreate by (vm_compute; reflexivity).
    destruct (Hrendered Demo.w0 _ "text" (conj Hmk (ex_intro _ _ Hcreate))
                (ex_intro _ "text" (conj eq_refl eq_refl))) as (w' & Hrun & Hread & Htrace).
    exists w'. split; [exact Hrun|]. split; [exact Hread|].
    etrans; [exact Htrace|]. vm_compute. reflexivity.
  - split; [vm_compute; reflexivity|].
    assert (Content both = "") as Hc by reflexivity.
    assert (SourceURL both ≠ "") as Hu by (simpl; discriminate).
    destruct (proj1 (proj2 (source_priority string Sample.Parse Sample.Execute
                              Sample.httpGet "svc" both "out")) Hc Hu)
      as (_ & _ & Hrendered).
    assert (sys.MkdirAll (outputDir "svc" both "out") Sample.w0
            = (Ok tt, (sys.MkdirAll (outputDir "svc" both "out") Sample.w0).2))
      as Hmk by (vm_compute; reflexivity).
    eassert (os.Create (fullPath "svc" both "out")
               (root (sys.MkdirAll (outputDir "svc" both "out") Sample.w0).2)
             = inr _) as Hcreate by (vm_compute; reflexivity).
    assert (fetched (Sample.httpGet (SourceURL both)) "fetched for ") as Hget.
    { exists 200%Z, "200 OK". split; [vm_compute; reflexivity|lia]. }
    destruct (Hrendered Sample.w0 _ "fetched for " "fetched for x"
                (conj Hmk (ex_intro _ _ Hcreate)) Hget
                (ex_intro _ "fetched for " (conj eq_refl eq_refl)))
      as (w' & Hrun & Hread & Htrace).
    exists w'. split; [exact Hrun|]. split; [exact Hread|].
    etrans; [exact Htrace|]. vm_compute. reflexivity.
Defined.

(** C10 on the example: the stale [out/svc/old.txt] is empty after the parse
    error. *)
Lemma inline_failure_truncates_witness :
  os.ReadFile "out/svc/old.txt" Demo.tree = inr "stale"
  /\ exists w',
       createFileFromTemplate string Demo.Parse Demo.Execute Demo.httpGet
         "svc" (Demo.inline "old.txt" "{{ broken") "out" Demo.w0
       = (Err (Errorf_w "parsing template" ParseError), w')
       /\ os.ReadFile (fullPath "svc" (Demo.inline "old.txt" "{{ broken") "out") (root w')
          = inr "".
Proof.
  split; [vm_compute; reflexivity|].
  eexists. split; [vm_compute; reflexivity|].
  eapply (inline_failure_truncates string Demo.Parse Demo.Execute Demo.httpGet
            "svc" (Demo.inline "old.txt" "{{ broken") "out" Demo.w0).
  - simpl. discriminate.
  - vm_compute. reflexivity.
Defined.

(** C6 on the example: the second of three direct files fails. *)
Lemma processRepository_first_failure_witness :
  exists w2,
    processRepository string Demo.Parse Demo.Execute Demo.httpGet (@Demo.range)
      (Demo.svc [Demo.inline "a.txt" "hello"; Demo.inline "b.txt" "{{ bad";
                 Demo.inline "c.txt" "never"] []) ∅ "out" Demo.w0
    = (Err (Errorf_w "error creating file from template"
              (Errorf_w "parsing template" ParseError)), w2)
    /\ os.ReadFile "out/svc/a.txt" (root w2) = inr "hello"
    /\ os.ReadFile "out/svc/c.txt" (root w2) = inl ENOENT.
Proof.
  eassert (deleteExistingDir (filepath.Join ["out"; "svc"]) Demo.w0 = (Ok tt, _)) as Hreset
    by (vm_compute; reflexivity).
  destruct (processRepository_first_failure string Demo.Parse Demo.Execute Demo.httpGet
              (@Demo.range)
              (Demo.svc [Demo.inline "a.txt" "hello"; Demo.inline "b.txt" "{{ bad";
                         Demo.inline "c.txt" "never"] []) ∅ "out" Demo.w0 _ Hreset)
    as [Hfirst _].
  eexists. split.
  - eapply (Hfirst [Demo.inline "a.txt" "hello"] (Demo.inline "b.txt" "{{ bad")
                   [Demo.inline "c.txt" "never"]).
    + reflexivity.
    + vm_compute. reflexivity.
    + vm_compute. reflexivity.
  - split; vm_compute; reflexivity.
Defined.

(** C7 on the example: after a run that writes [a.txt] and a run that writes
    [b.txt], the subtree holds [b.txt] and neither [a.txt] nor the stale
    [old.txt]. *)
Lemma reset_leaves_no_stale_files_witness :
  let twice files := processRepository string Demo.Parse Demo.Execute Demo.httpGet (@Demo.range)
                     (Demo.svc files []) ∅ "out" in
  let w1 := (twice [Demo.inline "a.txt" "one"] Demo.w0).2 in
  let res := twice [Demo.inline "b.txt" "two"] w1 in
  os.file_at ["out"; "svc"; "old.txt"] (root Demo.w0) = Some "stale"
  /\ os.file_at ["out"; "svc"; "a.txt"] (root w1) = Some "one"
  /\ res.1 = Ok tt
  /\ (forall k c, inSubtree "out/svc" k -> os.file_at k (root res.2) = Some c ->
                  k ∈ [["out"; "svc"; "b.txt"]])
  /\ is_Some (os.file_at ["out"; "svc"; "b.txt"] (root res.2)).
Proof.
  intros twice w1 res.
  assert ("out" ≠ "" \/ Name (Demo.svc [Demo.inline "b.txt" "two"] []) ≠ "") as Hnamed
    by (left; discriminate).
  destruct (reset_leaves_no_stale_files string Demo.Parse Demo.Execute Demo.httpGet
              (@Demo.range) (Demo.svc [Demo.inline "a.txt" "one"] [])
              (Demo.svc [Demo.inline "b.txt" "two"] []) ∅ ∅ "out" Demo.w0 eq_refl Hnamed)
    as (_ & _ & Hstale & Hthere & _).
  assert (res.1 = Ok tt) as Hok by (vm_compute; reflexivity).
  split; [vm_compute; reflexivity|]. split; [vm_compute; reflexivity|]. split; [exact Hok|].
  split.
  - assert (forall e, res.1 ≠ Err (Errorf_w ("error clearing output directory for repo "
                                               +:+ "svc") e)) as Hreset
      by (intros e; rewrite Hok; discriminate).
    pose proof (Hstale Hreset) as H. vm_compute in H. vm_compute. exact H.
  - assert (Demo.inline "b.txt" "two"
            ∈ planned (Demo.svc [Demo.inline "b.txt" "two"] []) ∅) as Hin by left.
    assert (populated (Demo.inline "b.txt" "two")) as Hpop by (left; simpl; discriminate).
    pose proof (Hthere Hok _ Hin Hpop) as H. vm_compute in H. vm_compute. exact H.
Defined.

(** C7 as stated fails: with an empty output root and an empty repository
    name the path of the output directory is empty, [Stat] reports it
    missing and nothing is removed; the files go to the working directory,
    and the file of the first run is still there after the second, which
    does not write it. *)
Lemma reset_skipped_without_a_name :
  let nameless files := {| Name := ""; Files := files; Groups := [] |} in
  let twice files := processRepository string Demo.Parse Demo.Execute Demo.httpGet
                       (@Demo.range) (nameless files) ∅ "" in
  let w1 := (twice [Demo.inline "a.txt" "one"] Demo.emptyWorld).2 in
  let res := twice [Demo.inline "b.txt" "two"] w1 in
  filepath.Join [""; ""] = ""
  /\ fullPath "" (Demo.inline "a.txt" "one") "" = "a.txt"
  /\ os.file_at ["a.txt"] (root w1) = Some "one"
  /\ res.1 = Ok tt
  /\ trace res.2 = trace w1 ++ [EvStat ""; EvMkdirAll "."; EvCreate "b.txt";
                                EvWrite "b.txt" "two"]
  /\ targets "" "" (planned (nameless [Demo.inline "b.txt" "two"]) ∅) = [["b.txt"]]
  /\ os.file_at ["a.txt"] (root res.2) = Some "one".
Proof. vm_compute. repeat split. Qed.

(** C1 fails on a local source that is its own destination: the call
    succeeds, and the template, which held text that does not parse, is left
    empty. *)
Theorem fallback_clobbers_aliased_source :
  let file := Demo.fromFile "../../templates/raw.tmpl" "templates/raw.tmpl" in
  let res := createFileFromTemplate string Demo.Parse Demo.Execute Demo.httpGet
               "svc" file "out" Demo.w0 in
  fullPath "svc" file "out" = "templates/raw.tmpl"
  /\ os.ReadFile (SourceFile file) (root Demo.w0) = inr "{{ unclosed"
  /\ Demo.Parse "{{ unclosed" = None
  /\ res.1 = Ok tt
  /\ os.ReadFile (fullPath "svc" file "out") (root res.2) = inr "".
Proof. repeat split; vm_compute; reflexivity. Qed.

(** The fallback on the example: the template [templates/raw.tmpl], which
    does not parse, is copied to [out/svc/README.md] as it is. *)
Lemma fallback_law_example :
  exists w',
    createFileFromTemplate string Demo.Parse Demo.Execute Demo.httpGet
      "svc" (Demo.fromFile "README.md" "templates/raw.tmpl") "out" Demo.w0 = (Ok tt, w')
    /\ os.ReadFile "out/svc/README.md" (root w') = inr "{{ unclosed"
    /\ os.ReadFile "templates/raw.tmpl" (root w') = inr "{{ unclosed".
Proof.
  assert (sys.MkdirAll (outputDir "svc" (Demo.fromFile "README.md" "templates/raw.tmpl") "out")
            Demo.w0 = (Ok tt, logged (EvMkdirAll "out/svc") Demo.tree Demo.w0)) as Hmk
    by (vm_compute; reflexivity).
  eassert (os.Create (fullPath "svc" (Demo.fromFile "README.md" "templates/raw.tmpl") "out")
             Demo.tree = inr _) as Hcreate by (vm_compute; reflexivity).
  apply (proj1 (proj2 (fallback_law string Demo.Parse Demo.Execute Demo.httpGet (@Demo.range)
                         "svc" (Demo.fromFile "README.md" "templates/raw.tmpl") "out"))
           _ _ _ "{{ unclosed" Hmk Hcreate).
  - reflexivity.
  - reflexivity.
  - simpl. discriminate.
  - vm_compute. reflexivity.
  - vm_compute. discriminate.
  - vm_compute. reflexivity.
Qed.

(** The paths of the examples, as [path/filepath] computes them. *)
Lemma filepath_examples :
  filepath.Join ["out"; "svc"; filepath.Dir "docs/README.md"] = "out/svc/docs"
  /\ filepath.Base "docs/README.md" = "README.md"
  /\ filepath.Dir "README.md" = "."
  /\ filepath.Join ["out"; "svc"; "."] = "out/svc"
  /\ filepath.Join ["out"; "svc"; filepath.Dir "../../templates/raw.tmpl"] = "templates"
  /\ filepath.Join ["templates"; "raw.tmpl"] = "templates/raw.tmpl"
  /\ filepath.Join [""; ""] = ""
  /\ filepath.Clean "/../a//b/./c/.." = "/a/b"
  /\ filepath.Clean "../../a" = "../../a"
  /\ filepath.Base "a/b//" = "b"
  /\ filepath.Dir "/x" = "/".
Proof. vm_compute. repeat split. Qed.

(** ** The further properties on examples *)

Lemma validateDuplicateTemplateGroups_never_fails_witness :
  (forall V (m : gmap string V), Demo.range m ≡ₚ map_to_list m)
  /\ validateDuplicateTemplateGroups (@Demo.range) Sample.groups = None.
Proof.
  split; [intros V m; reflexivity|].
  apply (validateDuplicateTemplateGroups_never_fails (@Demo.range)). intros V m; reflexivity.
Defined.

Lemma validateConfig_Ok_sound_witness :
  (validateConfig Demo.ParseRequestURI (@Demo.range) Demo.loaded Demo.w0).1 = Ok tt
  /\ NoDup (Name <$> Repositories Demo.loaded)
  /\ root (validateConfig Demo.ParseRequestURI (@Demo.range) Demo.loaded Demo.w0).2
     = root Demo.w0.
Proof.
  assert (validateConfig Demo.ParseRequestURI (@Demo.range) Demo.loaded Demo.w0
          = (Ok tt, (validateConfig Demo.ParseRequestURI (@Demo.range) Demo.loaded Demo.w0).2))
    as Hok by (vm_compute; reflexivity).
  split; [by rewrite Hok|].
  destruct (validateConfig_Ok_sound Demo.ParseRequestURI (@Demo.range) Demo_range_perm
              Demo.loaded Demo.w0 _ Hok) as (Hnd & _ & _ & Hroot).
  split; [exact Hnd|exact Hroot].
Defined.

Lemma processRepository_validated_errors_witness :
  (validateConfig Demo.ParseRequestURI (@Demo.range) Demo.loaded Demo.w0).1 = Ok tt
  /\ exists e,
       (processRepository string Demo.Parse Demo.Execute Demo.httpGet (@Demo.range)
          (Demo.svc [Demo.fromFile "x.txt" "raw.tmpl"] ["base"])
          (TemplateGroups Demo.loaded) "out" Demo.w0).1 = Err e
       /\ isWrapped e.
Proof.
  assert (validateConfig Demo.ParseRequestURI (@Demo.range) Demo.loaded Demo.w0
          = (Ok tt, (validateConfig Demo.ParseRequestURI (@Demo.range) Demo.loaded Demo.w0).2))
    as Hok by (vm_compute; reflexivity).
  split; [by rewrite Hok|].
  eassert (processRepository string Demo.Parse Demo.Execute Demo.httpGet (@Demo.range)
             (Demo.svc [Demo.fromFile "x.txt" "raw.tmpl"] ["base"])
             (TemplateGroups Demo.loaded) "out" Demo.w0 = (Err _, _)) as Hrun
    by (vm_compute; reflexivity).
  eexists. split; [by rewrite Hrun|].
  refine (processRepository_validated_errors string Demo.Parse Demo.Execute Demo.httpGet
            Demo.ParseRequestURI (@Demo.range) Demo_range_perm Demo.loaded Demo.w0 _
            (Demo.svc [Demo.fromFile "x.txt" "raw.tmpl"] ["base"]) "out" Demo.w0 _ _
            Hok _ Hrun).
  left.
Defined.

Lemma source_unavailable_witness :
  let res := createFileFromTemplate string Sample.Parse Sample.Execute Sample.httpGet
               "svc" (Demo.fromURL "t.md" "https://example.com/gone") "out" Sample.w0 in
  (exists e, res.1 = Err e)
  /\ forall k, os.file_at k (root res.2) = os.file_at k (root Sample.w0).
Proof.
  intros res.
  destruct (source_unavailable string Sample.Parse Sample.Execute Sample.httpGet
              "svc" (Demo.fromURL "t.md" "https://example.com/gone") "out" Sample.w0)
    as (Herr & Hfiles & _).
  - reflexivity.
  - left. split; [simpl; discriminate|].
    intros b (code & status & Hget & Hcode). vm_compute in Hget.
    injection Hget as <- _ _. lia.
  - split; [exact Herr|exact Hfiles].
Defined.

Lemma createFileFromTemplate_renders_witness :
  exists w',
    createFileFromTemplate string Sample.Parse Sample.Execute Sample.httpGet
      "svc" Sample.readme "out" Sample.w0 = (Ok tt, w')
    /\ os.ReadFile (fullPath "svc" Sample.readme "out") (root w') = inr "# default".
Proof.
  assert (sys.MkdirAll (outputDir "svc" Sample.readme "out") Sample.w0
          = (Ok tt, logged (EvMkdirAll "out/svc") Sample.tree Sample.w0)) as Hmk
    by (vm_compute; reflexivity).
  eassert (os.Create (fullPath "svc" Sample.readme "out") Sample.tree = inr _) as Hcreate
    by (vm_compute; reflexivity).
  destruct (proj1 (createFileFromTemplate_renders string Sample.Parse Sample.Execute
                     Sample.httpGet "svc" Sample.readme "out" Sample.w0 _ _ "# " "# default"
                     Hmk Hcreate eq_refl))
    as (w' & Hrun & Hread & _).
  - simpl. discriminate.
  - reflexivity.
  - exists w'. split; [exact Hrun|exact Hread].
Defined.

Lemma fallback_on_execution_error_witness :
  exists w',
    createFileFromTemplate string Sample.Parse Sample.Execute Sample.httpGet
      "svc" (Demo.fromFile "page.md" "templates/page.tmpl") "out" Sample.w0 = (Ok tt, w')
    /\ os.ReadFile (fullPath "svc" (Demo.fromFile "page.md" "templates/page.tmpl") "out")
         (root w') = inr "page of ".
Proof.
  assert (sys.MkdirAll (outputDir "svc" (Demo.fromFile "page.md" "templates/page.tmpl") "out")
            Sample.w0 = (Ok tt, logged (EvMkdirAll "out/svc") Sample.tree Sample.w0)) as Hmk
    by (vm_compute; reflexivity).
  eassert (os.Create (fullPath "svc" (Demo.fromFile "page.md" "templates/page.tmpl") "out")
             Sample.tree = inr _) as Hcreate by (vm_compute; reflexivity).
  apply (proj2 (fallback_on_execution_error string Sample.Parse Sample.Execute Sample.httpGet
                  "svc" (Demo.fromFile "page.md" "templates/page.tmpl") "out" Sample.w0 _ _
                  "page of " "page of " Hmk Hcreate eq_refl) "page of ").
  - reflexivity.
  - reflexivity.
  - simpl. discriminate.
  - vm_compute. reflexivity.
  - reflexivity.
  - vm_compute. discriminate.
Defined.

Lemma destination_unwritable_witness :
  let res := createFileFromTemplate string Sample.Parse Sample.Execute Sample.httpGet
               "svc" (Demo.inline "docs" "x") "out" Sample.w0 in
  res.1 = Err (Errorf_w "creating file"
                 (PathError "open" (fullPath "svc" (Demo.inline "docs" "x") "out") EISDIR))
  /\ root res.2 = Sample.tree.
Proof.
  assert (sys.MkdirAll (outputDir "svc" (Demo.inline "docs" "x") "out") Sample.w0
          = (Ok tt, logged (EvMkdirAll "out/svc") Sample.tree Sample.w0)) as Hmk
    by (vm_compute; reflexivity).
  assert (os.Create (fullPath "svc" (Demo.inline "docs" "x") "out") Sample.tree = inl EISDIR)
    as Hcreate by (vm_compute; reflexivity).
  apply (proj1 (destination_unwritable string Sample.Parse Sample.Execute Sample.httpGet
                  "svc" (Demo.inline "docs" "x") "out" Sample.w0 _ EISDIR Hmk Hcreate)).
  simpl. discriminate.
Defined.

Lemma deleteExistingDir_frame_witness :
  os.file_at ["notes.txt"] (root (deleteExistingDir "out/svc" Sample.w0).2) = Some "keep".
Proof.
  rewrite (deleteExistingDir_frame "out/svc" Sample.w0 ["notes.txt"]).
  - vm_compute. reflexivity.
  - intros [q Hq]. vm_compute in Hq. discriminate.
Defined.

Lemma deleteExistingDir_resets_witness :
  (deleteExistingDir "out/svc" Demo.w0).1 = Ok tt
  /\ os.Stat "out/svc" (root Demo.w0) = inr (Dir {[ "old.txt" := File "stale" ]})
  /\ os.Stat "out/svc" (root (deleteExistingDir "out/svc" Demo.w0).2) = inl ENOENT.
Proof.
  assert (deleteExistingDir "out/svc" Demo.w0
          = (Ok tt, (deleteExistingDir "out/svc" Demo.w0).2)) as Hok
    by (vm_compute; reflexivity).
  split; [by rewrite Hok|]. split; [vm_compute; reflexivity|].
  apply (deleteExistingDir_resets "out/svc" Demo.w0 _ Hok). discriminate.
Defined.

Lemma deleteExistingDir_error_witness :
  (exists e, (deleteExistingDir "blocked/svc" Demo.w0).1 = Err e
             /\ root (deleteExistingDir "blocked/svc" Demo.w0).2 = root Demo.w0)
  /\ (deleteExistingDir ".." Demo.w0).1
     = Err (Errorf_w "failed to delete existing directory '..'"
              (PathError "unlinkat" "./.." ENOTEMPTY))
  /\ os.file_at ["blocked"] (root Demo.w0) = Some "a regular file"
  /\ forall q, os.file_at (os.resolve ".." ++ q) (root (deleteExistingDir ".." Demo.w0).2)
               = None.
Proof.
  split; [|split; [vm_compute; reflexivity|split; [vm_compute; reflexivity|]]].
  - eassert (deleteExistingDir "blocked/svc" Demo.w0
             = (Err _, (deleteExistingDir "blocked/svc" Demo.w0).2)) as Herr
      by (vm_compute; reflexivity).
    eexists. split; [by rewrite Herr|].
    destruct (deleteExistingDir_error "blocked/svc" Demo.w0 _ _ Herr)
      as (_ & _ & op & path & en & _ & _ & [[Hroot _]|(es & Hstat & _)]).
    + exact Hroot.
    + vm_compute in Hstat. discriminate.
  - eassert (deleteExistingDir ".." Demo.w0
             = (Err _, (deleteExistingDir ".." Demo.w0).2)) as Herr
      by (vm_compute; reflexivity).
    destruct (deleteExistingDir_error ".." Demo.w0 _ _ Herr)
      as (_ & _ & op & path & en & _ & _ & [[_ [(Hdot & _)|[Hstat|[c Hstat]]]]|Hemptied]).
    + vm_compute in Hdot. discriminate.
    + vm_compute in Hstat. discriminate.
    + vm_compute in Hstat. discriminate.
    + destruct Hemptied as (es & _ & _ & _ & Hgone). exact Hgone.
Defined.

Lemma mergeValues_algebra_witness :
  (forall V (m : gmap string V), Demo.range m ≡ₚ map_to_list m)
  /\ mergeValues (@Demo.range) (Sample.named "a")
       (Some (mergeValues (@Demo.range) (Sample.named "b") (Sample.named "c")))
     = mergeValues (@Demo.range)
         (Some (mergeValues (@Demo.range) (Sample.named "a") (Sample.named "b")))
         (Sample.named "c").
Proof.
  split; [intros V m; reflexivity|].
  destruct (mergeValues_algebra (@Demo.range) (fun V m => reflexivity (Demo.range m)))
    as (_ & _ & Hassoc & _).
  exact (Hassoc (Sample.named "a") (Sample.named "b") (Sample.named "c")).
Defined.

Lemma processRepository_unknown_group_witness :
  exists w2,
    processRepository string Sample.Parse Sample.Execute Sample.httpGet (@Demo.range)
      {| Name := "svc"; Files := [Sample.readme];
         Groups := [Sample.base "a"; Sample.unknown; Sample.base "b"] |}
      Sample.groups "out" Sample.w0
    = (Err (Errorf "template group missing not found in configuration"), w2)
    /\ os.ReadFile "out/svc/README.md" (root w2) = inr "# a".
Proof.
  pose (wa := (deleteExistingDir (filepath.Join ["out"; "svc"]) Sample.w0).2).
  pose (wb := (forEach [Sample.readme]
                 (fun file => createFileFromTemplate string Sample.Parse Sample.Execute
                                Sample.httpGet "svc" file "out") wa).2).
  pose (wc := (forEach [Sample.base "a"]
                 (processGroup string Sample.Parse Sample.Execute Sample.httpGet
                    (@Demo.range) "svc" Sample.groups "out") wb).2).
  assert (deleteExistingDir (filepath.Join ["out"; "svc"]) Sample.w0 = (Ok tt, wa)) as Hreset
    by (vm_compute; reflexivity).
  assert (forEach [Sample.readme]
            (fun file => createFileFromTemplate string Sample.Parse Sample.Execute
                           Sample.httpGet "svc" file "out") wa = (Ok tt, wb)) as Hfiles
    by (vm_compute; reflexivity).
  assert (forEach [Sample.base "a"]
            (processGroup string Sample.Parse Sample.Execute Sample.httpGet (@Demo.range)
               "svc" Sample.groups "out") wb = (Ok tt, wc)) as Hgpre
    by (vm_compute; reflexivity).
  assert (Sample.groups !! TemplateGroupRef.GroupName Sample.unknown = None) as Hnone
    by (vm_compute; reflexivity).
  exists wc. split.
  - exact (processRepository_unknown_group string Sample.Parse Sample.Execute Sample.httpGet
             (@Demo.range)
             {| Name := "svc"; Files := [Sample.readme];
                Groups := [Sample.base "a"; Sample.unknown; Sample.base "b"] |}
             Sample.groups "out" Sample.w0 wa wb [Sample.base "a"] Sample.unknown
             [Sample.base "b"] wc Hreset Hfiles eq_refl Hgpre Hnone).
  - vm_compute. reflexivity.
Defined.

Lemma processGroup_merged_values_witness :
  os.ReadFile "out/svc-a/README.md"
    (root (processGroup string Sample.Parse Sample.Execute Sample.httpGet (@Demo.range)
             "svc-a" Sample.groups "out" (Sample.base "svc-a") Sample.w0).2)
  = inr "# svc-a".
Proof.
  assert (sys.MkdirAll (outputDir "svc-a" Sample.readme "out") Sample.w0
          = (Ok tt, (sys.MkdirAll (outputDir "svc-a" Sample.readme "out") Sample.w0).2)) as Hmk
    by (vm_compute; reflexivity).
  eassert (os.Create (fullPath "svc-a" Sample.readme "out")
             (root (sys.MkdirAll (outputDir "svc-a" Sample.readme "out") Sample.w0).2)
           = inr _) as Hcreate by (vm_compute; reflexivity).
  assert (Sample.groups !! TemplateGroupRef.GroupName (Sample.base "svc-a")
          = Some [Sample.readme]) as Hgroup by (vm_compute; reflexivity).
  assert (Content Sample.readme ≠ "") as Hcontent by (simpl; discriminate).
  destruct (processGroup_merged_values string Sample.Parse Sample.Execute Sample.httpGet
              (@Demo.range) "svc-a" Sample.groups "out" (Sample.base "svc-a") Sample.readme
              Sample.w0 _ _ "# " Hgroup Hcontent eq_refl Hmk Hcreate) as [Hread _].
  etrans; [exact Hread|]. vm_compute. reflexivity.
Defined.

Lemma processRepository_nothing_to_do_witness :
  (processRepository string Demo.Parse Demo.Execute Demo.httpGet (@Demo.range)
     (Demo.svc [] []) ∅ "out" Demo.w0).1 = Ok tt
  /\ os.Stat "out/svc"
       (root (processRepository string Demo.Parse Demo.Execute Demo.httpGet (@Demo.range)
                (Demo.svc [] []) ∅ "out" Demo.w0).2) = inl ENOENT.
Proof.
  assert ((processRepository string Demo.Parse Demo.Execute Demo.httpGet (@Demo.range)
             (Demo.svc [] []) ∅ "out" Demo.w0).1 = Ok tt) as Hok
    by (vm_compute; reflexivity).
  split; [exact Hok|].
  apply (proj2 (processRepository_nothing_to_do string Demo.Parse Demo.Execute Demo.httpGet
                  (@Demo.range) (Demo.svc [] []) ∅ "out" Demo.w0 eq_refl eq_refl) Hok).
  vm_compute. discriminate.
Defined.

Lemma createTemplatedFile_outcomes_witness :
  createTemplatedFile string Sample.Parse Sample.Execute "out/svc/docs" "# "
    (Sample.named "x") Sample.w0
  = (Err (Errorf_w "creating file" (PathError "open" "out/svc/docs" EISDIR)),
     logged (EvCreate "out/svc/docs") (root Sample.w0) Sample.w0)
  /\ os.ReadFile "notes.txt" (root Sample.w0) = inr "keep"
  /\ exists w', createTemplatedFile string Sample.Parse Sample.Execute "notes.txt" "# "
                  (Sample.named "x") Sample.w0 = (Ok tt, w')
                /\ os.ReadFile "notes.txt" (root w') = inr "# x".
Proof.
  split; [|split; [vm_compute; reflexivity|]].
  - apply (proj1 (createTemplatedFile_outcomes string Sample.Parse Sample.Execute
                    "out/svc/docs" "# " (Sample.named "x") Sample.w0)).
    vm_compute. reflexivity.
  - eassert (os.Create "notes.txt" (root Sample.w0) = inr _) as Hcreate
      by (vm_compute; reflexivity).
    destruct (proj2 (createTemplatedFile_outcomes string Sample.Parse Sample.Execute
                       "notes.txt" "# " (Sample.named "x") Sample.w0)
                _ "# " "# x" Hcreate eq_refl eq_refl) as (w' & Hrun & Hread & _).
    exists w'. split; [exact Hrun|exact Hread].
Defined.

Lemma copyFile_outcomes_witness :
  ((copyFile "missing.txt" "notes.txt" Sample.w0).1
   = Err (Errorf_w "reading source file for copy" (PathError "open" "missing.txt" ENOENT))
   /\ root (copyFile "missing.txt" "notes.txt" Sample.w0).2 = root Sample.w0)
  /\ os.ReadFile "notes.txt" (root (copyFile "templates/page.tmpl" "notes.txt" Sample.w0).2)
     = inr "page of ".
Proof.
  split.
  - apply (proj1 (copyFile_outcomes "missing.txt" "notes.txt" Sample.w0)).
    vm_compute. reflexivity.
  - apply (proj2 (copyFile_outcomes "templates/page.tmpl" "notes.txt" Sample.w0) "page of ");
      vm_compute; reflexivity.
Defined.

Lemma readConfig_outcomes_witness :
  (readConfig Demo.Unmarshal (@Demo.range) "missing.yaml" "templates" Demo.w0).1
  = Err (Errorf_w "failed to read file" (PathError "open" "missing.yaml" ENOENT))
  /\ trace (readConfig Demo.Unmarshal (@Demo.range) "missing.yaml" "templates" Demo.w0).2
     = trace Demo.w0 ++ [EvReadFile "missing.yaml"].
Proof.
  destruct (readConfig_outcomes Demo.Unmarshal (@Demo.range) "missing.yaml" "templates"
              Demo.w0) as (_ & Htrace & Hread & _).
  split; [|exact Htrace].
  apply Hread. vm_compute. reflexivity.
Defined.

Lemma startup_reads_only_witness :
  let args := {| ConfigFile := "config.yaml"; OutputPath := "out";
                 TemplatesDir := "templates"; Repo := ""; MaxParallel := 5 |} in
  (startup Demo.ParseRequestURI Demo.Unmarshal (@Demo.range) args Demo.w0).1
  = Ok Demo.loaded
  /\ root (startup Demo.ParseRequestURI Demo.Unmarshal (@Demo.range) args Demo.w0).2
     = root Demo.w0
  /\ (validateConfig Demo.ParseRequestURI (@Demo.range) Demo.loaded
        (readConfig Demo.Unmarshal (@Demo.range) "config.yaml" "templates" Demo.w0).2).1
     = Ok tt.
Proof.
  intros args.
  destruct (startup_reads_only Demo.ParseRequestURI Demo.Unmarshal (@Demo.range) args Demo.w0)
    as (_ & Hroot & Hok).
  assert (startup Demo.ParseRequestURI Demo.Unmarshal (@Demo.range) args Demo.w0
          = (Ok Demo.loaded,
             (startup Demo.ParseRequestURI Demo.Unmarshal (@Demo.range) args Demo.w0).2))
    as Hrun by (vm_compute; reflexivity).
  split; [by rewrite Hrun|]. split; [exact Hroot|].
  destruct (Hok _ _ Hrun) as (_ & w1 & Hread & Hvalid).
  change (readConfig Demo.Unmarshal (@Demo.range) "config.yaml" "templates" Demo.w0)
    with (readConfig Demo.Unmarshal (@Demo.range) (ConfigFile args) (TemplatesDir args)
            Demo.w0).
  rewrite Hread. cbn [snd]. by rewrite Hvalid.
Defined.

Lemma dispatch_isolates_witness :
  let failing := {| Name := "a"; Files := []; Groups := [Sample.unknown] |} in
  let plain := {| Name := "b"; Files := [Sample.readme]; Groups := [] |} in
  let res := dispatch string Sample.Parse Sample.Execute Sample.httpGet (@Demo.range)
               [failing; plain] Sample.groups "out" Sample.w0 in
  res.1 = [("a", Errorf "template group missing not found in configuration")]
  /\ EvStat (filepath.Join ["out"; "b"]) ∈ trace res.2
  /\ os.ReadFile "out/b/README.md" (root res.2) = inr "# default"
  /\ NoDup res.1.*1.
Proof.
  intros failing plain res.
  destruct (dispatch_isolates string Sample.Parse Sample.Execute Sample.httpGet
              (@Demo.range) [failing; plain] Sample.groups "out" Sample.w0)
    as (Hreset & _ & _ & Honce).
  split; [vm_compute; reflexivity|]. split; [|split; [vm_compute; reflexivity|]].
  - apply (Hreset plain). apply elem_of_cons. right. apply elem_of_cons. by left.
  - apply Honce. apply NoDup_cons. split; [|apply NoDup_singleton].
    intros Hin%list_elem_of_singleton. discriminate.
Defined.
